(** * Notification-scheme event reconciliation of the Jira adapter

    A shallow embedding of
    - [filters/notification_scheme/notification_events.ts]
      (shape validator, event projection, identity key, event diff,
      apply loop),
    - [filters/notification_scheme/notification_scheme_deployment.ts]
      (the filter's [deploy], [preDeploy] and [onDeploy]), and
    - [filters/workflowV2/workflowV1_removal.ts] (the filter's
      [onFetch]),
    followed by the properties established about them.

    Scope of the value model.  Decoded payloads and instance values are
    JSON-like trees.  Numbers are integers (rendered in decimal, as
    JavaScript does below 1e21); objects are association lists in
    insertion order; inherited (prototype) properties and the own
    properties of primitives and arrays are not modelled; composite
    values have no identity, so [===] is only decided on primitives.
    Which strings Joi converts to numbers is a parameter of the
    development.

    Scope of the effect model.  A function that throws returns an
    [Error]; the remote service is a function of the calls issued so
    far; the callbacks of [Promise.all] are run in rounds, every awaited
    call settling in the order of issue.  [await Promise.all] ends with
    the first rejection or, when there is none, with the last callback;
    a rejection stops no callback, and what the callbacks do after it
    is followed for one loop on its own, not across the loops of a
    batch. *)

From Stdlib Require Import List String Ascii ZArith Lia Bool DecimalString.
Import ListNotations.

#[local] Set Warnings "-register-all".
#[local] Set Default Proof Using "Type".

Local Open Scope string_scope.
Local Open Scope list_scope.

(* ================================================================== *)
(** ** JavaScript values *)

Inductive Value : Type :=
| VUndef
| VNull
| VBool (b : bool)
| VNum (z : Z)
| VStr (s : string)
| VArr (items : list Value)
| VObj (fields : list (string * Value)).

(** [Values]: a plain object, its own properties in insertion order. *)
Definition Fields := list (string * Value).

Definition isUndefined (v : Value) : bool :=
  match v with VUndef => true | _ => false end.

(** [lowerdashValues.isDefined]: [val !== undefined]. *)
Definition isDefined (v : Value) : bool := negb (isUndefined v).

Definition isNullish (v : Value) : bool :=
  match v with VUndef | VNull => true | _ => false end.

(** [a ?? b] *)
Definition nullish_or (a b : Value) : Value :=
  if isNullish a then b else a.

(** [a === b], decided on primitives; composite operands would need
    object identity and compare unequal here. *)
Definition strict_eq (a b : Value) : bool :=
  match a, b with
  | VUndef, VUndef => true
  | VNull, VNull => true
  | VBool x, VBool y => Bool.eqb x y
  | VNum x, VNum y => Z.eqb x y
  | VStr x, VStr y => String.eqb x y
  | _, _ => false
  end.

(* ------------------------------------------------------------------ *)
(** *** Own properties of objects *)

Section Assoc.
Context {A : Type}.

Fixpoint lookup (k : string) (fs : list (string * A)) : option A :=
  match fs with
  | [] => None
  | (k', v) :: rest => if String.eqb k k' then Some v else lookup k rest
  end.

(** [o[k] = v]: an existing key keeps its position and takes the new
    value, a new key is appended. *)
Fixpoint assign (k : string) (v : A) (fs : list (string * A))
  : list (string * A) :=
  match fs with
  | [] => [(k, v)]
  | (k', v') :: rest =>
      if String.eqb k k' then (k', v) :: rest
      else (k', v') :: assign k v rest
  end.

(** [delete o[k]] *)
Definition remove (k : string) (fs : list (string * A))
  : list (string * A) :=
  filter (fun kv => negb (String.eqb k (fst kv))) fs.

Definition hasField (k : string) (fs : list (string * A)) : bool :=
  match lookup k fs with Some _ => true | None => false end.

(** [_.keyBy(l, f)] *)
Definition keyBy (f : A -> string) (l : list A) : list (string * A) :=
  fold_left (fun acc a => assign (f a) a acc) l [].

(** [Object.values(o)] *)
Definition Object_values (o : list (string * A)) : list A :=
  map snd o.
End Assoc.

(** [v.k] where [v] is known not to be nullish. *)
Definition get (v : Value) (k : string) : Value :=
  match v with
  | VObj fs => match lookup k fs with Some x => x | None => VUndef end
  | _ => VUndef
  end.

(** [_.pickBy(o, isDefined)] *)
Definition pickDefined (fs : Fields) : Fields :=
  filter (fun kv => isDefined (snd kv)) fs.

(* ------------------------------------------------------------------ *)
(** *** Exceptions *)

Inductive Error : Type :=
| TypeError (msg : string)
| JsError (msg : string)
| ClientError (msg : string).

Definition Result (A : Type) : Type := (Error + A)%type.

Definition ok {A} (a : A) : Result A := inr a.
Definition throw {A} (e : Error) : Result A := inl e.

Definition bind {A B} (r : Result A) (k : A -> Result B) : Result B :=
  match r with
  | inl e => inl e
  | inr a => k a
  end.

Notation "x <- r ;; k" := (bind r (fun x => k))
  (at level 100, r at next level, right associativity).

Fixpoint mapM {A B} (f : A -> Result B) (l : list A) : Result (list B) :=
  match l with
  | [] => ok []
  | a :: rest => b <- f a ;; bs <- mapM f rest ;; ok (b :: bs)
  end.

(** [v.k]: reading a property of [undefined] or [null] throws. *)
Definition prop (v : Value) (k : string) : Result Value :=
  if isNullish v
  then throw (TypeError ("Cannot read properties of undefined (reading '" ++ k ++ "')"))
  else ok (get v k).

(** The receiver of an array method ([map], [filter], [flatMap],
    [forEach]) must be an array. *)
Definition asArray (v : Value) (method : string) : Result (list Value) :=
  match v with
  | VArr l => ok l
  | _ => throw (TypeError (method ++ " is not a function"))
  end.

(* ------------------------------------------------------------------ *)
(** *** String conversion *)

Definition Z_to_string (z : Z) : string :=
  NilZero.string_of_int (Z.to_int z).

Fixpoint join (sep : string) (l : list string) : string :=
  match l with
  | [] => ""
  | [s] => s
  | s :: rest => s ++ sep ++ join sep rest
  end.

(** [String(v)], which is also what a template literal and a computed
    property key apply to [v]. *)
Fixpoint toString (v : Value) : string :=
  match v with
  | VUndef => "undefined"
  | VNull => "null"
  | VBool true => "true"
  | VBool false => "false"
  | VNum z => Z_to_string z
  | VStr s => s
  | VArr l =>
      join "," ((fix each (xs : list Value) : list string :=
                   match xs with
                   | [] => []
                   | x :: rest =>
                       (if isNullish x then "" else toString x) :: each rest
                   end) l)
  | VObj _ => "[object Object]"
  end.

(** [v?.toString()] *)
Definition optToString (v : Value) : Value :=
  if isNullish v then VUndef else VStr (toString v).

(* ================================================================== *)
(** ** Shape validation (Joi schemas) *)

Inductive Presence := Optional | Required.

(** The part of Joi's schema language the two files use.  [unknown]
    is the flag set by [.unknown(true)]. *)
Inductive Schema : Type :=
| Joi_any (p : Presence)
| Joi_number (p : Presence)
| Joi_string (p : Presence)
| Joi_array (item : Schema) (p : Presence)
| Joi_object (keys : list (string * Schema)) (unknown : bool) (p : Presence).

Definition presence (s : Schema) : Presence :=
  match s with
  | Joi_any p | Joi_number p | Joi_string p
  | Joi_array _ p | Joi_object _ _ p => p
  end.

Definition isRequired (s : Schema) : bool :=
  match presence s with Required => true | Optional => false end.

Definition MAX_SAFE_INTEGER : Z := 9007199254740991.

Section NumberConversion.
(** Validation runs with Joi's default [convert: true], under which
    [Joi.number()] takes a string for the number it spells.
    [numericString s] is Joi's verdict on the string [s]: whether
    [Joi.number().validate(s)] reports no error, that is, whether [s]
    is numeric text of a number [Joi.number()] accepts.  Which strings
    these are is Joi's business and is left open; everything below
    holds whatever they are. *)
Variable numericString : string -> bool.

(** [validates s v] holds when [s.validate(v)] reports no error.  A
    key whose value is [undefined] counts as absent; [Joi.number()]
    refuses unsafe integers and takes the strings it can convert,
    [Joi.string()] refuses the empty string, and an array may hold no
    [undefined] item. *)
Fixpoint validates (s : Schema) (v : Value) {struct s} : bool :=
  if isUndefined v then negb (isRequired s)
  else
    match s with
    | Joi_any _ => true
    | Joi_number _ =>
        match v with
        | VNum z => (Z.abs z <=? MAX_SAFE_INTEGER)%Z
        | VStr s => numericString s
        | _ => false
        end
    | Joi_string _ =>
        match v with
        | VStr s => negb (String.eqb s "")
        | _ => false
        end
    | Joi_array item _ =>
        match v with
        | VArr l => forallb (fun x => isDefined x && validates item x) l
        | _ => false
        end
    | Joi_object keys unknown _ =>
        match v with
        | VObj fs =>
            (fix each (ks : list (string * Schema)) : bool :=
               match ks with
               | [] => true
               | (k, sk) :: rest => validates sk (get v k) && each rest
               end) keys
            && (unknown ||
                forallb (fun kv => isUndefined (snd kv) ||
                                   existsb (fun ks => String.eqb (fst kv) (fst ks)) keys) fs)
        | _ => false
        end
    end.

Definition NOTIFICATION_SCHEME : Schema :=
  Joi_object
    [("notificationSchemeEvents",
       Joi_array
         (Joi_object
            [("event",
               Joi_object [("id", Joi_number Required)] true Required);
             ("notifications",
               Joi_array
                 (Joi_object [("notificationType", Joi_string Required)]
                    true Optional)
                 Optional)]
            true Optional)
         Optional)]
    true Required.

Definition isNotificationScheme (value : Value) : bool :=
  validates NOTIFICATION_SCHEME value.

(** Modelled from the spec: [isPageResponse] of
    [filters/automation/automation_fetch.ts], of which only the import
    is at hand.  The read-back response "must contain a [values] array";
    its first element is what the shape validator is then applied to. *)
Definition PAGE_RESPONSE : Schema :=
  Joi_object [("values", Joi_array (Joi_any Optional) Required)] true Required.

Definition isPageResponse (value : Value) : bool :=
  validates PAGE_RESPONSE value.

(* ================================================================== *)
(** ** Elements and changes *)

(** The element id of a type: [adapter.typeName]. *)
Record ElemID : Type := mkElemID {
  adapter : string;
  typeName : string
}.

Definition typeFullName (e : ElemID) : string :=
  adapter e ++ "." ++ typeName e.

Inductive TypeElement : Type :=
| ObjectType (elemID : ElemID)
| PrimitiveType (elemID : ElemID).

Record InstanceElement : Type := mkInstance {
  elemName : string;
  refType : ElemID;
  value : Fields
}.

(** [instance.elemID.getFullName()] *)
Definition getFullName (i : InstanceElement) : string :=
  typeFullName (refType i) ++ ".instance." ++ elemName i.

Inductive Change (A : Type) : Type :=
| Addition (after : A)
| Removal (before : A)
| Modification (before after : A).
#[global] Arguments Addition {A} after.
#[global] Arguments Removal {A} before.
#[global] Arguments Modification {A} before after.

Definition getChangeData {A} (c : Change A) : A :=
  match c with
  | Addition a => a
  | Removal b => b
  | Modification _ a => a
  end.

Definition isAdditionChange {A} (c : Change A) : bool :=
  match c with Addition _ => true | _ => false end.
Definition isRemovalChange {A} (c : Change A) : bool :=
  match c with Removal _ => true | _ => false end.
Definition isModificationChange {A} (c : Change A) : bool :=
  match c with Modification _ _ => true | _ => false end.
Definition isAdditionOrRemovalChange {A} (c : Change A) : bool :=
  isAdditionChange c || isRemovalChange c.
Definition isRemovalOrModificationChange {A} (c : Change A) : bool :=
  isRemovalChange c || isModificationChange c.

(* ================================================================== *)
(** ** Event projection and identity key *)

Record EventValues : Type := mkEvent {
  eventType : Value;
  type : Value;
  parameter : Value;
  id : Value
}.

Definition EVENT_TYPES : list (string * string) :=
  [("GroupCustomFieldll", "Group_Custom_Field_Value")].

(** [EVENT_TYPES[t] ?? t] *)
Definition mappedType (t : Value) : Value :=
  match lookup (toString t) EVENT_TYPES with
  | Some s => VStr s
  | None => t
  end.

Definition getEventKey (event : EventValues) : string :=
  toString (eventType event) ++ "-" ++ toString (type event)
    ++ "-" ++ toString (parameter event).

(** What [flatMap] does with the value its callback returns: an array
    is spliced in, anything else becomes one element. *)
Definition flatten1 (v : Value) : list Value :=
  match v with
  | VArr l => l
  | x => [x]
  end.

Definition getEventsValues (instanceValues : Fields) : Result (list EventValues) :=
  events <- asArray (nullish_or (get (VObj instanceValues) "notificationSchemeEvents") (VArr []))
              "flatMap" ;;
  per_event <- mapM (fun event =>
      notifications <- prop event "notifications" ;;
      ns <- asArray (nullish_or notifications (VArr [])) "map" ;;
      mapM (fun notification =>
          t <- prop notification "type" ;;
          ok {| eventType := get event "eventType";
                type := t;
                parameter := get notification "parameter";
                id := get notification "id" |}) ns) events ;;
  ok (List.concat per_event).

(** The argument [getEventInstances] hands to [convertValuesToJSPBody]:
    [{ ...event, name, id }]. *)
Definition spreadEvent (event : EventValues) (name id' : Value) : Fields :=
  [("eventType", eventType event); ("type", type event);
   ("parameter", parameter event); ("id", id'); ("name", name)].

Definition convertValuesToJSPBody (values : Fields) (instance : InstanceElement)
  : Result Fields :=
  let v := VObj values in
  let type := mappedType (get v "type") in
  events <- asArray (get (VObj (value instance)) "notificationSchemeEvents") "filter" ;;
  matching <- mapM (fun event =>
      et <- prop event "eventType" ;;
      ok (strict_eq et (get v "eventType"), event)) events ;;
  let notifications :=
    flat_map (fun event => flatten1 (get event "notifications"))
      (map snd (filter fst matching)) in
  ok (pickDefined
        (assign (toString type) (optToString (get v "parameter"))
           [("event", VObj [("id", get v "eventType")]);
            ("notifications", VArr notifications);
            ("id", get v "id");
            ("schemeId", get (VObj (value instance)) "id");
            ("name", get v "name");
            ("eventTypeIds", get v "eventType");
            ("type", type)])).

(** [o?.[k]] *)
Definition optGet (o : Value) (k : string) : Value :=
  if isNullish o then VUndef else get o k.

Definition getEventInstances (instance : InstanceElement) (eventType : ElemID)
  : Result (list InstanceElement) :=
  events <- getEventsValues (value instance) ;;
  mapM (fun event =>
      body <- convertValuesToJSPBody
                (spreadEvent event (VStr (getEventKey event))
                   (optGet (get (VObj (value instance)) "notificationIds")
                      (getEventKey event)))
                instance ;;
      ok (mkInstance (getEventKey event) eventType body)) events.

(** [getEventType]; [innerType] is what the type-discovery calls
    ([getType], [getDeepInnerType]) answer for the events field. *)
Definition getEventType (innerType : TypeElement) : Result ElemID :=
  match innerType with
  | ObjectType elemID => ok elemID
  | PrimitiveType _ => throw (JsError "Expected event type to be an object type")
  end.

(** [change.data.after] *)
Definition data_after (change : Change InstanceElement) : Result InstanceElement :=
  match change with
  | Addition a | Modification _ a => ok a
  | Removal _ => throw (TypeError "Cannot read properties of undefined (reading 'value')")
  end.

(** The two key-to-entry mappings of the diff and what is read off
    them. *)
Definition newEventsOf (eventInstancesBefore eventInstancesAfter
                          : list (string * InstanceElement)) : list InstanceElement :=
  filter (fun instance => negb (hasField (getFullName instance) eventInstancesBefore))
    (Object_values eventInstancesAfter).

Definition removedEventsOf (eventInstancesBefore eventInstancesAfter
                              : list (string * InstanceElement)) : list InstanceElement :=
  filter (fun instance => negb (hasField (getFullName instance) eventInstancesAfter))
    (Object_values eventInstancesBefore).

Definition getEventChanges (change : Change InstanceElement) (innerType : TypeElement)
  : Result (list (Change InstanceElement)) :=
  eventType <- getEventType innerType ;;
  before <- (match change with
             | Modification b _ => getEventInstances b eventType
             | _ => ok []
             end) ;;
  let eventInstancesBefore := keyBy getFullName before in
  a <- data_after change ;;
  after <- getEventInstances a eventType ;;
  let eventInstancesAfter := keyBy getFullName after in
  let newEvents := newEventsOf eventInstancesBefore eventInstancesAfter in
  let removedEvents := removedEventsOf eventInstancesBefore eventInstancesAfter in
  ok (map Removal removedEvents ++ map Addition newEvents).

(* ================================================================== *)
(** ** The apply loop *)

Inductive Request : Type :=
| Delete (url : string)
| Put (url : string) (data : Value)
| GetSinglePage (url : string) (queryParams : Value).

(** The remote service seen through [JiraClient]: the outcome of a
    call (a rejection, or the [data] of the response) may depend on the
    calls issued before it. *)
Record JiraClient : Type := mkClient {
  isDataCenter : bool;
  respond : list Request -> Request -> Result Value
}.

(** What the loop reads and writes: [instance.value] of the deployed
    scheme and the calls issued so far, oldest first. *)
Record DeployState : Type := mkState {
  instanceValue : Fields;
  calls : list Request
}.

(** One callback of [eventChanges.map(async eventChange => ...)]:
    settled, or suspended at one of its three [await]s with the
    outcome the awaited call will have. *)
Inductive Task : Type :=
| Settled (outcome : Result unit)
| AwaitDelete (eventInstance : InstanceElement) (response : Result Value)
| AwaitPut (eventInstance : InstanceElement) (response : Result Value)
| AwaitGetSinglePage (eventInstance : InstanceElement) (response : Result Value).

Definition deleteUrl (notificationSchemeId notificationId : Value) : string :=
  "/rest/api/3/notificationscheme/" ++ toString notificationSchemeId
    ++ "/notification/" ++ toString notificationId.

Definition putUrl (notificationSchemeId : Value) : string :=
  "/rest/api/3/notificationscheme/" ++ toString notificationSchemeId
    ++ "/notification".

Definition readBackRequest (notificationSchemeId : Value) : Request :=
  GetSinglePage "/rest/api/3/notificationscheme"
    (VObj [("id", notificationSchemeId);
           ("expand", VStr "notificationSchemeEvents")]).

(** [eventInstance.value.name] used as a property key. *)
Definition entryName (eventInstance : InstanceElement) : string :=
  toString (get (VObj (value eventInstance)) "name").

(** The [data] of the create call. *)
Definition putData (eventInstance : InstanceElement) : Result Value :=
  let v := VObj (value eventInstance) in
  ns <- asArray (get v "notifications") "map" ;;
  notifications <- mapM (fun notification =>
      nt <- prop notification "notificationType" ;;
      ok (VObj (pickDefined
                  [("notificationType", mappedType nt);
                   ("parameter", get notification "parameter")]))) ns ;;
  ok (VObj [("notificationSchemeEvents",
              VArr [VObj [("event", VObj [("id", get v "eventTypeIds")]);
                          ("notifications", VArr notifications)]])]).

(** [values[0]] *)
Definition firstOf (values : Value) : Value :=
  match values with
  | VArr (x :: _) => x
  | _ => VUndef
  end.

(** The notifications of a validated read-back scheme that the loop
    takes to be the entry's: filtered by event id and by
    [notificationType]. *)
Definition readBackMatches (eventInstance : InstanceElement) (scheme : Value)
  : Result (list Value) :=
  let v := VObj (value eventInstance) in
  events <- asArray (get scheme "notificationSchemeEvents") "filter" ;;
  flagged <- mapM (fun event =>
      e <- prop event "event" ;;
      ok (strict_eq (optGet e "id") (get v "eventTypeIds"), event)) events ;;
  let notifications :=
    flat_map (fun event => flatten1 (get event "notifications"))
      (map snd (filter fst flagged)) in
  chosen <- mapM (fun notification =>
      nt <- prop notification "notificationType" ;;
      ok (strict_eq nt (get v "type"), notification)) notifications ;;
  ok (map snd (filter fst chosen)).

(** [notificationEvent[0].id] *)
Definition readBackId (eventInstance : InstanceElement) (scheme : Value)
  : Result Value :=
  notificationEvent <- readBackMatches eventInstance scheme ;;
  prop (nth 0 notificationEvent VUndef) "id".

(** [o[k] = v] and [delete o[k]] on the identifier map held in
    [instance.value.notificationIds].  Assigning to a property of
    [undefined], [null] or (the module being in strict mode) of a
    primitive throws; an array, whose named properties the value model
    does not hold, is treated like a primitive. *)
Definition assignIn (o : Value) (k : string) (v : Value) : Result Value :=
  match o with
  | VObj fs => ok (VObj (assign k v fs))
  | _ => throw (TypeError ("Cannot set properties (setting '" ++ k ++ "')"))
  end.

Definition deleteIn (o : Value) (k : string) : Result Value :=
  match o with
  | VObj fs => ok (VObj (remove k fs))
  | VUndef | VNull =>
      throw (TypeError "Cannot convert undefined or null to object")
  | _ => ok o
  end.

Definition notificationIdsOf (st : DeployState) : Value :=
  get (VObj (instanceValue st)) "notificationIds".

Definition setNotificationIds (ids : Value) (st : DeployState) : DeployState :=
  mkState (assign "notificationIds" ids (instanceValue st)) (calls st).

Section ApplyLoop.
Variable client : JiraClient.

Definition issue (req : Request) (st : DeployState) : DeployState * Result Value :=
  (mkState (instanceValue st) (calls st ++ [req]), respond client (calls st) req).

(** A callback from its call up to its first [await]. *)
Definition start (eventChange : Change InstanceElement) (st : DeployState)
  : DeployState * Task :=
  let eventInstance := getChangeData eventChange in
  let notificationSchemeId := get (VObj (value eventInstance)) "schemeId" in
  match eventChange with
  | Removal _ =>
      match prop (notificationIdsOf st) (entryName eventInstance) with
      | inl e => (st, Settled (inl e))
      | inr notificationId =>
          let (st', response) :=
            issue (Delete (deleteUrl notificationSchemeId notificationId)) st in
          (st', AwaitDelete eventInstance response)
      end
  | Addition _ =>
      let st1 := if isUndefined (notificationIdsOf st)
                 then setNotificationIds (VObj []) st else st in
      match putData eventInstance with
      | inl e => (st1, Settled (inl e))
      | inr data =>
          let (st', response) := issue (Put (putUrl notificationSchemeId) data) st1 in
          (st', AwaitPut eventInstance response)
      end
  | Modification _ _ => (st, Settled (ok tt))
  end.

(** A suspended callback from the settling of the call it awaits up
    to its next [await] or its end. *)
Definition resume (t : Task) (st : DeployState) : DeployState * Task :=
  match t with
  | Settled _ => (st, t)
  | AwaitDelete eventInstance response =>
      match response with
      | inl e => (st, Settled (inl e))
      | inr _ =>
          match deleteIn (notificationIdsOf st) (entryName eventInstance) with
          | inl e => (st, Settled (inl e))
          | inr ids => (setNotificationIds ids st, Settled (ok tt))
          end
      end
  | AwaitPut eventInstance response =>
      match response with
      | inl e => (st, Settled (inl e))
      | inr _ =>
          let (st', response') :=
            issue (readBackRequest (get (VObj (value eventInstance)) "schemeId")) st in
          (st', AwaitGetSinglePage eventInstance response')
      end
  | AwaitGetSinglePage eventInstance response =>
      match response with
      | inl e => (st, Settled (inl e))
      | inr data =>
          if isPageResponse data && isNotificationScheme (firstOf (get data "values"))
          then
            match (i <- readBackId eventInstance (firstOf (get data "values")) ;;
                   assignIn (notificationIdsOf st) (entryName eventInstance) i) with
            | inl e => (st, Settled (inl e))
            | inr ids => (setNotificationIds ids st, Settled (ok tt))
            end
          else (st, Settled (ok tt))
      end
  end.

(** The callbacks take their turns in the order of the list. *)
Fixpoint turns {A} (f : A -> DeployState -> DeployState * Task)
  (l : list A) (st : DeployState) : DeployState * list Task :=
  match l with
  | [] => (st, [])
  | a :: rest =>
      let (st1, t) := f a st in
      let (st2, ts) := turns f rest st1 in
      (st2, t :: ts)
  end.

Fixpoint firstRejection (ts : list Task) : option Error :=
  match ts with
  | [] => None
  | Settled (inl e) :: _ => Some e
  | _ :: rest => firstRejection rest
  end.

(** [Promise.all]: rejected with the first rejection to arrive, the
    rounds being given oldest first. *)
Fixpoint Promise_all (rounds : list (list Task)) : Result unit :=
  match rounds with
  | [] => ok tt
  | ts :: later =>
      match firstRejection ts with
      | Some e => throw e
      | None => Promise_all later
      end
  end.

(** The callbacks of a round resumed in list order up to the first
    that rejects.  [Promise.all] rejects with that rejection at once:
    the callbacks after it are resumed only later, when the calls they
    await settle, and [await Promise.all] does not wait for them. *)
Fixpoint untilRejection (ts : list Task) (st : DeployState) : DeployState :=
  match ts with
  | [] => st
  | t :: rest =>
      let (st1, t') := resume t st in
      match t' with
      | Settled (inl _) => st1
      | _ => untilRejection rest st1
      end
  end.

(** [await Promise.all(eventChanges.map(async eventChange => ...))].
    [map] runs every callback up to its first [await]; the awaited
    calls then settle in the order they were issued, so the callbacks
    are resumed in list order, twice (no callback awaits more than two
    calls in a row).  The state returned is the one in which the
    [await] ends: with a rejection among the synchronous parts, the
    state [map] leaves; with the first rejection in a later round, the
    state reached when that callback rejects; with no rejection, the
    state in which the last callback settles. *)
Definition awaitCallbacks (eventChanges : list (Change InstanceElement))
  (st : DeployState) : DeployState * Result unit :=
  let (st0, round0) := turns start eventChanges st in
  let (st1, round1) := turns resume round0 st0 in
  let (st2, round2) := turns resume round1 st1 in
  (match firstRejection round0 with
   | Some _ => st0
   | None =>
       match firstRejection round1 with
       | Some _ => untilRejection round0 st0
       | None => untilRejection round1 st1
       end
   end,
   Promise_all [round0; round1; round2]).

(** [deployEvents(change, client)].  [resolveChangeElement] is the
    identity on values that hold no reference expression, which is
    all this value model has. *)
Definition deployEvents (change : Change InstanceElement) (innerType : TypeElement)
  : DeployState * Result unit :=
  let instance := getChangeData change in
  let st := mkState (value instance) [] in
  match getEventChanges change innerType with
  | inl e => (st, inl e)
  | inr eventChanges => awaitCallbacks eventChanges st
  end.

(** The instance and the calls once every callback has run to its
    end.  A rejection of [Promise.all] stops no callback: one that is
    suspended at an [await] goes on when the awaited call settles,
    whether or not [deployEvents] has rejected by then. *)
Definition afterCallbacks (change : Change InstanceElement) (innerType : TypeElement)
  : DeployState :=
  let instance := getChangeData change in
  let st := mkState (value instance) [] in
  match getEventChanges change innerType with
  | inl _ => st
  | inr eventChanges =>
      let (st0, round0) := turns start eventChanges st in
      let (st1, round1) := turns resume round0 st0 in
      fst (turns resume round1 st1)
  end.
End ApplyLoop.

(* ================================================================== *)
(** ** The deployment filter *)

Definition NOTIFICATION_SCHEME_EVENT : Schema :=
  Joi_object [("eventType", Joi_any Optional)] true Optional.

Definition isNotificationSchemeEvent (value : Value) : bool :=
  validates NOTIFICATION_SCHEME_EVENT value.

(** A change of the batch: of an instance, or of some other element. *)
Inductive AnyChange : Type :=
| InstanceChange (c : Change InstanceElement)
| OtherChange (c : Change TypeElement).

Record DeployResult : Type := mkDeployResult {
  appliedChanges : list AnyChange;
  errors : list Error
}.

Record FilterResult : Type := mkFilterResult {
  leftoverChanges : list AnyChange;
  deployResult : DeployResult
}.

(** The instance a change carries ([getChangeData]) with [f] applied
    to its value in place. *)
Definition onChangeData (f : Fields -> Fields) (c : Change InstanceElement)
  : Change InstanceElement :=
  let upd i := mkInstance (elemName i) (refType i) (f (value i)) in
  match c with
  | Addition a => Addition (upd a)
  | Removal b => Removal (upd b)
  | Modification b a => Modification b (upd a)
  end.

(** [notifications.forEach(notification => { if (notification.type !==
    undefined) notification.notificationType = notification.type })];
    a nullish notification throws and ends the iteration. *)
Fixpoint markNotifications (ns : list Value) : list Value :=
  match ns with
  | [] => []
  | n :: rest =>
      if isNullish n then n :: rest
      else
        match n with
        | VObj fs =>
            (if isDefined (get n "type")
             then VObj (assign "notificationType" (get n "type") fs)
             else n) :: markNotifications rest
        | _ => n :: markNotifications rest
        end
  end.

(** [notifications.forEach(notification => { delete
    notification.notificationType })]; the flag tells whether the
    iteration ran to its end. *)
Fixpoint unmarkNotifications (ns : list Value) : list Value * bool :=
  match ns with
  | [] => ([], true)
  | n :: rest =>
      if isNullish n then (n :: rest, false)
      else
        let (rest', completed) := unmarkNotifications rest in
        (match n with
         | VObj fs => VObj (remove "notificationType" fs)
         | _ => n
         end :: rest', completed)
  end.

(** The body of [preDeploy]'s inner callback on one event.  The
    callback is [async]: what it throws rejects a promise nobody
    awaits, and the event stays as it was when the throw happened. *)
Definition preDeployEvent (event : Value) : Value :=
  match event with
  | VObj fs =>
      if isDefined (get event "eventType") then
        let fs1 := assign "event" (get event "eventType") fs in
        match get (VObj fs1) "notifications" with
        | VArr ns => VObj (assign "notifications" (VArr (markNotifications ns)) fs1)
        | _ => VObj fs1
        end
      else event
  | _ => event
  end.

Definition onDeployEvent (event : Value) : Value :=
  match event with
  | VObj fs =>
      match get event "notifications" with
      | VArr ns =>
          let (ns', completed) := unmarkNotifications ns in
          let fs1 := assign "notifications" (VArr ns') fs in
          if completed then VObj (remove "event" fs1) else VObj fs1
      | VUndef | VNull => VObj (remove "event" fs)
      | _ => event
      end
  | _ => event
  end.

(** [notificationSchemeEvents.filter(isNotificationSchemeEvent)
    .forEach(f)] on the events of an instance value. *)
Definition forEachSchemeEvent (f : Value -> Value) (v : Fields) : Result Fields :=
  let notificationSchemeEvents := get (VObj v) "notificationSchemeEvents" in
  if isUndefined notificationSchemeEvents then ok v
  else
    events <- (if isNullish notificationSchemeEvents
               then throw (TypeError "Cannot read properties of null (reading 'filter')")
               else asArray notificationSchemeEvents "filter") ;;
    ok (assign "notificationSchemeEvents"
          (VArr (map (fun event => if isNotificationSchemeEvent event
                                   then f event else event) events)) v).

Section Filter.
(** [client], and what the filter takes from outside this file: the
    two type names of [constants.ts], JavaScript's [Number], the
    generic single-change deployment of [standard_deployment.ts] and
    the type discovery of the events field. *)
Variable client : JiraClient.
Variable NOTIFICATION_SCHEME_TYPE_NAME : string.
Variable NOTIFICATION_EVENT_TYPE_NAME : string.
Variable Number : Value -> Value.
Variable defaultDeployChange :
  Change InstanceElement -> list string -> Result (Change InstanceElement).
Variable eventsInnerType : InstanceElement -> TypeElement.

(** [isInstanceChange(change) && getChangeData(change).elemID.typeName
    === NOTIFICATION_SCHEME_TYPE_NAME] *)
Definition isSchemeChange (change : AnyChange) : bool :=
  match change with
  | InstanceChange c =>
      String.eqb (typeName (refType (getChangeData c))) NOTIFICATION_SCHEME_TYPE_NAME
  | OtherChange _ => false
  end.

Definition preDeployValue (isRemovalOrModification : bool) (v : Fields)
  : Result Fields :=
  v1 <- forEachSchemeEvent preDeployEvent v ;;
  ok (if isRemovalOrModification
      then assign "schemeId" (get (VObj v1) "id") v1
      else v1).

Definition onDeployValue (isRemovalOrModification : bool) (v : Fields)
  : Result Fields :=
  let v0 := assign "id" (Number (get (VObj v) "id")) v in
  v1 <- forEachSchemeEvent onDeployEvent v0 ;;
  ok (if isRemovalOrModification then remove "schemeId" v1 else v1).

(** The outer [forEach] of [preDeploy] and [onDeploy]: [f] on the
    value of every scheme instance of the batch, the first throw
    ending the call. *)
Definition onSchemeChanges (f : bool -> Fields -> Result Fields)
  (changes : list AnyChange) : Result (list AnyChange) :=
  mapM (fun change =>
      match change with
      | InstanceChange c =>
          if isSchemeChange change then
            v <- f (isRemovalOrModificationChange c) (value (getChangeData c)) ;;
            ok (InstanceChange (onChangeData (fun _ => v) c))
          else ok change
      | OtherChange _ => ok change
      end) changes.

(** [preDeploy] and [onDeploy] return nothing and work by mutation;
    the model returns the batch as the call leaves it. *)
Definition preDeploy (changes : list AnyChange) : Result (list AnyChange) :=
  if isDataCenter client then ok changes
  else onSchemeChanges preDeployValue changes.

Definition onDeploy (changes : list AnyChange) : Result (list AnyChange) :=
  if isDataCenter client then ok changes
  else onSchemeChanges onDeployValue changes.

(** Modelled from the spec: [deployChanges] of
    [deployment/standard_deployment.ts], of which only the import is
    at hand: "run this operation per item, collecting per-item
    success/failure into a combined result".  The operation works on
    the calls issued so far and leaves the change as it mutated it. *)
Fixpoint deployChanges
  (op : Change InstanceElement -> list Request
        -> Change InstanceElement * list Request * Result unit)
  (changes : list (Change InstanceElement)) (issued : list Request)
  : list (Change InstanceElement * Result unit) * list Request :=
  match changes with
  | [] => ([], issued)
  | c :: rest =>
      let '(c', issued1, r) := op c issued in
      let (rs, issued2) := deployChanges op rest issued1 in
      ((c', r) :: rs, issued2)
  end.

Definition appliedOf (rs : list (Change InstanceElement * Result unit))
  : list (Change InstanceElement) :=
  flat_map (fun cr => match snd cr with inr _ => [fst cr] | inl _ => [] end) rs.

Definition errorsOf (rs : list (Change InstanceElement * Result unit))
  : list Error :=
  flat_map (fun cr => match snd cr with inr _ => [] | inl e => [e] end) rs.

Definition instanceChanges (changes : list AnyChange)
  : list (Change InstanceElement) :=
  flat_map (fun change => match change with
                          | InstanceChange c => [c]
                          | OtherChange _ => []
                          end) changes.

(** The first operation of [deploy]: the generic deployment of one
    scheme change. *)
Definition deployScheme (change : Change InstanceElement) (issued : list Request)
  : Change InstanceElement * list Request * Result unit :=
  match defaultDeployChange change
          (if isAdditionOrRemovalChange change then []
           else [NOTIFICATION_EVENT_TYPE_NAME]) with
  | inl e => (change, issued, inl e)
  | inr change' => (change', issued, ok tt)
  end.

(** The second operation: [deployEvents] on one applied modification,
    the remote service having seen [issued] already.  The change is
    taken as the loop leaves it when it settles. *)
Definition deploySchemeEvents (change : Change InstanceElement) (issued : list Request)
  : Change InstanceElement * list Request * Result unit :=
  let later := mkClient (isDataCenter client)
                 (fun history => respond client (issued ++ history)) in
  let (st, r) := deployEvents later change (eventsInnerType (getChangeData change)) in
  (onChangeData (fun _ => instanceValue st) change, issued ++ calls st, r).

(** The applied changes of the first operation as the second leaves
    them: a modification carries the instance [deployEvents] worked
    on. *)
Fixpoint withMutations (applied : list (Change InstanceElement))
  (events : list (Change InstanceElement * Result unit))
  : list (Change InstanceElement) :=
  match applied with
  | [] => []
  | c :: rest =>
      if isModificationChange c then
        match events with
        | (c', _) :: later => c' :: withMutations rest later
        | [] => c :: rest
        end
      else c :: withMutations rest events
  end.

(** [deploy]; the calls of the event protocol are returned with the
    result. *)
Definition deploy (changes : list AnyChange) : FilterResult * list Request :=
  if isDataCenter client then
    (mkFilterResult changes (mkDeployResult [] []), [])
  else
    let (relevantChanges, leftoverChanges) := partition isSchemeChange changes in
    let (schemes, issued0) :=
      deployChanges deployScheme (instanceChanges relevantChanges) [] in
    let (events, issued1) :=
      deployChanges deploySchemeEvents
        (filter isModificationChange (appliedOf schemes)) issued0 in
    (mkFilterResult leftoverChanges
       (mkDeployResult
          (map InstanceChange
             (withMutations (appliedOf schemes) events ++ appliedOf events))
          (errorsOf schemes ++ errorsOf events)),
     issued1).
End Filter.

(** [transformNotificationEvent] and [transformAllNotificationEvents]:
    the one caller of the validator that refuses to go on. *)
Definition transformNotification (notification : Value) : Result Value :=
  match notification with
  | VObj fs =>
      ok (VObj (remove "user"
                  (remove "additionalProperties"
                     (remove "notificationType"
                        (assign "type" (get notification "notificationType") fs)))))
  | _ => throw (TypeError "Cannot set properties (setting 'type')")
  end.

Definition transformNotificationEvent (notificationEvent : Value) : Result Value :=
  match notificationEvent with
  | VObj fs =>
      let fs1 := remove "event"
                   (assign "eventType"
                      (optGet (get notificationEvent "event") "id") fs) in
      let notifications := get (VObj fs1) "notifications" in
      if isNullish notifications then ok (VObj fs1)
      else
        ns <- asArray notifications "forEach" ;;
        ns' <- mapM transformNotification ns ;;
        ok (VObj (assign "notifications" (VArr ns') fs1))
  | _ => throw (TypeError "Cannot set properties (setting 'eventType')")
  end.

Definition transformAllNotificationEvents (notificationSchemeValues : Value)
  : Result Value :=
  if negb (isNotificationScheme notificationSchemeValues)
  then throw (JsError "Received an invalid notification scheme")
  else
    match notificationSchemeValues with
    | VObj fs =>
        let events := get notificationSchemeValues "notificationSchemeEvents" in
        if isNullish events then ok notificationSchemeValues
        else
          es <- asArray events "forEach" ;;
          es' <- mapM transformNotificationEvent es ;;
          ok (VObj (assign "notificationSchemeEvents" (VArr es') fs))
    | _ => ok notificationSchemeValues
    end.

(* ================================================================== *)
(** ** Sample data *)

Definition ex_eventType : TypeElement :=
  ObjectType (mkElemID "jira" "NotificationSchemeEvent").

Definition ex_schemeType : ElemID := mkElemID "jira" "NotificationScheme".

(** A notification as [preDeploy] leaves it: [type] mirrored into
    [notificationType]. *)
Definition ex_notification (t : string) (p : Value) : Value :=
  VObj [("type", VStr t); ("parameter", p); ("notificationType", VStr t)].

Definition ex_event (e : Value) (ns : list Value) : Value :=
  VObj [("eventType", e); ("notifications", VArr ns)].

(** Three bindings over two event types, no identifier map yet. *)
Definition ex_scheme3 : InstanceElement :=
  mkInstance "scheme" ex_schemeType
    [("id", VNum 7);
     ("notificationSchemeEvents",
       VArr [ex_event (VNum 1)
               [ex_notification "User" (VStr "a"); ex_notification "Group" VUndef];
             ex_event (VNum 2) [ex_notification "User" (VStr "b")]])].

(** Two events whose type is the number 1 and the string of its digit:
    two different entries with one identity key. *)
Definition ex_schemeCollision : InstanceElement :=
  mkInstance "scheme" ex_schemeType
    [("id", VNum 7);
     ("notificationSchemeEvents",
       VArr [ex_event (VNum 1) [ex_notification "User" VUndef];
             ex_event (VStr "1") [ex_notification "User" VUndef]])].

(** One event type, one channel type, two parameters. *)
Definition ex_schemeTwoAddresses : InstanceElement :=
  mkInstance "scheme" ex_schemeType
    [("id", VNum 7);
     ("notificationSchemeEvents",
       VArr [ex_event (VNum 1)
               [ex_notification "EmailAddress" (VStr "a@x.io");
                ex_notification "EmailAddress" (VStr "b@x.io")]])].

(** The remote scheme after both addresses were created. *)
Definition ex_remoteTwoAddresses : Value :=
  VObj [("values",
          VArr [VObj [("notificationSchemeEvents",
                        VArr [VObj [("event", VObj [("id", VNum 1)]);
                                    ("notifications",
                                      VArr [VObj [("id", VNum 101);
                                                  ("notificationType", VStr "EmailAddress");
                                                  ("parameter", VStr "a@x.io")];
                                            VObj [("id", VNum 102);
                                                  ("notificationType", VStr "EmailAddress");
                                                  ("parameter", VStr "b@x.io")]])]])]])].

(** A client every call of which succeeds, the read-back answering
    [page]. *)
Definition ex_client (page : Value) : JiraClient :=
  mkClient false (fun _ req => match req with
                               | GetSinglePage _ _ => inr page
                               | _ => inr VUndef
                               end).

(** A scheme in declarative shape whose id is still a string, and a
    stand-in for [Number] on it. *)
Definition ex_declared : InstanceElement :=
  mkInstance "scheme" ex_schemeType
    [("id", VStr "7"); ("name", VStr "Default");
     ("notificationSchemeEvents",
       VArr [VObj [("eventType", VNum 1);
                   ("notifications",
                     VArr [VObj [("type", VStr "User"); ("parameter", VStr "a")]])]])].

Definition ex_Number (v : Value) : Value :=
  match v with
  | VStr "7" => VNum 7
  | _ => v
  end.

(** A stand-in for the conversion of [Joi.number()] on the strings of
    the samples: the decimal spellings of the safe integers. *)
Definition ex_numericString (s : string) : bool :=
  match NilZero.uint_of_string s with
  | Some d => (Z.of_uint d <=? MAX_SAFE_INTEGER)%Z
  | None => false
  end.

(** A modification: the [Group] binding of event 1 goes, a binding of
    event 3 comes. *)
Definition ex_schemeAfter : InstanceElement :=
  mkInstance "scheme" ex_schemeType
    [("id", VNum 7);
     ("notificationSchemeEvents",
       VArr [ex_event (VNum 1) [ex_notification "User" (VStr "a")];
             ex_event (VNum 2) [ex_notification "User" (VStr "b")];
             ex_event (VNum 3) [ex_notification "Group" (VStr "g")]])].

Definition ex_entries (instance : InstanceElement) : list InstanceElement :=
  match getEventInstances instance (mkElemID "jira" "NotificationSchemeEvent") with
  | inr l => l
  | inl _ => []
  end.

(** Two bindings on two events, a client whose second create call is
    refused, and the read-back that shows the first binding created. *)
Definition ex_schemeTwo : InstanceElement :=
  mkInstance "scheme" ex_schemeType
    [("id", VNum 7);
     ("notificationSchemeEvents",
       VArr [ex_event (VNum 1) [ex_notification "User" (VStr "a")];
             ex_event (VNum 2) [ex_notification "User" (VStr "b")]])].

Definition ex_first : InstanceElement :=
  Eval vm_compute in nth 0 (ex_entries ex_schemeTwo) ex_schemeTwo.

Definition ex_second : InstanceElement :=
  Eval vm_compute in nth 1 (ex_entries ex_schemeTwo) ex_schemeTwo.

Definition ex_remoteFirst : Value :=
  VObj [("values",
          VArr [VObj [("notificationSchemeEvents",
                        VArr [VObj [("event", VObj [("id", VNum 1)]);
                                    ("notifications",
                                      VArr [VObj [("id", VNum 555);
                                                  ("notificationType", VStr "User");
                                                  ("parameter", VStr "a")]])]])]])].




(** A client whose second delete call is refused. *)
Definition ex_clientSecondDeleteFails : JiraClient :=
  mkClient false
    (fun history req =>
       match req, history with
       | Delete _, [_] => inl (ClientError "Request failed with status code 404")
       | _, _ => inr VUndef
       end).

Definition isPut (r : Request) : bool :=
  match r with Put _ _ => true | _ => false end.
Definition isDelete (r : Request) : bool :=
  match r with Delete _ => true | _ => false end.
Definition isGetSinglePage (r : Request) : bool :=
  match r with GetSinglePage _ _ => true | _ => false end.

(* ================================================================== *)
(** ** The removal of version-one workflows
       ([filters/workflowV2/workflowV1_removal.ts]) *)

Inductive Element : Type :=
| InstanceEl (i : InstanceElement)
| TypeEl (t : TypeElement).

Definition isInstanceElement (element : Element) : bool :=
  match element with InstanceEl _ => true | TypeEl _ => false end.

(** The truth value [if (v)] tests. *)
Definition truthy (v : Value) : bool :=
  match v with
  | VUndef | VNull => false
  | VBool b => b
  | VNum z => negb (Z.eqb z 0)
  | VStr s => negb (String.eqb s "")
  | VArr _ | VObj _ => true
  end.

Section WorkflowV1Removal.
(** [WORKFLOW_TYPE_NAME] of [constants.ts] and
    [config.fetch.enableNewWorkflowAPI]. *)
Variable WORKFLOW_TYPE_NAME : string.
Variable enableNewWorkflowAPI : Value.

Definition isWorkflowInstance (element : Element) : bool :=
  match element with
  | InstanceEl i => String.eqb (typeName (refType i)) WORKFLOW_TYPE_NAME
  | TypeEl _ => false
  end.

(** [onFetch]: [_.remove] takes the matching elements out of the
    array in place; the model returns the array as the call leaves
    it. *)
Definition workflowV1Removal_onFetch (elements : list Element) : list Element :=
  if truthy enableNewWorkflowAPI
  then filter (fun element => negb (isWorkflowInstance element)) elements
  else elements.
End WorkflowV1Removal.

(* ================================================================== *)
(** ** The validator in the words of its contract *)

Definition channelDescriptor (n : Value) : Prop :=
  exists fs s, n = VObj fs /\ get n "notificationType" = VStr s /\ s <> "".

(** What [Joi.number()] takes for a number: a safe integer, or a
    string it converts. *)
Definition numeric (v : Value) : Prop :=
  (exists z, v = VNum z /\ (Z.abs z <= MAX_SAFE_INTEGER)%Z)
  \/ (exists s, v = VStr s /\ numericString s = true).

Definition eventReference (e : Value) : Prop :=
  exists fs, get e "event" = VObj fs /\ numeric (get (VObj fs) "id").

Definition schemeEvent (e : Value) : Prop :=
  (exists fs, e = VObj fs) /\ eventReference e
  /\ (get e "notifications" = VUndef
      \/ exists ns, get e "notifications" = VArr ns /\ Forall channelDescriptor ns).

Definition wellShapedScheme (v : Value) : Prop :=
  (exists fs, v = VObj fs)
  /\ (get v "notificationSchemeEvents" = VUndef
      \/ exists es, get v "notificationSchemeEvents" = VArr es
                    /\ Forall schemeEvent es).

(* ================================================================== *)
(** ** The diff in the words of its contract *)

(** The last element of [l] that carries the key [k]. *)
Fixpoint findLast {A} (f : A -> string) (k : string) (l : list A) : option A :=
  match l with
  | [] => None
  | a :: rest =>
      match findLast f k rest with
      | Some b => Some b
      | None => if String.eqb k (f a) then Some a else None
      end
  end.

(** Every entry of a mapping sits under its own key, and no key sits
    there twice. *)
Definition keyed {A} (f : A -> string) (m : list (string * A)) : Prop :=
  NoDup (map fst m) /\ Forall (fun kv => f (snd kv) = fst kv) m.

(** The entries of [side] whose identity key has no counterpart in
    [other]. *)
Definition withoutCounterpart (other side : list InstanceElement)
  : list InstanceElement :=
  filter (fun e => negb (existsb (String.eqb (elemName e)) (map elemName other))) side.

(** The create calls of a list of entries to add: one per entry whose
    body could be built. *)
Definition createCalls (toAdd : list InstanceElement) : list Request :=
  flat_map (fun e => match putData e with
                     | inr data => [Put (putUrl (get (VObj (value e)) "schemeId")) data]
                     | inl _ => []
                     end) toAdd.

(* ================================================================== *)
(** ** The canonical declarative shape *)

(** A scheme value as the workspace holds it: none of the wire-only
    fields [event], [notificationType] and [schemeId] is there, the
    events field (when present) is an array, the [notifications] of an
    event (when present) are an array, and no notification is [null]
    or [undefined]. *)
Definition canonicalNotification (n : Value) : bool :=
  match n with
  | VObj fs => negb (hasField "notificationType" fs)
  | VUndef | VNull => false
  | _ => true
  end.

Definition canonicalEvent (e : Value) : bool :=
  match e with
  | VObj fs =>
      negb (hasField "event" fs)
      && match lookup "notifications" fs with
         | None => true
         | Some (VArr ns) => forallb canonicalNotification ns
         | Some v => isNullish v
         end
  | _ => true
  end.

Definition canonicalValue (v : Fields) : bool :=
  negb (hasField "schemeId" v)
  && match lookup "notificationSchemeEvents" v with
     | None | Some VUndef => true
     | Some (VArr es) => forallb canonicalEvent es
     | Some _ => false
     end.

Definition canonicalChange (NOTIFICATION_SCHEME_TYPE_NAME : string)
  (change : AnyChange) : bool :=
  match change with
  | InstanceChange c =>
      if isSchemeChange NOTIFICATION_SCHEME_TYPE_NAME change
      then canonicalValue (value (getChangeData c))
      else true
  | OtherChange _ => true
  end.

(** The change with the top-level [id] of a scheme instance coerced
    by [Number]. *)
Definition withNumericId (NOTIFICATION_SCHEME_TYPE_NAME : string)
  (Number : Value -> Value) (change : AnyChange) : AnyChange :=
  match change with
  | InstanceChange c =>
      if isSchemeChange NOTIFICATION_SCHEME_TYPE_NAME change
      then InstanceChange
             (onChangeData (fun v => assign "id" (Number (get (VObj v) "id")) v) c)
      else change
  | OtherChange _ => change
  end.

(* ================================================================== *)
(** ** The wire shape [preDeploy] gives an event *)



(* ================================================================== *)
(** ** The projection in closed form *)

(** No ["-"] in a string. *)
Fixpoint dashFree (s : string) : bool :=
  match s with
  | EmptyString => true
  | String c rest => negb (Ascii.eqb c "-") && dashFree rest
  end.

(** The items of an array, nothing for any other value. *)
Definition itemsOf (v : Value) : list Value :=
  match v with
  | VArr l => l
  | _ => []
  end.

(** The entries one declarative event contributes, and those one wire
    event contributes once [transformNotificationEvent] has renamed its
    fields. *)
Definition entriesOfEvent (event : Value) : list EventValues :=
  map (fun n => mkEvent (get event "eventType") (get n "type")
                  (get n "parameter") (get n "id"))
    (itemsOf (get event "notifications")).

Definition wireEntriesOfEvent (event : Value) : list EventValues :=
  map (fun n => mkEvent (get (get event "event") "id") (get n "notificationType")
                  (get n "parameter") (get n "id"))
    (itemsOf (get event "notifications")).

(** The snapshots [getEventsValues] can read: the events field is
    absent, [null] or an array of events none of which is nullish, and
    the [notifications] of each are absent, [null] or an array of
    notifications none of which is nullish. *)
Definition projectableEvent (event : Value) : bool :=
  negb (isNullish event)
  && match get event "notifications" with
     | VUndef | VNull => true
     | VArr ns => forallb (fun n => negb (isNullish n)) ns
     | _ => false
     end.

Definition projectable (instanceValues : Fields) : bool :=
  match get (VObj instanceValues) "notificationSchemeEvents" with
  | VUndef | VNull => true
  | VArr events => forallb projectableEvent events
  | _ => false
  end.

(** The changes [getEventChanges] can diff: the events field has an
    object type, the change has an after-side, and [getEventsValues]
    can read both sides. *)
Definition diffable (change : Change InstanceElement) (innerType : TypeElement)
  : bool :=
  match innerType, change with
  | ObjectType _, Addition a => projectable (value a)
  | ObjectType _, Modification b a => projectable (value b) && projectable (value a)
  | _, _ => false
  end.

(** The field names [convertValuesToJSPBody] writes before the
    computed one. *)
Definition bodyFieldNames : list string :=
  ["event"; "notifications"; "id"; "schemeId"; "name"; "eventTypeIds"; "type"].

(* ================================================================== *)
(** ** The bookkeeping of the loop in closed form *)

(** The callbacks of a round that wait for a create call. *)
Definition awaitPuts (ts : list Task) : nat :=
  List.length (filter (fun t => match t with AwaitPut _ _ => true | _ => false end) ts).

(** The delete call of a removed entry, given the identifier map. *)
Definition deleteRequest (ids : Value) (e : InstanceElement) : Request :=
  Delete (deleteUrl (get (VObj (value e)) "schemeId") (get ids (entryName e))).

Definition deleteCalls (ids : Value) (toRemove : list InstanceElement)
  : list Request :=
  map (deleteRequest ids) toRemove.

(** The delete calls of the removed entries with what the service
    answers to each, [issued] being the calls before the first. *)
Fixpoint deleteOutcomes (client : JiraClient) (ids : Value) (issued : list Request)
  (toRemove : list InstanceElement) : list (InstanceElement * Result Value) :=
  match toRemove with
  | [] => []
  | e :: rest =>
      (e, respond client issued (deleteRequest ids e))
        :: deleteOutcomes client ids (issued ++ [deleteRequest ids e]) rest
  end.

Definition succeeded (o : InstanceElement * Result Value) : bool :=
  match snd o with inr _ => true | inl _ => false end.

(** The identifier map once the entries whose delete call succeeded
    are struck off. *)
Definition afterDeletes (fs : Fields)
  (outcomes : list (InstanceElement * Result Value)) : Fields :=
  fold_left (fun m o => if succeeded o then remove (entryName (fst o)) m else m)
    outcomes fs.

Fixpoint firstFailure (outcomes : list (InstanceElement * Result Value))
  : Result unit :=
  match outcomes with
  | [] => ok tt
  | (_, inl e) :: _ => throw e
  | _ :: rest => firstFailure rest
  end.

(** The callback of a removed entry once its delete call has
    settled. *)
Definition settledDelete (o : InstanceElement * Result Value) : Task :=
  Settled (match snd o with inl e => inl e | inr _ => ok tt end).

(** The outcomes that come before the first failed call. *)
Fixpoint beforeFailure (outcomes : list (InstanceElement * Result Value))
  : list (InstanceElement * Result Value) :=
  match outcomes with
  | [] => []
  | o :: rest => if succeeded o then o :: beforeFailure rest else []
  end.




(** The own properties of an identifier map, none when there is no
    map yet. *)
Definition mapOf (ids : Value) : Fields :=
  match ids with
  | VObj m => m
  | _ => []
  end.

(** The identifier map once every added entry has its identifier
    filed. *)
Definition recordAll (idOf : InstanceElement -> Value)
  (toAdd : list InstanceElement) (fs : Fields) : Fields :=
  fold_left (fun m e => assign (entryName e) (idOf e) m) toAdd fs.

(** The value of the instance is the one the loop started from, but
    possibly for its identifier map. *)
Definition onlyIdentifierMap (v0 : Fields) (st : DeployState) : Prop :=
  instanceValue st = v0
  \/ exists ids, instanceValue st = assign "notificationIds" ids v0.

(** [if (instance.value.notificationIds === undefined)
    instance.value.notificationIds = {}] on the value of the
    instance. *)
Definition initIds (v : Fields) : Fields :=
  if isUndefined (get (VObj v) "notificationIds")
  then assign "notificationIds" (VObj []) v else v.

Definition readBackCalls (toAdd : list InstanceElement) : list Request :=
  map (fun e => readBackRequest (get (VObj (value e)) "schemeId")) toAdd.

(* ================================================================== *)
(** * Properties *)

(** ** Strings and association lists *)

Lemma append_cancel_l (p a b : string) : (p ++ a = p ++ b)%string -> a = b.
Proof.
  induction p as [|c p IH]; simpl; intros H.
  - exact H.
  - injection H as H. auto.
Qed.

Lemma append_length (a b : string) :
  String.length (a ++ b)%string = String.length a + String.length b.
Proof. induction a; simpl; congruence. Qed.

Lemma append_cancel_r (s a b : string) : (a ++ s = b ++ s)%string -> a = b.
Proof.
  revert b. induction a as [|c a IH]; intros [|c' b] H; simpl in *.
  - reflexivity.
  - apply (f_equal String.length) in H. simpl in H.
    rewrite append_length in H. lia.
  - apply (f_equal String.length) in H. simpl in H.
    rewrite append_length in H. lia.
  - injection H as -> H. f_equal. auto.
Qed.

(* ------------------------------------------------------------------ *)
(** ** The identity key *)

(** C5, the part that fails: a number and the string of its digits are
    different parameters with one rendering, so two entries that differ
    in their parameter alone can carry the same identity key. *)
Lemma getEventKey_parameter_collision :
  let e1 := mkEvent (VNum 1) (VStr "User") (VNum 10002) VUndef in
  let e2 := mkEvent (VNum 1) (VStr "User") (VStr "10002") VUndef in
  eventType e1 = eventType e2 /\ type e1 = type e2
  /\ parameter e1 <> parameter e2
  /\ getEventKey e1 = getEventKey e2.
Proof.
  cbv zeta. repeat split; try reflexivity. discriminate.
Qed.

(** C5, amended: the identity key of an entry is the concatenation of
    the renderings of its event type, channel type and parameter with
    ["-"] between them, an absent field being rendered ["undefined"];
    it does not depend on the entry's id, so projecting an unchanged
    entry again gives the same key; and when one of the three fields
    changes, the other two being kept, the key changes exactly when the
    rendering of that field does. *)
Theorem getEventKey_by_rendering (et t p i et' t' p' i' : Value) :
  getEventKey (mkEvent et t p i)
    = (toString et ++ "-" ++ toString t ++ "-" ++ toString p)%string
  /\ getEventKey (mkEvent et t VUndef i)
    = (toString et ++ "-" ++ toString t ++ "-undefined")%string
  /\ getEventKey (mkEvent et t p i) = getEventKey (mkEvent et t p i')
  /\ (getEventKey (mkEvent et t p i) = getEventKey (mkEvent et t p' i')
      <-> toString p = toString p')
  /\ (getEventKey (mkEvent et t p i) = getEventKey (mkEvent et t' p i')
      <-> toString t = toString t')
  /\ (getEventKey (mkEvent et t p i) = getEventKey (mkEvent et' t p i')
      <-> toString et = toString et').
Proof.
  unfold getEventKey; cbn [eventType type parameter].
  repeat split; try reflexivity.
  - intros H. do 4 apply append_cancel_l in H. exact H.
  - intros ->. reflexivity.
  - intros H. apply append_cancel_l in H. apply append_cancel_l in H.
    apply (append_cancel_r ("-" ++ toString p)%string) in H. exact H.
  - intros ->. reflexivity.
  - intros H.
    apply (append_cancel_r ("-" ++ toString t ++ "-" ++ toString p)%string) in H.
    exact H.
  - intros ->. reflexivity.
Qed.

(* ------------------------------------------------------------------ *)
(** ** The shape validator *)

Lemma validates_undefined (s : Schema) :
  validates s VUndef = negb (isRequired s).
Proof. destruct s; reflexivity. Qed.

Lemma validates_string (p : Presence) (v : Value) :
  isUndefined v = false ->
  (validates (Joi_string p) v = true <-> exists s, v = VStr s /\ s <> "").
Proof.
  intros Hv. destruct v; try discriminate; simpl;
    try (split; [discriminate | intros (s0 & H & _); discriminate]).
  rewrite negb_true_iff, String.eqb_neq.
  split.
  - intros H. exists s. auto.
  - intros (s0 & H & Hne). injection H as ->. exact Hne.
Qed.

Lemma validates_number (p : Presence) (v : Value) :
  isUndefined v = false ->
  (validates (Joi_number p) v = true <-> numeric v).
Proof.
  unfold numeric. intros Hv. destruct v; try discriminate; simpl;
    try (split; [discriminate | intros [(z0 & H & _) | (s0 & H & _)]; discriminate]).
  - rewrite Z.leb_le. split.
    + intros H. left. exists z. auto.
    + intros [(z0 & H & Hle) | (s0 & H & _)]; [|discriminate].
      injection H as ->. exact Hle.
  - split.
    + intros H. right. exists s. auto.
    + intros [(z0 & H & _) | (s0 & H & Hs)]; [discriminate|].
      injection H as ->. exact Hs.
Qed.

Lemma validates_array (item : Schema) (p : Presence) (v : Value) :
  isUndefined v = false ->
  (validates (Joi_array item p) v = true
   <-> exists l, v = VArr l
                 /\ Forall (fun x => isUndefined x = false
                                     /\ validates item x = true) l).
Proof.
  intros Hv. destruct v; try discriminate;
    try (cbn; split; [discriminate | intros (l & H & _); discriminate]).
  cbn [validates isUndefined]. rewrite forallb_forall.
  split.
  - intros H. exists items. split; [reflexivity|].
    apply Forall_forall. intros x Hx. specialize (H x Hx).
    apply andb_true_iff in H. destruct H as [H1 H2].
    unfold isDefined in H1. apply negb_true_iff in H1. auto.
  - intros (l & H & Hl). injection H as <-.
    rewrite Forall_forall in Hl.
    intros x Hx. destruct (Hl x Hx) as [H1 H2].
    unfold isDefined. rewrite H1, H2. reflexivity.
Qed.

(** An object schema with [.unknown(true)] and one or two keys. *)
Lemma validates_object1 (k : string) (sk : Schema) (p : Presence) (v : Value) :
  isUndefined v = false ->
  (validates (Joi_object [(k, sk)] true p) v = true
   <-> exists fs, v = VObj fs /\ validates sk (get v k) = true).
Proof.
  intros Hv. destruct v; try discriminate;
    try (cbn; split; [discriminate | intros (l & H & _); discriminate]).
  cbn [validates isUndefined]. rewrite !andb_true_r.
  split.
  - intros H. exists fields. auto.
  - intros (l & H & Hl). exact Hl.
Qed.

Lemma validates_object2 (k1 k2 : string) (s1 s2 : Schema) (p : Presence) (v : Value) :
  isUndefined v = false ->
  (validates (Joi_object [(k1, s1); (k2, s2)] true p) v = true
   <-> exists fs, v = VObj fs /\ validates s1 (get v k1) = true
                  /\ validates s2 (get v k2) = true).
Proof.
  intros Hv. destruct v; try discriminate;
    try (cbn; split; [discriminate | intros (l & H & _); discriminate]).
  cbn [validates isUndefined]. rewrite !andb_true_r, andb_true_iff.
  split.
  - intros H. exists fields. auto.
  - intros (l & H & Hl). exact Hl.
Qed.

Lemma isUndefined_false_iff (v : Value) : isUndefined v = false <-> v <> VUndef.
Proof. destruct v; simpl; split; congruence. Qed.

Lemma validates_channelDescriptor (n : Value) :
  isUndefined n = false
  /\ validates (Joi_object [("notificationType", Joi_string Required)] true Optional) n
     = true
  <-> channelDescriptor n.
Proof.
  unfold channelDescriptor. split.
  - intros [Hn H]. apply validates_object1 in H; [|exact Hn].
    destruct H as (fs & -> & H).
    destruct (isUndefined (get (VObj fs) "notificationType")) eqn:E.
    + destruct (get (VObj fs) "notificationType"); discriminate.
    + apply validates_string in H; [|exact E].
      destruct H as (s & H1 & H2). exists fs, s. auto.
  - intros (fs & s & -> & H1 & H2). split; [reflexivity|].
    apply validates_object1; [reflexivity|].
    exists fs. split; [reflexivity|]. rewrite H1.
    apply validates_string; [reflexivity|]. exists s. auto.
Qed.

Lemma validates_eventReference (e : Value) :
  validates (Joi_object [("id", Joi_number Required)] true Required) (get e "event")
    = true
  <-> eventReference e.
Proof.
  unfold eventReference. split.
  - intros H. destruct (isUndefined (get e "event")) eqn:E.
    + destruct (get e "event"); discriminate.
    + apply validates_object1 in H; [|exact E].
      destruct H as (fs & Hfs & H). rewrite Hfs in H.
      destruct (isUndefined (get (VObj fs) "id")) eqn:E'.
      * destruct (get (VObj fs) "id"); discriminate.
      * apply validates_number in H; [|exact E']. exists fs. auto.
  - intros (fs & H1 & H2). rewrite H1.
    apply validates_object1; [reflexivity|].
    exists fs. split; [reflexivity|].
    apply validates_number; [|exact H2].
    destruct H2 as [(z & -> & _) | (s & -> & _)]; reflexivity.
Qed.

Lemma Forall_channelDescriptor (ns : list Value) :
  Forall (fun x => isUndefined x = false
                   /\ validates (Joi_object [("notificationType", Joi_string Required)]
                                   true Optional) x = true) ns
  <-> Forall channelDescriptor ns.
Proof.
  split; apply Forall_impl; intros n; apply validates_channelDescriptor.
Qed.

Lemma validates_schemeEvent (e : Value) :
  isUndefined e = false
  /\ validates
       (Joi_object
          [("event", Joi_object [("id", Joi_number Required)] true Required);
           ("notifications",
             Joi_array
               (Joi_object [("notificationType", Joi_string Required)] true Optional)
               Optional)]
          true Optional) e = true
  <-> schemeEvent e.
Proof.
  unfold schemeEvent. split.
  - intros [He H]. apply validates_object2 in H; [|exact He].
    destruct H as (fs & Hfs & H1 & H2).
    split; [eauto|]. split; [apply validates_eventReference; exact H1|].
    destruct (isUndefined (get e "notifications")) eqn:E.
    + left. destruct (get e "notifications"); try discriminate. reflexivity.
    + right. apply validates_array in H2; [|exact E].
      destruct H2 as (ns & Hns & Hall). exists ns. split; [exact Hns|].
      apply Forall_channelDescriptor. exact Hall.
  - intros ((fs & ->) & H1 & H2). split; [reflexivity|].
    apply validates_object2; [reflexivity|]. exists fs.
    split; [reflexivity|]. split; [apply validates_eventReference; exact H1|].
    destruct H2 as [H2 | (ns & H2 & Hall)]; rewrite H2.
    + reflexivity.
    + apply validates_array; [reflexivity|]. exists ns. split; [reflexivity|].
      apply Forall_channelDescriptor. exact Hall.
Qed.

Lemma isNotificationScheme_wellShaped (v : Value) :
  isNotificationScheme v = true <-> wellShapedScheme v.
Proof.
  unfold isNotificationScheme, NOTIFICATION_SCHEME, wellShapedScheme. split.
  - intros H. destruct (isUndefined v) eqn:Ev.
    + destruct v; discriminate.
    + apply validates_object1 in H; [|exact Ev].
      destruct H as (fs & Hfs & H). split; [eauto|].
      destruct (isUndefined (get v "notificationSchemeEvents")) eqn:E.
      * left. destruct (get v "notificationSchemeEvents"); try discriminate.
        reflexivity.
      * right. apply validates_array in H; [|exact E].
        destruct H as (es & Hes & Hall). exists es. split; [exact Hes|].
        revert Hall. apply Forall_impl. intros e. apply validates_schemeEvent.
  - intros ((fs & ->) & H). apply validates_object1; [reflexivity|].
    exists fs. split; [reflexivity|].
    destruct H as [H | (es & H & Hall)]; rewrite H.
    + reflexivity.
    + apply validates_array; [reflexivity|]. exists es. split; [reflexivity|].
      revert Hall. apply Forall_impl. intros e. apply validates_schemeEvent.
Qed.

(** C3, amended: the validator returns true iff the payload is an
    object whose [notificationSchemeEvents], when present, is an array
    of objects each holding an [event] object whose [id] is a safe
    integer or a string that [Joi.number()] converts and, when it has
    [notifications], an array of objects each carrying a non-empty
    string [notificationType].  So a payload
    without the events field passes, one with an event lacking the
    event id or with a descriptor lacking the channel-type string is
    refused.  On a false result [transformAllNotificationEvents]
    throws, and the read-back step of the apply loop reads no
    identifier out of the payload and leaves the instance as it is. *)
Theorem isNotificationScheme_contract (v : Value) :
  (isNotificationScheme v = true <-> wellShapedScheme v)
  /\ (forall fs, v = VObj fs -> get v "notificationSchemeEvents" = VUndef ->
      isNotificationScheme v = true)
  /\ (forall es e, get v "notificationSchemeEvents" = VArr es -> In e es ->
      ~ eventReference e -> isNotificationScheme v = false)
  /\ (forall es e ns n, get v "notificationSchemeEvents" = VArr es -> In e es ->
      get e "notifications" = VArr ns -> In n ns -> ~ channelDescriptor n ->
      isNotificationScheme v = false)
  /\ (isNotificationScheme v = false ->
      transformAllNotificationEvents v
      = throw (JsError "Received an invalid notification scheme"))
  /\ (forall client eventInstance data st,
      firstOf (get data "values") = v -> isNotificationScheme v = false ->
      resume client (AwaitGetSinglePage eventInstance (inr data)) st
      = (st, Settled (ok tt))).
Proof.
  assert (Hno : forall P : Prop,
             (wellShapedScheme v -> P -> False) -> P -> isNotificationScheme v = false).
  { intros P H HP. destruct (isNotificationScheme v) eqn:E; [|reflexivity].
    apply isNotificationScheme_wellShaped in E. destruct (H E HP). }
  split; [apply isNotificationScheme_wellShaped|].
  split.
  { intros fs Hv Hu. apply isNotificationScheme_wellShaped.
    split; [eauto | left; exact Hu]. }
  split.
  { intros es e Hes He Hn. apply (Hno (In e es)); [|exact He].
    intros (_ & [Hu | (es' & Hes' & Hall)]) _; [congruence|].
    assert (es' = es) by congruence. subst es'.
    rewrite Forall_forall in Hall. destruct (Hall e He) as (_ & Href & _). auto. }
  split.
  { intros es e ns n Hes He Hns Hin Hn. apply (Hno (In e es)); [|exact He].
    intros (_ & [Hu | (es' & Hes' & Hall)]) _; [congruence|].
    assert (es' = es) by congruence. subst es'.
    rewrite Forall_forall in Hall.
    destruct (Hall e He) as (_ & _ & [Hu | (ns' & Hns' & Hds)]); [congruence|].
    assert (ns' = ns) by congruence. subst ns'.
    rewrite Forall_forall in Hds. auto. }
  split.
  { intros H. unfold transformAllNotificationEvents. rewrite H. reflexivity. }
  intros client eventInstance data st Hv H. cbn [resume].
  rewrite Hv, H, andb_false_r. reflexivity.
Qed.

(* ------------------------------------------------------------------ *)
(** ** A target without the private protocol *)

(** C7: against a Data Center client, [deploy] hands every change back
    as a leftover, applies none, reports no error and issues no call,
    whatever the batch, the remote service and the collaborators are;
    [preDeploy] and [onDeploy] leave the batch as it is. *)
Theorem dataCenter_defers
  (remote : list Request -> Request -> Result Value)
  (NOTIFICATION_SCHEME_TYPE_NAME NOTIFICATION_EVENT_TYPE_NAME : string)
  (Number : Value -> Value)
  (defaultDeployChange :
     Change InstanceElement -> list string -> Result (Change InstanceElement))
  (eventsInnerType : InstanceElement -> TypeElement)
  (changes : list AnyChange) :
  let client := mkClient true remote in
  deploy client NOTIFICATION_SCHEME_TYPE_NAME NOTIFICATION_EVENT_TYPE_NAME
    defaultDeployChange eventsInnerType changes
  = (mkFilterResult changes (mkDeployResult [] []), [])
  /\ preDeploy client NOTIFICATION_SCHEME_TYPE_NAME changes = ok changes
  /\ onDeploy client NOTIFICATION_SCHEME_TYPE_NAME Number changes = ok changes.
Proof.
  cbv zeta. unfold deploy, preDeploy, onDeploy. cbn [isDataCenter]. auto.
Qed.

(* ------------------------------------------------------------------ *)
(** ** Single steps of the apply loop *)

Lemma mapM_ok_inv {A B} (f : A -> Result B) (l : list A) (r : list B) :
  mapM f l = ok r -> Forall2 (fun a b => f a = ok b) l r.
Proof.
  revert r. induction l as [|a l IH]; intros r H; simpl in H.
  - injection H as <-. constructor.
  - destruct (f a) as [e|b] eqn:Ea; [discriminate|]. simpl in H.
    destruct (mapM f l) as [e|bs] eqn:El; [discriminate|]. simpl in H.
    injection H as <-. constructor; auto.
Qed.

Lemma mapM_ok_length {A B} (f : A -> Result B) (l : list A) (r : list B) :
  mapM f l = ok r -> List.length r = List.length l.
Proof.
  intros H. apply mapM_ok_inv in H. symmetry. eapply Forall2_length; eauto.
Qed.

Lemma prop_ok_inv (v : Value) (k : string) (x : Value) :
  prop v k = ok x -> isNullish v = false /\ x = get v k.
Proof.
  unfold prop. destruct (isNullish v); [discriminate|].
  intros H. injection H as <-. auto.
Qed.

Lemma readBackMatches_defined (eventInstance : InstanceElement) (scheme : Value)
  (l : list Value) :
  readBackMatches eventInstance scheme = ok l ->
  Forall (fun n => isNullish n = false
                   /\ strict_eq (get n "notificationType")
                        (get (VObj (value eventInstance)) "type") = true) l.
Proof.
  unfold readBackMatches.
  destruct (asArray _ _) as [e|events]; [discriminate|]. cbn [bind].
  destruct (mapM _ events) as [e|flagged]; [discriminate|]. cbn [bind].
  match goal with |- context [mapM ?f ?l] => destruct (mapM f l) as [e|chosen] eqn:E end;
    [discriminate|].
  cbn [bind]. intros H. injection H as <-.
  apply mapM_ok_inv in E.
  clear -E. induction E as [|n pr ns prs Hn _ IH]; simpl; [constructor|].
  destruct (prop n "notificationType") as [e|nt] eqn:Ep; [discriminate|].
  apply prop_ok_inv in Ep. destruct Ep as [Hnn ->].
  cbn [bind] in Hn. injection Hn as <-. cbn [fst snd].
  destruct (strict_eq _ _) eqn:Eeq; [constructor|]; auto.
Qed.

(** C10: the removal branch looks the stored identifier up without a
    guard.  With an identifier map at hand it issues the delete call
    with whatever the lookup yields, so a key the map does not hold
    gives a URL that ends in [undefined]; with no identifier map on
    the instance the lookup throws and no call is issued for the
    entry. *)
Theorem removal_lookup_unguarded (client : JiraClient)
  (eventInstance : InstanceElement) (st : DeployState) :
  let schemeId := get (VObj (value eventInstance)) "schemeId" in
  let name := entryName eventInstance in
  (isNullish (notificationIdsOf st) = false ->
   start client (Removal eventInstance) st
   = (mkState (instanceValue st)
        (calls st ++ [Delete (deleteUrl schemeId (get (notificationIdsOf st) name))]),
      AwaitDelete eventInstance
        (respond client (calls st)
           (Delete (deleteUrl schemeId (get (notificationIdsOf st) name))))))
  /\ (forall ids, notificationIdsOf st = VObj ids -> lookup name ids = None ->
      calls (fst (start client (Removal eventInstance) st))
      = calls st ++ [Delete ("/rest/api/3/notificationscheme/" ++ toString schemeId
                               ++ "/notification/undefined")%string])
  /\ (isNullish (notificationIdsOf st) = true ->
      exists msg,
        start client (Removal eventInstance) st = (st, Settled (inl (TypeError msg)))).
Proof.
  cbv zeta. unfold start, prop, issue. cbn [getChangeData].
  split; [|split].
  - intros H. rewrite H. reflexivity.
  - intros ids Hids Hk. rewrite Hids. cbn [isNullish fst calls get].
    rewrite Hk. reflexivity.
  - intros H. rewrite H. unfold throw. eauto.
Qed.

Lemma removal_lookup_unguarded_witness :
  let entry := mkInstance "1-User-a" (mkElemID "jira" "NotificationSchemeEvent")
                 [("schemeId", VNum 7); ("name", VStr "1-User-a")] in
  calls (fst (start (ex_client VNull) (Removal entry)
                (mkState [("notificationIds", VObj [])] [])))
  = [Delete "/rest/api/3/notificationscheme/7/notification/undefined"]
  /\ exists msg,
      start (ex_client VNull) (Removal entry) (mkState [] [])
      = (mkState [] [], Settled (inl (TypeError msg))).
Proof.
  cbv zeta. split.
  - apply (proj1 (proj2 (removal_lookup_unguarded (ex_client VNull)
             (mkInstance "1-User-a" (mkElemID "jira" "NotificationSchemeEvent")
                [("schemeId", VNum 7); ("name", VStr "1-User-a")])
             (mkState [("notificationIds", VObj [])] []))) []);
      reflexivity.
  - apply (proj2 (proj2 (removal_lookup_unguarded (ex_client VNull)
             (mkInstance "1-User-a" (mkElemID "jira" "NotificationSchemeEvent")
                [("schemeId", VNum 7); ("name", VStr "1-User-a")])
             (mkState [] [])))).
    reflexivity.
Defined.

(** C9: the read-back match looks at the event-type id and at the
    channel type of the entry and at nothing else of it, its parameter
    included, and the id recorded under the entry's key is the id of
    the first notification so matched. *)
Theorem readBack_records_first_match (client : JiraClient)
  (eventInstance : InstanceElement) (data : Value) (st : DeployState)
  (ids : Fields) (n : Value) (rest : list Value) :
  isPageResponse data = true ->
  isNotificationScheme (firstOf (get data "values")) = true ->
  readBackMatches eventInstance (firstOf (get data "values")) = ok (n :: rest) ->
  notificationIdsOf st = VObj ids ->
  resume client (AwaitGetSinglePage eventInstance (inr data)) st
  = (setNotificationIds
       (VObj (assign (entryName eventInstance) (get n "id") ids)) st,
     Settled (ok tt))
  /\ strict_eq (get n "notificationType")
       (get (VObj (value eventInstance)) "type") = true
  /\ forall other : InstanceElement,
      get (VObj (value other)) "eventTypeIds"
      = get (VObj (value eventInstance)) "eventTypeIds" ->
      get (VObj (value other)) "type" = get (VObj (value eventInstance)) "type" ->
      readBackMatches other (firstOf (get data "values")) = ok (n :: rest).
Proof.
  intros Hpage Hscheme Hm Hids.
  pose proof (readBackMatches_defined _ _ _ Hm) as Hdef.
  inversion Hdef as [|? ? [Hn Heq] _]; subst.
  split; [|split].
  - cbn [resume]. rewrite Hpage, Hscheme. cbn [andb].
    unfold readBackId. rewrite Hm. cbn [bind ok nth]. unfold prop. rewrite Hn.
    cbn [bind ok]. rewrite Hids. reflexivity.
  - exact Heq.
  - intros other H1 H2. rewrite <- Hm. unfold readBackMatches.
    rewrite H1, H2. reflexivity.
Qed.



(* ------------------------------------------------------------------ *)
(** ** Assignment and deletion of own properties *)

Section AssocFacts.
Context {A : Type}.
Implicit Types (fs : list (string * A)) (k : string) (v : A).

Lemma lookup_assign_same k v fs : lookup k (assign k v fs) = Some v.
Proof.
  induction fs as [|[k0 v0] fs IH]; simpl.
  - rewrite String.eqb_refl. reflexivity.
  - destruct (String.eqb k k0) eqn:E; simpl; rewrite E; auto.
Qed.

Lemma lookup_assign_ne k k' v fs :
  k <> k' -> lookup k (assign k' v fs) = lookup k fs.
Proof.
  intros Hne. induction fs as [|[k0 v0] fs IH]; simpl.
  - apply String.eqb_neq in Hne. rewrite Hne. reflexivity.
  - destruct (String.eqb k' k0) eqn:E; simpl.
    + apply String.eqb_eq in E. subst k0.
      apply String.eqb_neq in Hne. rewrite Hne. reflexivity.
    + rewrite IH. reflexivity.
Qed.

Lemma assign_absent k v fs : lookup k fs = None -> assign k v fs = fs ++ [(k, v)].
Proof.
  induction fs as [|[k0 v0] fs IH]; simpl; [reflexivity|].
  destruct (String.eqb k k0); [discriminate|].
  intros H. rewrite IH; auto.
Qed.

Lemma assign_present k v fs : lookup k fs = Some v -> assign k v fs = fs.
Proof.
  induction fs as [|[k0 v0] fs IH]; simpl; [discriminate|].
  destruct (String.eqb k k0).
  - intros H. injection H as ->. reflexivity.
  - intros H. rewrite IH; auto.
Qed.

Lemma assign_assign_same k v w fs : assign k v (assign k w fs) = assign k v fs.
Proof.
  induction fs as [|[k0 v0] fs IH]; simpl.
  - rewrite String.eqb_refl. reflexivity.
  - destruct (String.eqb k k0) eqn:E; simpl; rewrite E; [reflexivity|].
    rewrite IH. reflexivity.
Qed.

Lemma remove_absent k fs : lookup k fs = None -> remove k fs = fs.
Proof.
  unfold remove. induction fs as [|[k0 v0] fs IH]; simpl; [reflexivity|].
  destruct (String.eqb k k0); [discriminate|]. simpl.
  intros H. rewrite IH; auto.
Qed.

Lemma remove_assign_same k v fs : remove k (assign k v fs) = remove k fs.
Proof.
  unfold remove. induction fs as [|[k0 v0] fs IH]; simpl.
  - rewrite String.eqb_refl. reflexivity.
  - destruct (String.eqb k k0) eqn:E; simpl; rewrite E; simpl; [reflexivity|].
    rewrite IH. reflexivity.
Qed.

Lemma remove_assign_ne k k' v fs :
  k <> k' -> remove k (assign k' v fs) = assign k' v (remove k fs).
Proof.
  intros Hne. unfold remove. induction fs as [|[k0 v0] fs IH]; simpl.
  - apply String.eqb_neq in Hne. rewrite Hne. reflexivity.
  - destruct (String.eqb k' k0) eqn:E'; simpl.
    + apply String.eqb_eq in E'. subst k0.
      apply String.eqb_neq in Hne. rewrite Hne. simpl.
      rewrite String.eqb_refl. reflexivity.
    + destruct (String.eqb k k0) eqn:E; simpl.
      * exact IH.
      * rewrite E'. rewrite IH. reflexivity.
Qed.

(** A key that is there keeps its place when another key is
    assigned in between. *)
Lemma assign_around k k' a b c fs :
  k <> k' -> lookup k fs <> None ->
  assign k a (assign k' b (assign k c fs)) = assign k' b (assign k a fs).
Proof.
  intros Hne. induction fs as [|[k0 v0] fs IH]; simpl; [congruence|].
  destruct (String.eqb k k0) eqn:E.
  - intros _. apply String.eqb_eq in E. subst k0.
    assert (E' : String.eqb k' k = false)
      by (apply String.eqb_neq; congruence).
    simpl. rewrite E'. simpl. rewrite String.eqb_refl. reflexivity.
  - intros H. simpl. destruct (String.eqb k' k0) eqn:E'; simpl; rewrite E.
    + rewrite assign_assign_same. reflexivity.
    + rewrite IH; auto.
Qed.
End AssocFacts.

Lemma get_assign_ne (k k' : string) (v : Value) (fs : Fields) :
  k <> k' -> get (VObj (assign k' v fs)) k = get (VObj fs) k.
Proof. intros H. simpl. rewrite lookup_assign_ne; auto. Qed.

Lemma get_assign_same (k : string) (v : Value) (fs : Fields) :
  get (VObj (assign k v fs)) k = v.
Proof. simpl. rewrite lookup_assign_same. reflexivity. Qed.

Lemma hasField_false {A} (k : string) (fs : list (string * A)) :
  hasField k fs = false <-> lookup k fs = None.
Proof. unfold hasField. destruct (lookup k fs); split; congruence. Qed.

(* ------------------------------------------------------------------ *)
(** ** [preDeploy] followed by [onDeploy] *)

Lemma unmark_canonical (ns : list Value) :
  forallb canonicalNotification ns = true ->
  unmarkNotifications ns = (ns, true).
Proof.
  induction ns as [|n ns IH]; simpl; [reflexivity|].
  intros H. apply andb_true_iff in H. destruct H as [Hn Hns].
  destruct n; try discriminate; simpl; rewrite (IH Hns); try reflexivity.
  apply negb_true_iff, hasField_false in Hn.
  rewrite remove_absent; auto.
Qed.

Lemma unmark_mark_canonical (ns : list Value) :
  forallb canonicalNotification ns = true ->
  unmarkNotifications (markNotifications ns) = (ns, true).
Proof.
  induction ns as [|n ns IH]; simpl; [reflexivity|].
  intros H. apply andb_true_iff in H. destruct H as [Hn Hns].
  destruct n; try discriminate; cbn [isNullish];
    try (cbn [unmarkNotifications isNullish]; rewrite (IH Hns); reflexivity).
  apply negb_true_iff, hasField_false in Hn.
  destruct (isDefined (get (VObj fields) "type")); cbn [unmarkNotifications isNullish];
    rewrite (IH Hns).
  - rewrite remove_assign_same, remove_absent; auto.
  - rewrite remove_absent; auto.
Qed.

Lemma isNotificationSchemeEvent_object (fs : Fields) :
  isNotificationSchemeEvent (VObj fs) = true.
Proof.
  unfold isNotificationSchemeEvent, NOTIFICATION_SCHEME_EVENT.
  cbn [validates isUndefined orb andb].
  destruct (isUndefined (get (VObj fs) "eventType")); reflexivity.
Qed.

Lemma preDeployEvent_object (fs : Fields) :
  exists fs', preDeployEvent (VObj fs) = VObj fs'.
Proof.
  unfold preDeployEvent.
  destruct (isDefined _); [|eauto].
  destruct (get _ "notifications"); eauto.
Qed.

Lemma onDeployEvent_preDeployEvent (e : Value) :
  canonicalEvent e = true -> onDeployEvent (preDeployEvent e) = e.
Proof.
  destruct e as [| | | | | |fs]; try reflexivity.
  cbn [canonicalEvent]. intros H. apply andb_true_iff in H.
  destruct H as [Hev Hns]. apply negb_true_iff, hasField_false in Hev.
  unfold preDeployEvent.
  destruct (isDefined (get (VObj fs) "eventType")).
  - rewrite get_assign_ne by discriminate.
    unfold get at 1. destruct (lookup "notifications" fs) as [ns|] eqn:En.
    + destruct ns as [| | | | |ns|]; try discriminate.
      * unfold onDeployEvent, get. rewrite lookup_assign_ne, En by discriminate.
        rewrite remove_assign_same, remove_absent; auto.
      * unfold onDeployEvent, get. rewrite lookup_assign_ne, En by discriminate.
        rewrite remove_assign_same, remove_absent; auto.
      * unfold onDeployEvent. rewrite get_assign_same.
        rewrite (unmark_mark_canonical _ Hns).
        rewrite assign_assign_same.
        rewrite (assign_present "notifications" (VArr ns)).
        -- rewrite remove_assign_same, remove_absent; auto.
        -- rewrite lookup_assign_ne by discriminate. exact En.
    + unfold onDeployEvent, get. rewrite lookup_assign_ne, En by discriminate.
      rewrite remove_assign_same, remove_absent; auto.
  - unfold onDeployEvent, get.
    destruct (lookup "notifications" fs) as [ns|] eqn:En.
    + destruct ns as [| | | | |ns|]; try discriminate.
      * rewrite remove_absent; auto.
      * rewrite remove_absent; auto.
      * rewrite (unmark_canonical _ Hns).
        rewrite (assign_present "notifications" (VArr ns)) by exact En.
        rewrite remove_absent; auto.
    + rewrite remove_absent; auto.
Qed.

Lemma map_onDeploy_preDeploy (es : list Value) :
  forallb canonicalEvent es = true ->
  map (fun event => if isNotificationSchemeEvent event
                    then onDeployEvent event else event)
    (map (fun event => if isNotificationSchemeEvent event
                       then preDeployEvent event else event) es)
  = es.
Proof.
  induction es as [|e es IH]; simpl; [reflexivity|].
  intros H. apply andb_true_iff in H. destruct H as [He Hes].
  rewrite (IH Hes). f_equal.
  pose proof (onDeployEvent_preDeployEvent e He) as Hrt.
  destruct e as [| | | | | |fs];
    try (cbn [preDeployEvent onDeployEvent];
         destruct (isNotificationSchemeEvent _) eqn:E; rewrite ?E; reflexivity).
  rewrite isNotificationSchemeEvent_object.
  destruct (preDeployEvent_object fs) as (fs' & Hfs').
  rewrite Hfs' in *. rewrite isNotificationSchemeEvent_object. exact Hrt.
Qed.

Lemma forEachSchemeEvent_absent (f : Value -> Value) (v : Fields) :
  get (VObj v) "notificationSchemeEvents" = VUndef ->
  forEachSchemeEvent f v = ok v.
Proof. unfold forEachSchemeEvent. intros ->. reflexivity. Qed.

Lemma forEachSchemeEvent_array (f : Value -> Value) (v : Fields) (es : list Value) :
  get (VObj v) "notificationSchemeEvents" = VArr es ->
  forEachSchemeEvent f v
  = ok (assign "notificationSchemeEvents"
          (VArr (map (fun event => if isNotificationSchemeEvent event
                                   then f event else event) es)) v).
Proof. unfold forEachSchemeEvent. intros ->. reflexivity. Qed.

Lemma onDeployValue_preDeployValue (Number : Value -> Value) (b : bool) (v : Fields) :
  canonicalValue v = true ->
  exists w, preDeployValue b v = ok w
            /\ onDeployValue Number b w
               = ok (assign "id" (Number (get (VObj v) "id")) v).
Proof.
  unfold canonicalValue. intros H. apply andb_true_iff in H.
  destruct H as [Hsid Hev]. apply negb_true_iff, hasField_false in Hsid.
  set (N := Number (get (VObj v) "id")).
  assert (Hcases :
    get (VObj v) "notificationSchemeEvents" = VUndef
    \/ exists es, lookup "notificationSchemeEvents" v = Some (VArr es)
                  /\ forallb canonicalEvent es = true).
  { unfold get. destruct (lookup "notificationSchemeEvents" v) as [x|]; [|auto].
    destruct x; try discriminate; eauto. }
  unfold preDeployValue, onDeployValue.
  destruct Hcases as [Hu | (es & Hes & Hcan)].
  - rewrite (forEachSchemeEvent_absent _ _ Hu). cbn [bind ok].
    destruct b; eexists; (split; [reflexivity|]).
    + rewrite !get_assign_ne by discriminate. fold N.
      rewrite forEachSchemeEvent_absent
        by (rewrite !get_assign_ne by discriminate; exact Hu).
      cbn [bind ok]. f_equal.
      rewrite remove_assign_ne, remove_assign_same, remove_absent by (auto; discriminate).
      reflexivity.
    + fold N. rewrite forEachSchemeEvent_absent
        by (rewrite !get_assign_ne by discriminate; exact Hu).
      reflexivity.
  - assert (Hg : get (VObj v) "notificationSchemeEvents" = VArr es)
      by (unfold get; rewrite Hes; reflexivity).
    rewrite (forEachSchemeEvent_array _ _ _ Hg). cbn [bind ok].
    destruct b; eexists; (split; [reflexivity|]).
    + rewrite !get_assign_ne by discriminate. fold N.
      erewrite forEachSchemeEvent_array
        by (rewrite !get_assign_ne by discriminate; apply get_assign_same).
      cbn [bind ok]. f_equal.
      rewrite (map_onDeploy_preDeploy _ Hcan).
      rewrite !remove_assign_ne by discriminate.
      rewrite remove_assign_same, remove_assign_ne by discriminate.
      rewrite remove_absent by exact Hsid.
      rewrite assign_around by (try discriminate; congruence).
      rewrite (assign_present _ _ _ Hes). reflexivity.
    + rewrite !get_assign_ne by discriminate. fold N.
      erewrite forEachSchemeEvent_array
        by (rewrite !get_assign_ne by discriminate; apply get_assign_same).
      cbn [bind ok]. f_equal.
      rewrite (map_onDeploy_preDeploy _ Hcan).
      rewrite assign_around by (try discriminate; congruence).
      rewrite (assign_present _ _ _ Hes). reflexivity.
Qed.

Lemma onChangeData_facts (f : Fields -> Fields) (c : Change InstanceElement) :
  refType (getChangeData (onChangeData f c)) = refType (getChangeData c)
  /\ value (getChangeData (onChangeData f c)) = f (value (getChangeData c))
  /\ isRemovalOrModificationChange (onChangeData f c)
     = isRemovalOrModificationChange c.
Proof. destruct c; auto. Qed.

(** C8: on a batch whose scheme instances are in canonical declarative
    shape, [preDeploy] followed by [onDeploy] gives every change back
    as it was, but for the top-level [id] of the scheme instances,
    which [onDeploy] coerces with [Number]: the [event],
    [notificationType] and [schemeId] fields that [preDeploy] adds are
    all removed again. *)
Theorem preDeploy_onDeploy_roundtrip (client : JiraClient)
  (NOTIFICATION_SCHEME_TYPE_NAME : string) (Number : Value -> Value)
  (changes : list AnyChange) :
  isDataCenter client = false ->
  forallb (canonicalChange NOTIFICATION_SCHEME_TYPE_NAME) changes = true ->
  exists wire,
    preDeploy client NOTIFICATION_SCHEME_TYPE_NAME changes = ok wire
    /\ onDeploy client NOTIFICATION_SCHEME_TYPE_NAME Number wire
       = ok (map (withNumericId NOTIFICATION_SCHEME_TYPE_NAME Number) changes).
Proof.
  intros Hdc. unfold preDeploy, onDeploy. rewrite Hdc. unfold onSchemeChanges.
  induction changes as [|change changes IH]; intros Hcan.
  - exists []. auto.
  - cbn [forallb] in Hcan. apply andb_true_iff in Hcan.
    destruct Hcan as [Hc Hcs]. destruct (IH Hcs) as (wire & Hpre & Hon).
    cbn [mapM map]. rewrite Hpre.
    destruct change as [c|c].
    + unfold canonicalChange in Hc. unfold withNumericId.
      destruct (isSchemeChange _ (InstanceChange c)) eqn:Es.
      * destruct (onDeployValue_preDeployValue Number
                    (isRemovalOrModificationChange c) _ Hc) as (w & Hw & Hw').
        rewrite Hw. cbn [bind ok].
        eexists. split; [reflexivity|]. cbn [mapM]. rewrite Hon.
        destruct (onChangeData_facts (fun _ => w) c) as (Hr & Hv & Hm).
        unfold isSchemeChange in Es |- *. rewrite Hr, Es, Hv, Hm, Hw'.
        cbn [bind ok]. do 3 f_equal.
        destruct c; reflexivity.
      * cbn [bind ok]. eexists. split; [reflexivity|]. cbn [mapM].
        rewrite Es. cbn [bind ok]. rewrite Hon. reflexivity.
    + cbn [bind ok]. eexists. split; [reflexivity|]. cbn [mapM bind ok].
      rewrite Hon. reflexivity.
Qed.

(* ------------------------------------------------------------------ *)
(** ** [keyBy] and [Object.values] *)

Section KeyByFacts.
Context {A : Type} (f : A -> string).
Implicit Types (m : list (string * A)) (l : list A) (k : string).

Local Abbreviation step := (fun (acc : list (string * A)) (a : A) => assign (f a) a acc).

Lemma lookup_fold_assign l m k :
  lookup k (fold_left step l m)
  = match findLast f k l with
    | Some a => Some a
    | None => lookup k m
    end.
Proof.
  revert m. induction l as [|a l IH]; intros m; simpl; [reflexivity|].
  rewrite IH. destruct (findLast f k l); [reflexivity|].
  destruct (String.eqb k (f a)) eqn:E.
  - apply String.eqb_eq in E. subst k. apply lookup_assign_same.
  - apply String.eqb_neq in E. apply lookup_assign_ne. exact E.
Qed.

Lemma lookup_keyBy l k : lookup k (keyBy f l) = findLast f k l.
Proof.
  unfold keyBy. rewrite (lookup_fold_assign l [] k).
  destruct (findLast f k l); reflexivity.
Qed.

Lemma findLast_key l k a : findLast f k l = Some a -> f a = k.
Proof.
  induction l as [|b l IH]; simpl; [discriminate|].
  destruct (findLast f k l); [auto|].
  destruct (String.eqb k (f b)) eqn:E; [|discriminate].
  intros H. injection H as <-. apply String.eqb_eq in E. auto.
Qed.

Lemma findLast_In l k a : findLast f k l = Some a -> In a l.
Proof.
  induction l as [|b l IH]; simpl; [discriminate|].
  destruct (findLast f k l); [auto|].
  destruct (String.eqb k (f b)); [|discriminate].
  intros H. injection H as <-. auto.
Qed.

Lemma findLast_None l k : findLast f k l = None <-> ~ In k (map f l).
Proof. clear numericString.
  induction l as [|b l IH]; simpl; [tauto|].
  destruct (findLast f k l) eqn:E.
  - split; [discriminate|]. intros H. exfalso. apply H. right.
    apply findLast_key in E as Hk. apply findLast_In in E.
    subst k. apply in_map. exact E.
  - destruct (String.eqb k (f b)) eqn:Eb.
    + apply String.eqb_eq in Eb. split; [discriminate|]. intros H.
      exfalso. apply H. left. symmetry. exact Eb.
    + apply String.eqb_neq in Eb. split; [|reflexivity].
      intros _ [H|H]; [congruence|]. apply IH in H; auto.
Qed.

Lemma findLast_NoDup l a :
  NoDup (map f l) -> In a l -> findLast f (f a) l = Some a.
Proof. clear numericString.
  induction l as [|b l IH]; simpl; [tauto|].
  intros Hnd. inversion Hnd as [|? ? Hb Hl]; subst.
  intros [-> | Hin].
  - apply findLast_None in Hb. rewrite Hb, String.eqb_refl. reflexivity.
  - rewrite (IH Hl Hin). reflexivity.
Qed.

Lemma hasField_keyBy l k : hasField k (keyBy f l) = existsb (String.eqb k) (map f l).
Proof.
  unfold hasField. rewrite lookup_keyBy.
  destruct (findLast f k l) eqn:E.
  - symmetry. apply existsb_exists. exists k. split; [|apply String.eqb_refl].
    apply findLast_key in E as Hk. apply findLast_In in E.
    subst k. apply in_map. exact E.
  - apply findLast_None in E.
    destruct (existsb (String.eqb k) (map f l)) eqn:Ex; [|reflexivity].
    apply existsb_exists in Ex. destruct Ex as (k' & Hin & Hk).
    apply String.eqb_eq in Hk. subst k'. contradiction.
Qed.

Lemma In_lookup m k a : In (k, a) m -> NoDup (map fst m) -> lookup k m = Some a.
Proof using f. clear numericString.
  induction m as [|[k0 a0] m IH]; simpl; [tauto|].
  intros [H|H] Hnd; inversion Hnd as [|? ? Hk0 Hm]; subst.
  - injection H as -> ->. rewrite String.eqb_refl. reflexivity.
  - destruct (String.eqb k k0) eqn:E; [|auto].
    apply String.eqb_eq in E. subst k0. exfalso. apply Hk0.
    apply (in_map fst) in H. exact H.
Qed.

Lemma lookup_In m k a : lookup k m = Some a -> In (k, a) m.
Proof.
  induction m as [|[k0 a0] m IH]; simpl; [discriminate|].
  destruct (String.eqb k k0) eqn:E; [|auto].
  apply String.eqb_eq in E. subst k0. intros H. injection H as ->. auto.
Qed.

Lemma keys_assign m k a :
  map fst (assign k a m)
  = match lookup k m with
    | Some _ => map fst m
    | None => map fst m ++ [k]
    end.
Proof.
  induction m as [|[k0 a0] m IH]; simpl; [reflexivity|].
  destruct (String.eqb k k0); simpl; [reflexivity|].
  rewrite IH. destruct (lookup k m); reflexivity.
Qed.

Lemma lookup_None_keys m k : lookup k m = None -> ~ In k (map fst m).
Proof. clear numericString.
  induction m as [|[k0 a0] m IH]; simpl; [tauto|].
  destruct (String.eqb k k0) eqn:E; [discriminate|].
  apply String.eqb_neq in E. intros H [H'|H']; [congruence|].
  apply IH in H; auto.
Qed.

Lemma In_assign m k a kv :
  In kv (assign k a m) -> kv = (k, a) \/ In kv m.
Proof using f. clear numericString.
  induction m as [|[k0 a0] m IH]; simpl.
  - intros [H|[]]; auto.
  - destruct (String.eqb k k0) eqn:E; simpl.
    + apply String.eqb_eq in E. subst k0. intros [H|H]; auto.
    + intros [H|H]; auto. apply IH in H. tauto.
Qed.

Lemma keyed_assign m a : keyed f m -> keyed f (assign (f a) a m).
Proof.
  intros [Hnd Hall]. split.
  - rewrite keys_assign. destruct (lookup (f a) m) eqn:E; [exact Hnd|].
    apply lookup_None_keys in E.
    apply NoDup_rev in Hnd. rewrite <- (rev_involutive (_ ++ _)).
    apply NoDup_rev. rewrite rev_app_distr. simpl. constructor; [|exact Hnd].
    rewrite <- in_rev. exact E.
  - apply Forall_forall. intros kv Hin. apply In_assign in Hin.
    destruct Hin as [-> | Hin]; [reflexivity|].
    rewrite Forall_forall in Hall. auto.
Qed.

Lemma keyed_fold l m : keyed f m -> keyed f (fold_left step l m).
Proof.
  revert m. induction l as [|a l IH]; intros m Hm; simpl; [exact Hm|].
  apply IH. apply keyed_assign. exact Hm.
Qed.

Lemma keyed_keyBy l : keyed f (keyBy f l).
Proof. apply keyed_fold. split; constructor. Qed.

Lemma In_values_keyBy l a :
  In a (Object_values (keyBy f l)) <-> findLast f (f a) l = Some a.
Proof.
  destruct (keyed_keyBy l) as [Hnd Hall]. unfold Object_values. split.
  - intros H. apply in_map_iff in H. destruct H as ([k b] & Hb & Hin).
    simpl in Hb. subst b. rewrite Forall_forall in Hall.
    pose proof (Hall _ Hin) as Hk. simpl in Hk. subst k.
    rewrite <- lookup_keyBy. apply In_lookup; assumption.
  - intros H. rewrite <- lookup_keyBy in H. apply lookup_In in H.
    apply (in_map snd) in H. exact H.
Qed.

Lemma keys_of_values m :
  Forall (fun kv => f (snd kv) = fst kv) m -> map f (map snd m) = map fst m.
Proof.
  induction 1 as [|kv m Hkv _ IH]; simpl; [reflexivity|].
  rewrite Hkv, IH. reflexivity.
Qed.

Lemma NoDup_values_keyBy l : NoDup (map f (Object_values (keyBy f l))).
Proof.
  destruct (keyed_keyBy l) as [Hnd Hall]. unfold Object_values.
  rewrite keys_of_values; assumption.
Qed.

Lemma lookup_app_None m m' k :
  lookup k m = None -> lookup k (m ++ m') = lookup k m'.
Proof.
  induction m as [|[k0 a0] m IH]; simpl; [reflexivity|].
  destruct (String.eqb k k0); [discriminate|]. exact IH.
Qed.

Lemma fold_assign_NoDup l m :
  NoDup (map f l) -> (forall a, In a l -> lookup (f a) m = None) ->
  fold_left step l m = m ++ map (fun a => (f a, a)) l.
Proof.
  revert m. induction l as [|a l IH]; intros m Hnd Hm; simpl.
  - rewrite app_nil_r. reflexivity.
  - inversion Hnd as [|? ? Ha Hl]; subst.
    rewrite assign_absent by (apply Hm; simpl; auto).
    rewrite IH; [rewrite <- app_assoc; reflexivity | exact Hl |].
    intros b Hb. rewrite lookup_app_None by (apply Hm; simpl; auto).
    simpl. destruct (String.eqb (f b) (f a)) eqn:E; [|reflexivity].
    apply String.eqb_eq in E. exfalso. apply Ha. rewrite <- E.
    apply in_map. exact Hb.
Qed.

Lemma values_keyBy_NoDup l :
  NoDup (map f l) -> Object_values (keyBy f l) = l.
Proof.
  intros Hnd. unfold keyBy, Object_values.
  rewrite (fold_assign_NoDup l [] Hnd) by reflexivity.
  simpl. rewrite map_map. simpl. apply map_id.
Qed.
End KeyByFacts.

(* ------------------------------------------------------------------ *)
(** ** The event diff *)

Lemma getEventInstances_entries (instance : InstanceElement) (et : ElemID)
  (l : list InstanceElement) :
  getEventInstances instance et = ok l ->
  Forall (fun e => refType e = et) l
  /\ exists events, getEventsValues (value instance) = ok events
                    /\ map elemName l = map getEventKey events.
Proof.
  unfold getEventInstances.
  destruct (getEventsValues (value instance)) as [err|events]; [discriminate|].
  cbn [bind]. intros H. apply mapM_ok_inv in H.
  assert (Hall : Forall2 (fun ev e => refType e = et /\ elemName e = getEventKey ev)
                   events l).
  { revert H. apply Forall2_impl. intros ev e He.
    destruct (convertValuesToJSPBody _ _) as [err|body]; [discriminate|].
    cbn [bind ok] in He. injection He as <-. auto. }
  clear H. split.
  - induction Hall as [|ev e events l [H _] _ IH]; constructor; auto.
  - exists events. split; [reflexivity|].
    induction Hall as [|ev e events l [_ H] _ IH]; simpl; [reflexivity|].
    rewrite H, IH. reflexivity.
Qed.

Lemma eqb_fullName (x y : InstanceElement) :
  refType x = refType y ->
  String.eqb (getFullName x) (getFullName y) = String.eqb (elemName x) (elemName y).
Proof.
  intros H. unfold getFullName. rewrite H.
  destruct (String.eqb (elemName x) (elemName y)) eqn:E.
  - apply String.eqb_eq in E. rewrite E. apply String.eqb_refl.
  - apply String.eqb_neq in E. apply String.eqb_neq. intros H'.
    do 2 apply append_cancel_l in H'. contradiction.
Qed.

Lemma findLast_fullName (et : ElemID) (l : list InstanceElement) (e : InstanceElement) :
  Forall (fun x => refType x = et) l -> refType e = et ->
  findLast getFullName (getFullName e) l = findLast elemName (elemName e) l.
Proof.
  intros Hl He. induction Hl as [|x l Hx _ IH]; simpl; [reflexivity|].
  rewrite IH, eqb_fullName by congruence. reflexivity.
Qed.

Lemma existsb_fullName (et : ElemID) (l : list InstanceElement) (e : InstanceElement) :
  Forall (fun x => refType x = et) l -> refType e = et ->
  existsb (String.eqb (getFullName e)) (map getFullName l)
  = existsb (String.eqb (elemName e)) (map elemName l).
Proof.
  intros Hl He. induction Hl as [|x l Hx _ IH]; simpl; [reflexivity|].
  rewrite IH, eqb_fullName by congruence. reflexivity.
Qed.

Lemma In_fullName (et : ElemID) (l : list InstanceElement) (e : InstanceElement) :
  Forall (fun x => refType x = et) l -> refType e = et ->
  In (getFullName e) (map getFullName l) <-> In (elemName e) (map elemName l).
Proof.
  intros Hl He. induction Hl as [|x l Hx _ IH]; simpl; [tauto|].
  rewrite IH. rewrite <- (String.eqb_eq (getFullName x)), <- (String.eqb_eq (elemName x)).
  rewrite eqb_fullName by congruence. tauto.
Qed.

Lemma NoDup_fullName (et : ElemID) (l : list InstanceElement) :
  Forall (fun x => refType x = et) l ->
  NoDup (map elemName l) -> NoDup (map getFullName l).
Proof.
  intros Hl. induction Hl as [|x l Hx Hl IH]; simpl; intros Hnd; [constructor|].
  inversion Hnd as [|? ? Hn Hnd']; subst. constructor; [|auto].
  intros Hin. apply Hn. apply (In_fullName (refType x) l x); auto.
Qed.

Lemma filter_ext_Forall {A} (P : A -> Prop) (p q : A -> bool) (xs : list A) :
  Forall P xs -> (forall x, P x -> p x = q x) -> filter p xs = filter q xs.
Proof.
  intros Hxs Hpq. induction Hxs as [|x xs Hx _ IH]; simpl; [reflexivity|].
  rewrite (Hpq x Hx), IH. reflexivity.
Qed.

(** The entries of one side of the diff with no counterpart on the
    other, as the code reads them off the two mappings. *)
Lemma diff_side (et : ElemID) (other side : list InstanceElement) :
  Forall (fun x => refType x = et) other ->
  Forall (fun x => refType x = et) side ->
  let picked :=
    filter (fun instance =>
              negb (hasField (getFullName instance) (keyBy getFullName other)))
      (Object_values (keyBy getFullName side)) in
  (forall e, In e picked
             <-> findLast elemName (elemName e) side = Some e
                 /\ ~ In (elemName e) (map elemName other))
  /\ (NoDup (map elemName side) -> picked = withoutCounterpart other side).
Proof.
  intros Ho Hs. cbv zeta. split.
  - intros e. rewrite filter_In, In_values_keyBy, hasField_keyBy, negb_true_iff.
    split.
    + intros [Hlast Hno].
      assert (He : refType e = et).
      { apply findLast_In in Hlast. rewrite Forall_forall in Hs. auto. }
      rewrite (findLast_fullName et) in Hlast by assumption.
      rewrite (existsb_fullName et) in Hno by assumption.
      split; [exact Hlast|]. intros Hin.
      assert (Hex : existsb (String.eqb (elemName e)) (map elemName other) = true).
      { apply existsb_exists. exists (elemName e). split; [exact Hin|].
        apply String.eqb_refl. }
      congruence.
    + intros [Hlast Hno].
      assert (He : refType e = et).
      { apply findLast_In in Hlast. rewrite Forall_forall in Hs. auto. }
      rewrite (findLast_fullName et), (existsb_fullName et) by assumption.
      split; [exact Hlast|].
      destruct (existsb _ _) eqn:Ex; [|reflexivity].
      apply existsb_exists in Ex. destruct Ex as (k & Hin & Hk).
      apply String.eqb_eq in Hk. subst k. contradiction.
  - intros Hnd. rewrite values_keyBy_NoDup by (apply (NoDup_fullName et); assumption).
    unfold withoutCounterpart.
    apply (filter_ext_Forall (fun x => refType x = et)); [exact Hs|].
    intros x Hx. rewrite hasField_keyBy, (existsb_fullName et) by assumption.
    reflexivity.
Qed.

Lemma withoutCounterpart_nil (side : list InstanceElement) :
  withoutCounterpart [] side = side.
Proof.
  unfold withoutCounterpart. simpl. induction side; simpl; congruence.
Qed.

(** C1, the part that fails: two after-entries that differ (their
    event types are the number 1 and the string ["1"]) carry one
    identity key; nothing in the empty before-side matches it, yet
    only the later of the two is added. *)
Lemma getEventChanges_drops_colliding_entry :
  exists e1 e2,
    getEventInstances ex_schemeCollision (mkElemID "jira" "NotificationSchemeEvent")
    = ok [e1; e2]
    /\ e1 <> e2
    /\ elemName e1 = elemName e2
    /\ getEventChanges (Addition ex_schemeCollision) ex_eventType = ok [Addition e2]
    /\ ~ In (Addition e1) [Addition e2].
Proof.
  do 2 eexists. split; [vm_compute; reflexivity|].
  split; [discriminate|]. split; [reflexivity|]. split; [vm_compute; reflexivity|].
  intros [H|[]]. discriminate H.
Qed.

(** C1, amended: the change list is the remove-operations followed by
    the add-operations.  [toAdd] holds, for every identity key of the
    after-side that has no counterpart in the before-side, the last
    after-entry that carries it, and nothing else; [toRemove] likewise
    with the sides exchanged.  When the keys of a side are pairwise
    distinct this is exactly the entries of that side whose key has no
    counterpart on the other.  For an addition change the before-side
    is empty: [toRemove] is empty and [toAdd] holds the last entry of
    every after-key, that is every projected after-entry when the keys
    are pairwise distinct.  The identity keys of the entries are the
    keys of the projected events. *)
Theorem getEventChanges_diff (change : Change InstanceElement) (et : ElemID)
  (a : InstanceElement) (before after : list InstanceElement) :
  match change with
  | Modification b _ => getEventInstances b et
  | _ => ok []
  end = ok before ->
  data_after change = ok a ->
  getEventInstances a et = ok after ->
  exists toRemove toAdd,
    getEventChanges change (ObjectType et)
    = ok (map Removal toRemove ++ map Addition toAdd)
    /\ (forall e, In e toAdd
                  <-> findLast elemName (elemName e) after = Some e
                      /\ ~ In (elemName e) (map elemName before))
    /\ (forall e, In e toRemove
                  <-> findLast elemName (elemName e) before = Some e
                      /\ ~ In (elemName e) (map elemName after))
    /\ (NoDup (map elemName after) -> toAdd = withoutCounterpart before after)
    /\ (NoDup (map elemName before) -> toRemove = withoutCounterpart after before)
    /\ (isAdditionChange change = true ->
        toRemove = []
        /\ (forall e, In e toAdd <-> findLast elemName (elemName e) after = Some e)
        /\ (NoDup (map elemName after) -> toAdd = after))
    /\ exists events, getEventsValues (value a) = ok events
                      /\ map elemName after = map getEventKey events.
Proof.
  intros Hb Ha Hafter.
  assert (Hbt : Forall (fun e => refType e = et) before).
  { destruct change; try (injection Hb as <-; constructor).
    apply getEventInstances_entries in Hb. tauto. }
  destruct (getEventInstances_entries _ _ _ Hafter) as [Hat Hkeys].
  destruct (diff_side et before after Hbt Hat) as [Hadd Hadd'].
  destruct (diff_side et after before Hat Hbt) as [Hrem Hrem'].
  cbv zeta in *.
  exists (removedEventsOf (keyBy getFullName before) (keyBy getFullName after)),
         (newEventsOf (keyBy getFullName before) (keyBy getFullName after)).
  split.
  { unfold getEventChanges. cbn [getEventType bind ok].
    rewrite Hb. cbn [bind ok]. rewrite Ha. cbn [bind ok]. rewrite Hafter.
    reflexivity. }
  unfold newEventsOf, removedEventsOf.
  split; [exact Hadd|]. split; [exact Hrem|].
  split; [exact Hadd'|]. split; [exact Hrem'|].
  split; [|exact Hkeys].
  intros Hc. destruct change; try discriminate.
  injection Hb as <-. split; [reflexivity|]. split.
  - intros e. rewrite Hadd. simpl. tauto.
  - intros Hnd. rewrite (Hadd' Hnd). apply withoutCounterpart_nil.
Qed.

Lemma getEventChanges_diff_witness :
  getEventChanges (Modification ex_scheme3 ex_schemeAfter) ex_eventType
  = ok (map Removal (withoutCounterpart (ex_entries ex_schemeAfter) (ex_entries ex_scheme3))
          ++ map Addition
               (withoutCounterpart (ex_entries ex_scheme3) (ex_entries ex_schemeAfter)))
  /\ map elemName (withoutCounterpart (ex_entries ex_schemeAfter) (ex_entries ex_scheme3))
     = ["1-Group-undefined"]
  /\ map elemName (withoutCounterpart (ex_entries ex_scheme3) (ex_entries ex_schemeAfter))
     = ["3-Group-g"].
Proof.
  destruct (getEventChanges_diff (Modification ex_scheme3 ex_schemeAfter)
              (mkElemID "jira" "NotificationSchemeEvent") ex_schemeAfter
              (ex_entries ex_scheme3) (ex_entries ex_schemeAfter)
              eq_refl eq_refl eq_refl)
    as (toRemove & toAdd & Heq & _ & _ & Hadd & Hrem & _).
  assert (Ha : NoDup (map elemName (ex_entries ex_schemeAfter))).
  { vm_compute. repeat constructor; simpl; intuition discriminate. }
  assert (Hb : NoDup (map elemName (ex_entries ex_scheme3))).
  { vm_compute. repeat constructor; simpl; intuition discriminate. }
  rewrite (Hadd Ha), (Hrem Hb) in Heq.
  split; [exact Heq|]. split; reflexivity.
Defined.

(* ------------------------------------------------------------------ *)
(** ** The calls of the apply loop *)

Section Calls.
Variable client : JiraClient.

Lemma start_addition (e : InstanceElement) (st : DeployState) :
  calls (fst (start client (Addition e) st)) = calls st ++ createCalls [e]
  /\ forall x r, snd (start client (Addition e) st) <> AwaitDelete x r.
Proof.
  unfold start, createCalls. cbn [getChangeData flat_map].
  assert (Hc : calls (if isUndefined (notificationIdsOf st)
                      then setNotificationIds (VObj []) st else st) = calls st)
    by (destruct (isUndefined _); reflexivity).
  destruct (putData e) as [err|data]; cbn [fst snd issue calls].
  - rewrite Hc, !app_nil_r. split; [reflexivity | discriminate].
  - rewrite Hc, app_nil_r. split; [reflexivity | discriminate].
Qed.

Lemma turns_start_additions (l : list InstanceElement) (st : DeployState) :
  calls (fst (turns (start client) (map Addition l) st))
  = calls st ++ createCalls l.
Proof.
  revert st. induction l as [|e l IH]; intros st; cbn [turns map].
  - cbn [fst]. unfold createCalls. simpl. rewrite app_nil_r. reflexivity.
  - destruct (start_addition e st) as [Hs _].
    destruct (start client (Addition e) st) as [st1 t] eqn:E1.
    specialize (IH st1).
    destruct (turns (start client) (map Addition l) st1) as [st2 ts] eqn:E2.
    cbn [fst] in *. rewrite IH, Hs. unfold createCalls. simpl.
    rewrite app_nil_r, app_assoc. reflexivity.
Qed.

Lemma resume_calls (t : Task) (st : DeployState) :
  exists extra, calls (fst (resume client t st)) = calls st ++ extra
                /\ forallb isGetSinglePage extra = true.
Proof.
  destruct t as [r|e [err|x]|e [err|x]|e [err|x]]; cbn [resume fst];
    try (exists []; rewrite app_nil_r; split; reflexivity).
  - destruct (deleteIn _ _); exists []; rewrite app_nil_r; split; reflexivity.
  - eexists [_]. split; reflexivity.
  - destruct (isPageResponse x && _);
      [destruct (bind _ _)|]; exists []; rewrite app_nil_r; split; reflexivity.
Qed.

Lemma turns_resume_calls (ts : list Task) (st : DeployState) :
  exists extra, calls (fst (turns (resume client) ts st)) = calls st ++ extra
                /\ forallb isGetSinglePage extra = true.
Proof.
  revert st. induction ts as [|t ts IH]; intros st; cbn [turns].
  - exists []. cbn [fst]. rewrite app_nil_r. split; reflexivity.
  - destruct (resume_calls t st) as (x1 & H1 & G1).
    destruct (resume client t st) as [st1 t'].
    destruct (IH st1) as (x2 & H2 & G2).
    destruct (turns (resume client) ts st1) as [st2 ts'].
    cbn [fst] in *. exists (x1 ++ x2). rewrite H2, H1, app_assoc.
    split; [reflexivity|]. rewrite forallb_app, G1, G2. reflexivity.
Qed.

Lemma untilRejection_calls (ts : list Task) (st : DeployState) :
  exists extra, calls (untilRejection client ts st) = calls st ++ extra
                /\ forallb isGetSinglePage extra = true.
Proof.
  revert st. induction ts as [|t ts IH]; intros st; cbn [untilRejection].
  - exists []. rewrite app_nil_r. split; reflexivity.
  - destruct (resume_calls t st) as (x1 & H1 & G1).
    destruct (resume client t st) as [st1 t']. cbn [fst] in H1.
    assert (Hgo : exists extra,
               calls (untilRejection client ts st1) = calls st ++ extra
               /\ forallb isGetSinglePage extra = true).
    { destruct (IH st1) as (x2 & H2 & G2). exists (x1 ++ x2).
      rewrite H2, H1, app_assoc. split; [reflexivity|].
      rewrite forallb_app, G1, G2. reflexivity. }
    destruct t' as [[e|u]| | |]; try exact Hgo. exists x1. auto.
Qed.

(** Whatever the round in which the [await] ends, the calls issued by
    then are those of the synchronous parts followed by read-backs. *)
Lemma awaitCallbacks_calls (cs : list (Change InstanceElement)) (st : DeployState) :
  exists extra,
    calls (fst (awaitCallbacks client cs st))
    = calls (fst (turns (start client) cs st)) ++ extra
    /\ forallb isGetSinglePage extra = true.
Proof.
  unfold awaitCallbacks. destruct (turns (start client) cs st) as [st0 round0].
  destruct (turns_resume_calls round0 st0) as (x1 & H1 & G1).
  destruct (untilRejection_calls round0 st0) as (y1 & K1 & L1).
  destruct (turns (resume client) round0 st0) as [st1 round1].
  destruct (untilRejection_calls round1 st1) as (y2 & K2 & L2).
  destruct (turns (resume client) round1 st1) as [st2 round2].
  cbn [fst] in *. destruct (firstRejection round0).
  - exists []. rewrite app_nil_r. split; reflexivity.
  - destruct (firstRejection round1).
    + exists y1. auto.
    + exists (x1 ++ y2). rewrite K2, H1, app_assoc. split; [reflexivity|].
      rewrite forallb_app, G1, L2. reflexivity.
Qed.
End Calls.

Lemma filter_isPut_gets (l extra : list Request) :
  forallb isGetSinglePage extra = true ->
  filter isPut (l ++ extra) = filter isPut l
  /\ filter isDelete (l ++ extra) = filter isDelete l.
Proof.
  intros H. rewrite !filter_app.
  assert (Hx : filter isPut extra = [] /\ filter isDelete extra = []).
  { induction extra as [|r extra IH]; [auto|].
    simpl in H. apply andb_true_iff in H. destruct H as [Hr Hrest].
    destruct r; try discriminate. simpl. auto. }
  destruct Hx as [-> ->]. rewrite !app_nil_r. auto.
Qed.

Lemma createCalls_puts (l : list InstanceElement) :
  filter isPut (createCalls l) = createCalls l
  /\ filter isDelete (createCalls l) = [].
Proof.
  unfold createCalls. induction l as [|e l [IH1 IH2]]; cbn [flat_map]; [auto|].
  rewrite !filter_app, IH1, IH2. destruct (putData e); simpl; auto.
Qed.

Lemma createCalls_length (l : list InstanceElement) :
  (forall e, In e l -> exists data, putData e = ok data) ->
  List.length (createCalls l) = List.length l.
Proof.
  unfold createCalls. induction l as [|e l IH]; intros H; cbn [flat_map]; [reflexivity|].
  destruct (H e (or_introl eq_refl)) as (data & ->).
  rewrite length_app, IH by (intros; apply H; simpl; auto). reflexivity.
Qed.

Lemma getEventChanges_addition (after : InstanceElement) (et : ElemID)
  (entries : list InstanceElement) :
  getEventInstances after et = ok entries ->
  getEventChanges (Addition after) (ObjectType et)
  = ok (map Addition (Object_values (keyBy getFullName entries))).
Proof.
  intros H. unfold getEventChanges. cbn [getEventType bind ok data_after].
  rewrite H. cbn [bind ok]. unfold removedEventsOf, newEventsOf.
  change (keyBy getFullName (@nil InstanceElement))
    with (@nil (string * InstanceElement)).
  rewrite (filter_ext _ (fun _ => true) (fun _ => eq_refl)).
  assert (Hf : forall xs : list InstanceElement, filter (fun _ => true) xs = xs)
    by (induction xs as [|x xs IH]; simpl; congruence).
  rewrite Hf. reflexivity.
Qed.

Lemma mapM_flagged (k : string) (p : Value -> bool) (events : list Value)
  (flagged : list (bool * Value)) :
  mapM (fun event => x <- prop event k ;; ok (p x, event)) events = ok flagged ->
  map snd (filter fst flagged) = filter (fun event => p (get event k)) events.
Proof.
  intros H. apply mapM_ok_inv in H.
  induction H as [|event pr events flagged Hpr _ IH]; [reflexivity|].
  destruct (prop event k) as [err|x] eqn:Ep; [discriminate|].
  apply prop_ok_inv in Ep. destruct Ep as [_ ->].
  cbn [bind ok] in Hpr. injection Hpr as <-. cbn [filter fst].
  destruct (p (get event k)); cbn [map snd]; rewrite IH; reflexivity.
Qed.

Lemma lookup_pickDefined (k : string) (v : Value) (fs : Fields) :
  lookup k fs = Some v -> isDefined v = true -> lookup k (pickDefined fs) = Some v.
Proof.
  unfold pickDefined. induction fs as [|[k0 v0] fs IH]; simpl; [discriminate|].
  destruct (String.eqb k k0) eqn:E.
  - intros H Hv. injection H as ->. rewrite Hv. simpl. rewrite E. reflexivity.
  - intros H Hv. destruct (isDefined v0); simpl; [rewrite E|]; auto.
Qed.

(** The notifications an entry carries are those of every event of
    the snapshot whose event type is the entry's. *)
Lemma convertValuesToJSPBody_notifications (values : Fields)
  (instance : InstanceElement) (body : Fields) :
  convertValuesToJSPBody values instance = ok body ->
  toString (mappedType (get (VObj values) "type")) <> "notifications" ->
  exists events,
    get (VObj (value instance)) "notificationSchemeEvents" = VArr events
    /\ get (VObj body) "notifications"
       = VArr (flat_map (fun event => flatten1 (get event "notifications"))
                 (filter (fun event => strict_eq (get event "eventType")
                                         (get (VObj values) "eventType")) events)).
Proof.
  unfold convertValuesToJSPBody. cbv zeta. intros H Hne.
  destruct (get (VObj (value instance)) "notificationSchemeEvents")
    as [| | | | |events|]; try discriminate.
  unfold asArray in H. cbn [bind ok] in H.
  match type of H with
  | context [mapM ?f events] => destruct (mapM f events) as [err|flagged] eqn:E
  end; [discriminate|].
  cbn [bind ok] in H.
  apply (mapM_flagged "eventType"
           (fun x => strict_eq x (get (VObj values) "eventType"))) in E.
  rewrite E in H. exists events. split; [reflexivity|].
  match type of H with
  | context [pickDefined (assign ?k ?v ?lit)] =>
      assert (Hl : exists ns, lookup "notifications" (assign k v lit) = Some (VArr ns)
                              /\ lookup "notifications" lit = Some (VArr ns));
      [| set (fs := assign k v lit) in * ]
  end.
  { eexists. rewrite lookup_assign_ne
      by (intros Heq; apply Hne; symmetry; exact Heq).
    split; reflexivity. }
  destruct Hl as (ns & Hl & Hns).
  assert (Hbody : body = pickDefined fs) by (unfold ok in H; congruence).
  rewrite Hbody. unfold get.
  rewrite (lookup_pickDefined _ _ _ Hl eq_refl).
  cbn in Hns. injection Hns as <-. reflexivity.
Qed.

(** C2, amended: for an addition change whose projected entries carry
    pairwise distinct identity keys and well-formed bodies, the diff
    adds every entry and removes none, and the apply loop issues
    exactly one create call per added entry, in the order of the
    entries (three calls for three entries, however many event types
    they share), and no delete call; the body of an entry's call is
    built from the notifications the entry carries, which are those of
    every event of the after-snapshot that has the entry's event
    type. *)
Theorem addition_issues_one_create_per_entry (client : JiraClient)
  (after : InstanceElement) (et : ElemID) (entries : list InstanceElement) :
  getEventInstances after et = ok entries ->
  NoDup (map elemName entries) ->
  (forall e, In e entries -> exists data, putData e = ok data) ->
  let st := fst (deployEvents client (Addition after) (ObjectType et)) in
  getEventChanges (Addition after) (ObjectType et) = ok (map Addition entries)
  /\ filter isPut (calls st) = createCalls entries
  /\ List.length (filter isPut (calls st)) = List.length entries
  /\ filter isDelete (calls st) = []
  /\ forall values body,
      convertValuesToJSPBody values after = ok body ->
      toString (mappedType (get (VObj values) "type")) <> "notifications" ->
      exists events,
        get (VObj (value after)) "notificationSchemeEvents" = VArr events
        /\ get (VObj body) "notifications"
           = VArr (flat_map (fun event => flatten1 (get event "notifications"))
                     (filter (fun event => strict_eq (get event "eventType")
                                             (get (VObj values) "eventType")) events)).
Proof.
  intros Hent Hnd Hput. cbv zeta.
  pose proof (getEventChanges_addition _ _ _ Hent) as Hdiff.
  destruct (getEventInstances_entries _ _ _ Hent) as [Htype _].
  rewrite values_keyBy_NoDup in Hdiff by (apply (NoDup_fullName et); assumption).
  assert (Hcalls :
    let st := fst (deployEvents client (Addition after) (ObjectType et)) in
    filter isPut (calls st) = createCalls entries
    /\ filter isDelete (calls st) = []).
  { cbv zeta. unfold deployEvents. rewrite Hdiff. unfold ok. cbn [getChangeData].
    pose proof (turns_start_additions client entries (mkState (value after) [])) as H0.
    destruct (awaitCallbacks_calls client (map Addition entries)
                (mkState (value after) [])) as (x & H1 & G1).
    rewrite H1, H0. cbn [calls app].
    destruct (filter_isPut_gets (createCalls entries) x G1) as [-> ->].
    apply createCalls_puts. }
  cbv zeta in Hcalls. destruct Hcalls as [Hp Hd].
  split; [exact Hdiff|]. split; [exact Hp|].
  split; [rewrite Hp; apply createCalls_length; exact Hput|].
  split; [exact Hd|].
  intros values body. apply convertValuesToJSPBody_notifications.
Qed.

(* ================================================================== *)
(** * Further properties of the code *)

(** ** The identity key on dash-free fields *)

Lemma split_at_dash (a b r r' : string) :
  dashFree a = true -> dashFree b = true ->
  (a ++ "-" ++ r = b ++ "-" ++ r')%string -> a = b /\ r = r'.
Proof.
  revert b. induction a as [|c a IH]; intros [|c' b] Ha Hb H; simpl in *.
  - injection H as H. auto.
  - injection H as Hc H. subst c'. discriminate Hb.
  - injection H as Hc H. subst c. discriminate Ha.
  - injection H as Hc H. subst c'.
    apply andb_true_iff in Ha. apply andb_true_iff in Hb.
    destruct Ha as [_ Ha]. destruct Hb as [_ Hb].
    destruct (IH b Ha Hb H) as [-> ->]. auto.
Qed.

(** X1: when the renderings of the event type and of the channel type
    of two entries hold no ["-"], the entries carry the same identity
    key exactly when the renderings of their three fields agree. *)
Theorem getEventKey_injective_dashFree (e1 e2 : EventValues) :
  dashFree (toString (eventType e1)) = true ->
  dashFree (toString (type e1)) = true ->
  dashFree (toString (eventType e2)) = true ->
  dashFree (toString (type e2)) = true ->
  (getEventKey e1 = getEventKey e2
   <-> toString (eventType e1) = toString (eventType e2)
       /\ toString (type e1) = toString (type e2)
       /\ toString (parameter e1) = toString (parameter e2)).
Proof.
  intros H1 H2 H3 H4. unfold getEventKey. split.
  - intros H. apply split_at_dash in H; [|assumption|assumption].
    destruct H as [He H]. apply split_at_dash in H; [|assumption|assumption].
    tauto.
  - intros (-> & -> & ->). reflexivity.
Qed.

Lemma getEventKey_injective_dashFree_witness :
  getEventKey (mkEvent (VNum 1) (VStr "User") (VStr "a-b") VUndef)
  = getEventKey (mkEvent (VStr "1") (VStr "User") (VStr "a-b") (VNum 9))
  <-> toString (VNum 1) = toString (VStr "1")
      /\ toString (VStr "User") = toString (VStr "User")
      /\ toString (VStr "a-b") = toString (VStr "a-b").
Proof.
  exact (getEventKey_injective_dashFree
           (mkEvent (VNum 1) (VStr "User") (VStr "a-b") VUndef)
           (mkEvent (VStr "1") (VStr "User") (VStr "a-b") (VNum 9))
           eq_refl eq_refl eq_refl eq_refl).
Defined.

Lemma lookup_remove_ne {A} (k k' : string) (fs : list (string * A)) :
  k <> k' -> lookup k (remove k' fs) = lookup k fs.
Proof.
  intros Hne. unfold remove. induction fs as [|[k0 v0] fs IH]; simpl; [reflexivity|].
  destruct (String.eqb k' k0) eqn:E; simpl.
  - apply String.eqb_eq in E. subst k0.
    apply String.eqb_neq in Hne. rewrite Hne. exact IH.
  - rewrite IH. reflexivity.
Qed.

Lemma lookup_remove_same {A} (k : string) (fs : list (string * A)) :
  lookup k (remove k fs) = None.
Proof.
  unfold remove. induction fs as [|[k0 v0] fs IH]; simpl; [reflexivity|].
  destruct (String.eqb k k0) eqn:E; simpl; [exact IH|].
  rewrite E. exact IH.
Qed.

Lemma get_remove_ne (k k' : string) (fs : Fields) :
  k <> k' -> get (VObj (remove k' fs)) k = get (VObj fs) k.
Proof. intros H. simpl. rewrite lookup_remove_ne; auto. Qed.

(* ------------------------------------------------------------------ *)
(** ** The two validators *)

(** X2: the guard of [preDeploy] and [onDeploy] lets through
    [undefined] and every object, whatever its fields, and nothing
    else. *)
Theorem isNotificationSchemeEvent_iff (v : Value) :
  isNotificationSchemeEvent v = true <-> v = VUndef \/ exists fs, v = VObj fs.
Proof.
  destruct v; try (split; [discriminate | intros [H | (fs & H)]; discriminate]).
  - split; [auto | reflexivity].
  - split; [eauto | intros _; apply isNotificationSchemeEvent_object].
Qed.

(** X3: the scheme validator looks at the [notificationSchemeEvents]
    field of an object and at nothing else of it: two objects that
    agree on the field get the same verdict, so adding, changing or
    deleting any other field changes nothing. *)
Theorem isNotificationScheme_unknown_fields (fs fs' : Fields) (k : string) (x : Value) :
  (get (VObj fs) "notificationSchemeEvents" = get (VObj fs') "notificationSchemeEvents" ->
   isNotificationScheme (VObj fs) = isNotificationScheme (VObj fs'))
  /\ (k <> "notificationSchemeEvents" ->
      isNotificationScheme (VObj (assign k x fs)) = isNotificationScheme (VObj fs)
      /\ isNotificationScheme (VObj (remove k fs)) = isNotificationScheme (VObj fs)).
Proof.
  assert (Hg : forall a b : Fields,
             get (VObj a) "notificationSchemeEvents"
             = get (VObj b) "notificationSchemeEvents" ->
             isNotificationScheme (VObj a) = isNotificationScheme (VObj b)).
  { intros a b H. unfold isNotificationScheme, NOTIFICATION_SCHEME.
    cbn [validates isUndefined]. rewrite H. reflexivity. }
  split; [apply Hg|]. intros Hk. split; apply Hg.
  - apply get_assign_ne. congruence.
  - apply get_remove_ne. congruence.
Qed.

(* ------------------------------------------------------------------ *)
(** ** The projection *)

Lemma mapM_all_ok {A B} (f : A -> Result B) (g : A -> B) (l : list A) :
  (forall a, In a l -> f a = ok (g a)) -> mapM f l = ok (map g l).
Proof.
  induction l as [|a l IH]; intros H; simpl; [reflexivity|].
  rewrite (H a (or_introl eq_refl)). cbn [bind ok].
  rewrite IH by (intros; apply H; simpl; auto). reflexivity.
Qed.

Lemma mapM_TypeError {A B} (f : A -> Result B) (p : A -> bool) (l : list A) :
  (forall a, In a l -> if p a then exists b, f a = ok b
                       else exists msg, f a = inl (TypeError msg)) ->
  forallb p l = false ->
  exists msg, mapM f l = inl (TypeError msg).
Proof.
  induction l as [|a l IH]; intros H Hp; simpl in *; [discriminate|].
  pose proof (H a (or_introl eq_refl)) as Ha.
  destruct (p a).
  - destruct Ha as (b & ->). cbn [bind ok].
    destruct IH as (msg & ->); [intros; apply H; auto | exact Hp |].
    cbn [bind]. eauto.
  - destruct Ha as (msg & ->). cbn [bind]. eauto.
Qed.

Lemma projectEvent_cases (event : Value) :
  let project :=
    notifications <- prop event "notifications" ;;
    ns <- asArray (nullish_or notifications (VArr [])) "map" ;;
    mapM (fun notification =>
            t <- prop notification "type" ;;
            ok {| eventType := get event "eventType";
                  type := t;
                  parameter := get notification "parameter";
                  id := get notification "id" |}) ns in
  if projectableEvent event
  then project = ok (entriesOfEvent event)
  else exists msg, project = inl (TypeError msg).
Proof.
  cbv zeta. unfold projectableEvent, entriesOfEvent, prop.
  destruct (isNullish event) eqn:En; cbn [negb andb bind ok throw]; [eauto|].
  destruct (get event "notifications") as [| | | | |ns|] eqn:Eg;
    cbn [nullish_or isNullish asArray bind ok throw itemsOf map mapM];
    try reflexivity; eauto.
  destruct (forallb (fun n => negb (isNullish n)) ns) eqn:Ens.
  - apply mapM_all_ok. intros n Hn. rewrite forallb_forall in Ens.
    apply Ens in Hn. apply negb_true_iff in Hn. rewrite Hn. reflexivity.
  - apply (mapM_TypeError _ (fun n => negb (isNullish n))); [|exact Ens].
    intros n _. destruct (isNullish n); cbn [negb bind ok throw]; eauto.
Qed.

Lemma getEventsValues_array (instanceValues : Fields) (events : list Value) :
  get (VObj instanceValues) "notificationSchemeEvents" = VArr events ->
  forallb projectableEvent events = true ->
  getEventsValues instanceValues = ok (flat_map entriesOfEvent events).
Proof.
  intros Eg Ep. unfold getEventsValues. rewrite Eg.
  cbn [nullish_or isNullish asArray bind ok].
  erewrite mapM_all_ok.
  - cbn [bind ok]. rewrite <- flat_map_concat_map. reflexivity.
  - intros event He. rewrite forallb_forall in Ep.
    pose proof (projectEvent_cases event) as H. cbv zeta in H.
    rewrite (Ep event He) in H. exact H.
Qed.

Lemma getEventsValues_readable (instanceValues : Fields) :
  projectable instanceValues = true ->
  getEventsValues instanceValues
  = ok (flat_map entriesOfEvent
          (itemsOf (get (VObj instanceValues) "notificationSchemeEvents"))).
Proof.
  unfold projectable.
  destruct (get (VObj instanceValues) "notificationSchemeEvents")
    as [| | | | |events|] eqn:Eg; try discriminate.
  - intros _. unfold getEventsValues. rewrite Eg. reflexivity.
  - intros _. unfold getEventsValues. rewrite Eg. reflexivity.
  - intros Ep. apply getEventsValues_array; assumption.
Qed.

Lemma getEventsValues_unreadable (instanceValues : Fields) :
  projectable instanceValues = false ->
  exists msg, getEventsValues instanceValues = inl (TypeError msg).
Proof.
  unfold projectable, getEventsValues.
  destruct (get (VObj instanceValues) "notificationSchemeEvents")
    as [| | | | |events|] eqn:Eg; try discriminate;
    cbn [nullish_or isNullish asArray bind ok throw]; eauto.
  intros Ep.
  match goal with
  | |- context [mapM ?f events] =>
      destruct (mapM_TypeError f projectableEvent events) as (msg & ->)
  end; [|exact Ep|cbn [bind]; eauto].
  intros event _. pose proof (projectEvent_cases event) as H. cbv zeta in H.
  destruct (projectableEvent event); eauto.
Qed.

(** X4: [getEventsValues] reads a snapshot exactly when its events
    field is absent, [null] or an array of non-nullish events whose
    [notifications] are each absent, [null] or an array of non-nullish
    items; it then returns one entry per notification, events outer and
    notifications inner, in source order; on every other snapshot it
    throws a [TypeError]. *)
Theorem getEventsValues_closed_form (instanceValues : Fields) :
  if projectable instanceValues
  then getEventsValues instanceValues
       = ok (flat_map entriesOfEvent
               (itemsOf (get (VObj instanceValues) "notificationSchemeEvents")))
  else exists msg, getEventsValues instanceValues = inl (TypeError msg).
Proof.
  destruct (projectable instanceValues) eqn:Ep.
  - apply getEventsValues_readable. exact Ep.
  - apply getEventsValues_unreadable. exact Ep.
Qed.

Lemma transformNotification_object (fs : Fields) :
  exists fs',
    transformNotification (VObj fs) = ok (VObj fs')
    /\ get (VObj fs') "type" = get (VObj fs) "notificationType"
    /\ get (VObj fs') "parameter" = get (VObj fs) "parameter"
    /\ get (VObj fs') "id" = get (VObj fs) "id"
    /\ lookup "notificationType" fs' = None
    /\ lookup "additionalProperties" fs' = None
    /\ lookup "user" fs' = None.
Proof.
  eexists. split; [reflexivity|].
  repeat split.
  - rewrite !get_remove_ne by discriminate. apply get_assign_same.
  - rewrite !get_remove_ne, get_assign_ne by discriminate. reflexivity.
  - rewrite !get_remove_ne, get_assign_ne by discriminate. reflexivity.
  - rewrite !lookup_remove_ne by discriminate. apply lookup_remove_same.
  - rewrite lookup_remove_ne by discriminate. apply lookup_remove_same.
  - apply lookup_remove_same.
Qed.

Lemma transformNotifications_descriptors (ns : list Value) :
  Forall channelDescriptor ns ->
  exists ns',
    mapM transformNotification ns = ok ns'
    /\ forallb (fun n => negb (isNullish n)) ns' = true
    /\ forall event event',
        get event' "eventType" = get (get event "event") "id" ->
        map (fun n => mkEvent (get event' "eventType") (get n "type")
                        (get n "parameter") (get n "id")) ns'
        = map (fun n => mkEvent (get (get event "event") "id")
                          (get n "notificationType") (get n "parameter") (get n "id")) ns.
Proof.
  induction 1 as [|n ns (fs & s & -> & _) _ (ns' & Hns' & Hdef & Hmap)].
  - exists []. repeat split; reflexivity.
  - destruct (transformNotification_object fs) as (fs' & Ht & Hty & Hp & Hi & _).
    exists (VObj fs' :: ns'). cbn [mapM]. rewrite Ht, Hns'. cbn [bind ok].
    split; [reflexivity|]. split; [cbn [forallb isNullish negb andb]; exact Hdef|].
    intros event event' He. cbn [map]. rewrite (Hmap event event' He).
    rewrite Hty, Hp, Hi, He. reflexivity.
Qed.

Lemma transformNotificationEvent_schemeEvent (e : Value) :
  schemeEvent e ->
  exists e',
    transformNotificationEvent e = ok e'
    /\ projectableEvent e' = true
    /\ entriesOfEvent e' = wireEntriesOfEvent e
    /\ get e' "event" = VUndef.
Proof.
  intros ((fs & ->) & (efs & Hev & _) & Hns).
  unfold transformNotificationEvent.
  set (fs1 := remove "event" (assign "eventType" (optGet (get (VObj fs) "event") "id") fs)).
  assert (Het : get (VObj fs1) "eventType" = get (get (VObj fs) "event") "id").
  { unfold fs1. rewrite get_remove_ne, get_assign_same by discriminate.
    rewrite Hev. reflexivity. }
  assert (Hn1 : get (VObj fs1) "notifications" = get (VObj fs) "notifications").
  { unfold fs1. rewrite get_remove_ne, get_assign_ne by discriminate. reflexivity. }
  assert (He1 : get (VObj fs1) "event" = VUndef).
  { unfold fs1. cbn [get]. rewrite lookup_remove_same. reflexivity. }
  rewrite Hn1.
  destruct Hns as [Hu | (ns & Hns & Hall)].
  - rewrite Hu. cbn [isNullish]. exists (VObj fs1). split; [reflexivity|].
    unfold projectableEvent, entriesOfEvent, wireEntriesOfEvent.
    rewrite Hn1, Hu. auto.
  - rewrite Hns. cbn [isNullish asArray bind ok].
    destruct (transformNotifications_descriptors ns Hall) as (ns' & Hns' & Hdef & Hmap).
    rewrite Hns'. cbn [bind ok].
    exists (VObj (assign "notifications" (VArr ns') fs1)).
    split; [reflexivity|].
    unfold projectableEvent, entriesOfEvent, wireEntriesOfEvent.
    rewrite get_assign_same, Hns. cbn [isNullish negb andb itemsOf].
    split; [exact Hdef|]. split.
    + apply Hmap. rewrite get_assign_ne by discriminate. exact Het.
    + rewrite get_assign_ne by discriminate. exact He1.
Qed.

(** X5: on a payload the validator accepts,
    [transformAllNotificationEvents] does not throw, and what it
    returns is a snapshot [getEventsValues] can read: the entries it
    projects are, in order, one per remote notification, with the
    event's [event.id] as event type and the notification's
    [notificationType] as channel type, and its parameter and id. *)
Theorem transform_then_project (v : Value) :
  isNotificationScheme v = true ->
  exists fs,
    transformAllNotificationEvents v = ok (VObj fs)
    /\ getEventsValues fs
       = ok (flat_map wireEntriesOfEvent (itemsOf (get v "notificationSchemeEvents"))).
Proof.
  intros Hv. unfold transformAllNotificationEvents. rewrite Hv. cbn [negb].
  apply isNotificationScheme_wellShaped in Hv.
  destruct Hv as ((fs & ->) & [Hu | (es & Hes & Hall)]).
  - rewrite Hu. cbn [isNullish]. exists fs. split; [reflexivity|].
    unfold getEventsValues. rewrite Hu. reflexivity.
  - rewrite Hes. cbn [isNullish asArray bind ok itemsOf].
    assert (Hm : exists es',
               mapM transformNotificationEvent es = ok es'
               /\ forallb projectableEvent es' = true
               /\ flat_map entriesOfEvent es' = flat_map wireEntriesOfEvent es).
    { clear Hes. induction Hall as [|e es He _ (es' & Hes' & Hp & Hf)].
      - exists []. repeat split; reflexivity.
      - destruct (transformNotificationEvent_schemeEvent e He)
          as (e' & He' & Hpe & Hee & _).
        exists (e' :: es'). cbn [mapM]. rewrite He', Hes'. cbn [bind ok].
        split; [reflexivity|]. cbn [forallb flat_map].
        rewrite Hpe, Hp, Hee, Hf. auto. }
    destruct Hm as (es' & Hes' & Hp & Hf). rewrite Hes'. cbn [bind ok].
    eexists. split; [reflexivity|]. rewrite <- Hf.
    apply getEventsValues_array; [apply get_assign_same | exact Hp].
Qed.

(* ------------------------------------------------------------------ *)
(** ** The entries of the diff *)

Lemma NoDup_keys_assign {A} (k : string) (a : A) (m : list (string * A)) :
  NoDup (map fst m) -> NoDup (map fst (assign k a m)).
Proof.
  intros Hnd. rewrite keys_assign. destruct (lookup k m) eqn:E; [exact Hnd|].
  apply lookup_None_keys in E.
  apply NoDup_rev in Hnd. rewrite <- (rev_involutive (_ ++ _)).
  apply NoDup_rev. rewrite rev_app_distr. simpl. constructor; [|exact Hnd].
  rewrite <- in_rev. exact E.
Qed.

Lemma get_pickDefined (k : string) (fs : Fields) :
  NoDup (map fst fs) -> get (VObj (pickDefined fs)) k = get (VObj fs) k.
Proof.
  unfold get, pickDefined. induction fs as [|[k0 v0] fs IH]; simpl; [reflexivity|].
  intros Hnd. inversion Hnd as [|? ? Hk0 Hfs]; subst.
  destruct (isDefined v0) eqn:Ed; simpl.
  - destruct (String.eqb k k0); [reflexivity | auto].
  - destruct (String.eqb k k0) eqn:E; [|auto].
    apply String.eqb_eq in E. subst k0.
    destruct v0; try discriminate.
    destruct (lookup k (filter (fun kv => isDefined (snd kv)) fs)) eqn:El;
      [|reflexivity].
    exfalso. apply Hk0. apply lookup_In in El. apply filter_In in El.
    destruct El as [El _]. apply (in_map fst) in El. exact El.
Qed.

Lemma convertValuesToJSPBody_shape (values : Fields) (instance : InstanceElement)
  (body : Fields) :
  convertValuesToJSPBody values instance = ok body ->
  exists ns,
    body = pickDefined
             (assign (toString (mappedType (get (VObj values) "type")))
                (optToString (get (VObj values) "parameter"))
                [("event", VObj [("id", get (VObj values) "eventType")]);
                 ("notifications", VArr ns);
                 ("id", get (VObj values) "id");
                 ("schemeId", get (VObj (value instance)) "id");
                 ("name", get (VObj values) "name");
                 ("eventTypeIds", get (VObj values) "eventType");
                 ("type", mappedType (get (VObj values) "type"))]).
Proof.
  unfold convertValuesToJSPBody. cbv zeta. intros H.
  destruct (asArray _ _) as [err|events]; [discriminate|]. cbn [bind] in H.
  match type of H with
  | context [mapM ?f events] => destruct (mapM f events) as [err|flagged]
  end; [discriminate|].
  cbn [bind] in H. unfold ok in H. eexists. injection H as <-. reflexivity.
Qed.

Lemma body_field (K k : string) (P : Value) (lit : Fields) :
  NoDup (map fst lit) -> K <> k ->
  get (VObj (pickDefined (assign K P lit))) k = get (VObj lit) k.
Proof.
  intros Hnd Hk. rewrite get_pickDefined by (apply NoDup_keys_assign; exact Hnd).
  apply get_assign_ne. congruence.
Qed.

Lemma body_computed_field (K : string) (P : Value) (lit : Fields) :
  NoDup (map fst lit) -> get (VObj (pickDefined (assign K P lit))) K = P.
Proof.
  intros Hnd. rewrite get_pickDefined by (apply NoDup_keys_assign; exact Hnd).
  apply get_assign_same.
Qed.

(** X6: every entry [getEventInstances] builds is named by the
    identity key of its event and typed by the event type; and unless
    the (mapped) channel type is itself one of the field names of the
    body, the body carries the identity key as [name] (so the apply
    loop files the identifier under the same key the diff compares),
    the scheme's [id] as [schemeId], the event type as [eventTypeIds],
    the mapped channel type as [type], the identifier the map holds for
    the key as [id], and the rendering of the parameter under the
    field named by the channel type. *)
Theorem getEventInstances_contract (instance : InstanceElement) (et : ElemID)
  (events : list EventValues) (entries : list InstanceElement) :
  getEventsValues (value instance) = ok events ->
  getEventInstances instance et = ok entries ->
  Forall2
    (fun ev e =>
       elemName e = getEventKey ev /\ refType e = et
       /\ (~ In (toString (mappedType (type ev))) bodyFieldNames ->
           entryName e = getEventKey ev
           /\ get (VObj (value e)) "schemeId" = get (VObj (value instance)) "id"
           /\ get (VObj (value e)) "eventTypeIds" = eventType ev
           /\ get (VObj (value e)) "type" = mappedType (type ev)
           /\ get (VObj (value e)) "id"
              = optGet (get (VObj (value instance)) "notificationIds") (getEventKey ev)
           /\ get (VObj (value e)) (toString (mappedType (type ev)))
              = optToString (parameter ev)))
    events entries.
Proof.
  intros Hev Hent. unfold getEventInstances in Hent. rewrite Hev in Hent.
  cbn [bind ok] in Hent. apply mapM_ok_inv in Hent.
  revert Hent. apply Forall2_impl. intros ev e He.
  destruct (convertValuesToJSPBody _ _) as [err|body] eqn:Eb; [discriminate|].
  cbn [bind ok] in He. injection He as <-. cbn [elemName refType value].
  split; [reflexivity|]. split; [reflexivity|]. intros HK.
  apply convertValuesToJSPBody_shape in Eb. destruct Eb as (ns & Hbody).
  cbn [get lookup spreadEvent String.eqb Ascii.eqb Bool.eqb] in Hbody.
  subst body.
  match goal with
  | |- context [pickDefined (assign ?K ?P ?lit)] =>
      assert (Hnd : NoDup (map fst lit))
        by (cbn [map fst]; repeat constructor; cbn [In]; intuition discriminate);
      pose proof (fun k Hk => body_field K k P lit Hnd Hk) as Hf;
      pose proof (body_computed_field K P lit Hnd) as Hc
  end.
  unfold bodyFieldNames in HK. cbn [In] in HK.
  unfold entryName. cbn [value].
  repeat split.
  - rewrite Hf by (intros Heq; apply HK; rewrite Heq; tauto). reflexivity.
  - rewrite Hf by (intros Heq; apply HK; rewrite Heq; tauto). reflexivity.
  - rewrite Hf by (intros Heq; apply HK; rewrite Heq; tauto). reflexivity.
  - rewrite Hf by (intros Heq; apply HK; rewrite Heq; tauto). reflexivity.
  - rewrite Hf by (intros Heq; apply HK; rewrite Heq; tauto). reflexivity.
  - exact Hc.
Qed.

Lemma getEventInstances_contract_witness :
  Forall2
    (fun ev e =>
       elemName e = getEventKey ev
       /\ refType e = mkElemID "jira" "NotificationSchemeEvent"
       /\ (~ In (toString (mappedType (type ev))) bodyFieldNames ->
           entryName e = getEventKey ev
           /\ get (VObj (value e)) "schemeId" = get (VObj (value ex_schemeTwo)) "id"
           /\ get (VObj (value e)) "eventTypeIds" = eventType ev
           /\ get (VObj (value e)) "type" = mappedType (type ev)
           /\ get (VObj (value e)) "id"
              = optGet (get (VObj (value ex_schemeTwo)) "notificationIds")
                  (getEventKey ev)
           /\ get (VObj (value e)) (toString (mappedType (type ev)))
              = optToString (parameter ev)))
    [mkEvent (VNum 1) (VStr "User") (VStr "a") VUndef;
     mkEvent (VNum 2) (VStr "User") (VStr "b") VUndef]
    [ex_first; ex_second].
Proof.
  exact (getEventInstances_contract ex_schemeTwo
           (mkElemID "jira" "NotificationSchemeEvent")
           [mkEvent (VNum 1) (VStr "User") (VStr "a") VUndef;
            mkEvent (VNum 2) (VStr "User") (VStr "b") VUndef]
           [ex_first; ex_second] eq_refl eq_refl).
Defined.

(* ------------------------------------------------------------------ *)
(** ** When the diff exists, and what it never holds *)

Lemma getEventInstances_readable (instance : InstanceElement) (et : ElemID) :
  projectable (value instance) = true ->
  exists entries, getEventInstances instance et = ok entries.
Proof.
  intros Hp. unfold getEventInstances.
  rewrite (getEventsValues_readable _ Hp). cbn [bind ok].
  unfold projectable in Hp.
  destruct (get (VObj (value instance)) "notificationSchemeEvents")
    as [| | | | |events|] eqn:Eg; try discriminate;
    cbn [itemsOf flat_map mapM]; eauto.
  erewrite mapM_all_ok; [eauto|].
  intros ev _. unfold convertValuesToJSPBody. cbv zeta. rewrite Eg.
  cbn [asArray bind ok].
  erewrite (mapM_all_ok _ (fun event =>
              (strict_eq (get event "eventType") _, event))).
  - cbn [bind ok]. reflexivity.
  - intros event He. rewrite forallb_forall in Hp. apply Hp in He.
    unfold projectableEvent in He. apply andb_true_iff in He.
    destruct He as [He _]. apply negb_true_iff in He.
    unfold prop. rewrite He. reflexivity.
Qed.

Lemma getEventInstances_unreadable (instance : InstanceElement) (et : ElemID) :
  projectable (value instance) = false ->
  exists msg, getEventInstances instance et = inl (TypeError msg).
Proof.
  intros Hp. unfold getEventInstances.
  destruct (getEventsValues_unreadable _ Hp) as (msg & ->). cbn [bind]. eauto.
Qed.

(** X7: [getEventChanges] returns a change list exactly when the
    events field has an object type, the change is an addition or a
    modification, and both sides are snapshots [getEventsValues] can
    read; in every other case it throws, and [deployEvents] then
    rejects with that error having issued no call and touched nothing
    of the instance. *)
Theorem deployEvents_needs_diff (client : JiraClient)
  (change : Change InstanceElement) (innerType : TypeElement) :
  if diffable change innerType
  then exists changes, getEventChanges change innerType = ok changes
  else exists e,
         getEventChanges change innerType = inl e
         /\ deployEvents client change innerType
            = (mkState (value (getChangeData change)) [], inl e).
Proof.
  assert (Hfail : forall e, getEventChanges change innerType = inl e ->
            exists e', getEventChanges change innerType = inl e'
                       /\ deployEvents client change innerType
                          = (mkState (value (getChangeData change)) [], inl e')).
  { intros e He. exists e. split; [exact He|]. unfold deployEvents.
    rewrite He. reflexivity. }
  unfold diffable. destruct innerType as [et|et].
  - destruct change as [a|b|b a].
    + destruct (projectable (value a)) eqn:Ea.
      * destruct (getEventInstances_readable a et Ea) as (entries & He).
        unfold getEventChanges. cbn [getEventType bind ok data_after].
        rewrite He. cbn [bind ok]. eauto.
      * destruct (getEventInstances_unreadable a et Ea) as (msg & He).
        apply (Hfail (TypeError msg)).
        unfold getEventChanges. cbn [getEventType bind ok data_after].
        rewrite He. reflexivity.
    + eapply Hfail. reflexivity.
    + destruct (projectable (value b)) eqn:Eb; cbn [andb].
      * destruct (getEventInstances_readable b et Eb) as (before & Hb).
        destruct (projectable (value a)) eqn:Ea.
        -- destruct (getEventInstances_readable a et Ea) as (entries & He).
           unfold getEventChanges. cbn [getEventType bind ok data_after].
           rewrite Hb. cbn [bind ok]. rewrite He. cbn [bind ok]. eauto.
        -- destruct (getEventInstances_unreadable a et Ea) as (msg & He).
           apply (Hfail (TypeError msg)).
           unfold getEventChanges. cbn [getEventType bind ok data_after].
           rewrite Hb. cbn [bind ok]. rewrite He. reflexivity.
      * destruct (getEventInstances_unreadable b et Eb) as (msg & Hb).
        apply (Hfail (TypeError msg)).
        unfold getEventChanges. cbn [getEventType bind ok data_after].
        rewrite Hb. reflexivity.
  - destruct change; eapply Hfail; reflexivity.
Qed.

Lemma getEventChanges_ok_inv (change : Change InstanceElement)
  (innerType : TypeElement) (changes : list (Change InstanceElement)) :
  getEventChanges change innerType = ok changes ->
  exists et a before after,
    innerType = ObjectType et
    /\ match change with
       | Modification b _ => getEventInstances b et
       | _ => ok []
       end = ok before
    /\ data_after change = ok a
    /\ getEventInstances a et = ok after
    /\ changes
       = map Removal (removedEventsOf (keyBy getFullName before)
                        (keyBy getFullName after))
         ++ map Addition (newEventsOf (keyBy getFullName before)
                            (keyBy getFullName after)).
Proof.
  unfold getEventChanges. destruct innerType as [et|et]; [|discriminate].
  cbn [getEventType bind ok].
  destruct (match change with
            | Modification b _ => getEventInstances b et
            | _ => ok []
            end) as [err|before] eqn:Eb; [cbn [bind]; discriminate|].
  cbn [bind]. destruct (data_after change) as [err|a] eqn:Ea;
    [cbn [bind]; discriminate|].
  cbn [bind]. destruct (getEventInstances a et) as [err|after] eqn:Eafter;
    [cbn [bind]; discriminate|].
  cbn [bind]. unfold ok. intros H. injection H as <-.
  exists et, a, before, after. auto.
Qed.

Lemma no_elements {A} (l : list A) : (forall x, ~ In x l) -> l = [].
Proof.
  destruct l as [|x l]; [reflexivity|]. intros H. destruct (H x). simpl. auto.
Qed.

Lemma NoDup_elemName (et : ElemID) (l : list InstanceElement) :
  Forall (fun x => refType x = et) l ->
  NoDup (map getFullName l) -> NoDup (map elemName l).
Proof.
  intros Hl. induction Hl as [|x l Hx Hl IH]; simpl; intros Hnd; [constructor|].
  inversion Hnd as [|? ? Hn Hnd']; subst. constructor; [|auto].
  intros Hin. apply Hn. apply (In_fullName (refType x) l x); auto.
Qed.

Lemma NoDup_keys_filter (key : InstanceElement -> string)
  (keep : InstanceElement -> bool) (xs : list InstanceElement)
  (Hnd : NoDup (map key xs)) :
  NoDup (map key (filter keep xs)).
Proof.
  induction xs as [|x xs IH]; simpl in *; [constructor|].
  inversion Hnd as [|? ? Hx Hxs]; subst.
  destruct (keep x); simpl; [|auto]. constructor; [|auto].
  intros Hin. apply Hx. apply in_map_iff in Hin.
  destruct Hin as (y & Hy & Hin). apply filter_In in Hin.
  rewrite <- Hy. apply in_map. tauto.
Qed.

Lemma diff_side_keys (et : ElemID) (other side : list InstanceElement) :
  Forall (fun x => refType x = et) other ->
  Forall (fun x => refType x = et) side ->
  NoDup (map elemName
           (filter (fun instance =>
                      negb (hasField (getFullName instance) (keyBy getFullName other)))
              (Object_values (keyBy getFullName side)))).
Proof.
  intros Ho Hs. apply (NoDup_elemName et).
  - apply Forall_forall. intros e He. apply filter_In in He. destruct He as [He _].
    apply In_values_keyBy, findLast_In in He. rewrite Forall_forall in Hs. auto.
  - apply NoDup_keys_filter. apply NoDup_values_keyBy.
Qed.

(** X8: whenever [getEventChanges] returns, no identity key occurs
    twice in the change list: the removed entries have pairwise
    distinct keys, so have the added ones, and no key is both removed
    and added. *)
Theorem getEventChanges_keys_distinct (change : Change InstanceElement)
  (innerType : TypeElement) (changes : list (Change InstanceElement)) :
  getEventChanges change innerType = ok changes ->
  NoDup (map (fun c => elemName (getChangeData c)) changes).
Proof.
  intros H. apply getEventChanges_ok_inv in H.
  destruct H as (et & a & before & after & _ & Hb & _ & Ha & ->).
  assert (Hbt : Forall (fun e => refType e = et) before).
  { destruct change; try (injection Hb as <-; constructor).
    apply getEventInstances_entries in Hb. tauto. }
  destruct (getEventInstances_entries _ _ _ Ha) as [Hat _].
  unfold removedEventsOf, newEventsOf.
  rewrite map_app, !map_map. cbn [getChangeData].
  apply NoDup_app.
  - apply (diff_side_keys et); assumption.
  - apply (diff_side_keys et); assumption.
  - intros k Hr Hn. apply in_map_iff in Hr. destruct Hr as (r & <- & Hr).
    apply in_map_iff in Hn. destruct Hn as (n & Hk & Hn).
    destruct (diff_side et before after Hbt Hat) as [Hadd _].
    destruct (diff_side et after before Hat Hbt) as [Hrem _].
    cbv zeta in Hadd, Hrem. apply Hadd in Hn. apply Hrem in Hr.
    destruct Hn as [_ Hn]. destruct Hr as [Hr _].
    apply Hn. rewrite Hk. apply in_map. eapply findLast_In. exact Hr.
Qed.

Lemma getEventChanges_keys_distinct_witness :
  NoDup ["1-Group-undefined"; "3-Group-g"].
Proof.
  exact (getEventChanges_keys_distinct (Modification ex_scheme3 ex_schemeAfter)
           ex_eventType
           [Removal (nth 1 (ex_entries ex_scheme3) ex_scheme3);
            Addition (nth 2 (ex_entries ex_schemeAfter) ex_scheme3)]
           eq_refl).
Defined.

(** X9: when the two sides of a change project to the same set of
    identity keys (as when a scheme is modified in its name or
    description only, or its bindings are merely reordered), the diff
    is empty, and [deployEvents] resolves having issued no call and
    left the instance as it was. *)
Theorem same_keys_no_op (client : JiraClient) (change : Change InstanceElement)
  (et : ElemID) (a : InstanceElement) (before after : list InstanceElement) :
  match change with
  | Modification b _ => getEventInstances b et
  | _ => ok []
  end = ok before ->
  data_after change = ok a ->
  getEventInstances a et = ok after ->
  (forall k, In k (map elemName before) <-> In k (map elemName after)) ->
  getEventChanges change (ObjectType et) = ok []
  /\ deployEvents client change (ObjectType et)
     = (mkState (value (getChangeData change)) [], ok tt).
Proof.
  intros Hb Ha Hafter Hkeys.
  assert (Hbt : Forall (fun e => refType e = et) before).
  { destruct change; try (injection Hb as <-; constructor).
    apply getEventInstances_entries in Hb. tauto. }
  destruct (getEventInstances_entries _ _ _ Hafter) as [Hat _].
  destruct (diff_side et before after Hbt Hat) as [Hadd _].
  destruct (diff_side et after before Hat Hbt) as [Hrem _].
  cbv zeta in Hadd, Hrem.
  assert (Hdiff : getEventChanges change (ObjectType et) = ok []).
  { unfold getEventChanges. cbn [getEventType bind ok].
    rewrite Hb. cbn [bind ok]. rewrite Ha. cbn [bind ok]. rewrite Hafter.
    cbn [bind ok]. unfold removedEventsOf, newEventsOf.
    rewrite (no_elements (filter _ (Object_values (keyBy getFullName after)))).
    - rewrite (no_elements (filter _ (Object_values (keyBy getFullName before))));
        [reflexivity|].
      intros e He. apply Hrem in He. destruct He as [Hlast Hno].
      apply Hno, Hkeys, in_map. eapply findLast_In. exact Hlast.
    - intros e He. apply Hadd in He. destruct He as [Hlast Hno].
      apply Hno, Hkeys, in_map. eapply findLast_In. exact Hlast. }
  split; [exact Hdiff|].
  unfold deployEvents. rewrite Hdiff. reflexivity.
Qed.

(* ------------------------------------------------------------------ *)
(** ** What the loop touches *)

Lemma onlyIdentifierMap_set (v0 : Fields) (ids : Value) (st : DeployState) :
  onlyIdentifierMap v0 st -> onlyIdentifierMap v0 (setNotificationIds ids st).
Proof.
  intros [H | (x & H)]; right; exists ids; unfold setNotificationIds;
    cbn [instanceValue]; rewrite H; [reflexivity | apply assign_assign_same].
Qed.

Lemma onlyIdentifierMap_start (client : JiraClient) (v0 : Fields)
  (c : Change InstanceElement) (st : DeployState) :
  onlyIdentifierMap v0 st -> onlyIdentifierMap v0 (fst (start client c st)).
Proof.
  intros H. unfold start. destruct c as [a|b|b a]; cbn [getChangeData].
  - assert (H1 : onlyIdentifierMap v0
                   (if isUndefined (notificationIdsOf st)
                    then setNotificationIds (VObj []) st else st))
      by (destruct (isUndefined _); [apply onlyIdentifierMap_set|]; exact H).
    destruct (putData a); [exact H1|]. exact H1.
  - destruct (prop _ _); exact H.
  - exact H.
Qed.

Lemma onlyIdentifierMap_resume (client : JiraClient) (v0 : Fields)
  (t : Task) (st : DeployState) :
  onlyIdentifierMap v0 st -> onlyIdentifierMap v0 (fst (resume client t st)).
Proof.
  intros H. destruct t as [r|e [err|x]|e [err|x]|e [err|x]]; cbn [resume fst];
    try exact H.
  - destruct (deleteIn _ _); [exact H|]. apply onlyIdentifierMap_set. exact H.
  - destruct (isPageResponse x && _); [|exact H].
    destruct (bind _ _); [exact H|]. apply onlyIdentifierMap_set. exact H.
Qed.

Lemma onlyIdentifierMap_turns {A} (v0 : Fields)
  (f : A -> DeployState -> DeployState * Task) (l : list A) (st : DeployState) :
  (forall a s, onlyIdentifierMap v0 s -> onlyIdentifierMap v0 (fst (f a s))) ->
  onlyIdentifierMap v0 st -> onlyIdentifierMap v0 (fst (turns f l st)).
Proof.
  intros Hf. revert st. induction l as [|a l IH]; intros st H; cbn [turns].
  - exact H.
  - pose proof (Hf a st H) as H1. destruct (f a st) as [st1 t].
    pose proof (IH st1 H1) as H2. destruct (turns f l st1) as [st2 ts].
    exact H2.
Qed.

Lemma onlyIdentifierMap_untilRejection (client : JiraClient) (v0 : Fields)
  (ts : list Task) (st : DeployState) :
  onlyIdentifierMap v0 st -> onlyIdentifierMap v0 (untilRejection client ts st).
Proof.
  revert st. induction ts as [|t ts IH]; intros st H; cbn [untilRejection];
    [exact H|].
  pose proof (onlyIdentifierMap_resume client v0 t st H) as H1.
  destruct (resume client t st) as [st1 t']. cbn [fst] in H1.
  destruct t' as [[e|u]| | |]; auto.
Qed.

(** X10: whatever the change, the event type and the remote service
    are, [deployEvents] leaves the value of the instance as it was but
    for its [notificationIds] field: every other field keeps its value
    and its place. *)
Theorem deployEvents_touches_only_identifier_map (client : JiraClient)
  (change : Change InstanceElement) (innerType : TypeElement) :
  let v0 := value (getChangeData change) in
  let v := instanceValue (fst (deployEvents client change innerType)) in
  (v = v0 \/ exists ids, v = assign "notificationIds" ids v0)
  /\ forall k, k <> "notificationIds" -> lookup k v = lookup k v0.
Proof.
  cbv zeta.
  assert (H : onlyIdentifierMap (value (getChangeData change))
                (fst (deployEvents client change innerType))).
  { unfold deployEvents. destruct (getEventChanges change innerType) as [e|cs].
    - left. reflexivity.
    - unfold awaitCallbacks.
      pose proof (onlyIdentifierMap_turns (value (getChangeData change))
                    (start client) cs
                    (mkState (value (getChangeData change)) [])
                    (onlyIdentifierMap_start client _) (or_introl eq_refl)) as H0.
      destruct (turns (start client) cs _) as [st0 round0].
      pose proof (onlyIdentifierMap_turns _ (resume client) round0 st0
                    (onlyIdentifierMap_resume client _) H0) as H1.
      destruct (turns (resume client) round0 st0) as [st1 round1].
      destruct (turns (resume client) round1 st1) as [st2 round2].
      cbn [fst] in *. destruct (firstRejection round0); [exact H0|].
      destruct (firstRejection round1);
        apply onlyIdentifierMap_untilRejection; assumption. }
  split; [exact H|]. intros k Hk. destruct H as [-> | (ids & ->)]; [reflexivity|].
  apply lookup_assign_ne. exact Hk.
Qed.

(* ------------------------------------------------------------------ *)
(** ** The calls of a general change *)

Lemma turns_app {A} (f : A -> DeployState -> DeployState * Task)
  (l1 l2 : list A) (st : DeployState) :
  turns f (l1 ++ l2) st
  = (fst (turns f l2 (fst (turns f l1 st))),
     snd (turns f l1 st) ++ snd (turns f l2 (fst (turns f l1 st)))).
Proof.
  revert st. induction l1 as [|a l1 IH]; intros st; cbn [turns app fst snd].
  - destruct (turns f l2 st). reflexivity.
  - destruct (f a st) as [st1 t]. rewrite IH.
    destruct (turns f l1 st1) as [st2 ts]. reflexivity.
Qed.

Lemma awaitPuts_app (ts1 ts2 : list Task) :
  awaitPuts (ts1 ++ ts2) = awaitPuts ts1 + awaitPuts ts2.
Proof. unfold awaitPuts. rewrite filter_app, length_app. reflexivity. Qed.

Lemma turns_start_removals (client : JiraClient) (rs : list InstanceElement)
  (st : DeployState) :
  isNullish (notificationIdsOf st) = false ->
  fst (turns (start client) (map Removal rs) st)
  = mkState (instanceValue st) (calls st ++ deleteCalls (notificationIdsOf st) rs)
  /\ snd (turns (start client) (map Removal rs) st)
     = map (fun o => AwaitDelete (fst o) (snd o))
         (deleteOutcomes client (notificationIdsOf st) (calls st) rs).
Proof.
  revert st. induction rs as [|e rs IH]; intros st Hn; cbn [turns map].
  - unfold deleteCalls. cbn [fst snd map deleteOutcomes]. rewrite app_nil_r.
    destruct st; auto.
  - unfold start at 1 3. cbn [getChangeData]. unfold prop. rewrite Hn.
    unfold issue. cbn [ok].
    set (st1 := mkState (instanceValue st) (calls st ++ _)).
    assert (Hn1 : notificationIdsOf st1 = notificationIdsOf st) by reflexivity.
    specialize (IH st1). rewrite Hn1 in IH. destruct (IH Hn) as [IH1 IH2].
    destruct (turns (start client) (map Removal rs) st1) as [st2 ts].
    cbn [fst snd] in *. rewrite IH1, IH2. unfold st1. cbn [instanceValue calls].
    unfold deleteCalls. cbn [map deleteOutcomes fst snd].
    rewrite <- app_assoc. auto.
Qed.

Lemma start_addition_awaitPuts (client : JiraClient) (e : InstanceElement)
  (st : DeployState) :
  awaitPuts [snd (start client (Addition e) st)] = List.length (createCalls [e]).
Proof.
  unfold start, createCalls, awaitPuts. cbn [getChangeData flat_map].
  destruct (putData e); reflexivity.
Qed.

Lemma turns_start_additions_awaitPuts (client : JiraClient)
  (l : list InstanceElement) (st : DeployState) :
  awaitPuts (snd (turns (start client) (map Addition l) st))
  = List.length (createCalls l).
Proof.
  revert st. induction l as [|e l IH]; intros st; cbn [turns map].
  - reflexivity.
  - pose proof (start_addition_awaitPuts client e st) as Hs.
    destruct (start client (Addition e) st) as [st1 t].
    specialize (IH st1).
    destruct (turns (start client) (map Addition l) st1) as [st2 ts].
    cbn [snd] in *. change (t :: ts) with ([t] ++ ts).
    rewrite awaitPuts_app, Hs, IH.
    unfold createCalls. cbn [flat_map]. rewrite app_nil_r, length_app. reflexivity.
Qed.

Lemma resume_readBacks (client : JiraClient) (t : Task) (st : DeployState) :
  exists extra,
    calls (fst (resume client t st)) = calls st ++ extra
    /\ forallb isGetSinglePage extra = true
    /\ List.length extra <= awaitPuts [t]
    /\ awaitPuts [snd (resume client t st)] = 0.
Proof.
  destruct t as [r|e [err|x]|e [err|x]|e [err|x]]; cbn [resume fst snd];
    try (exists []; rewrite app_nil_r; repeat split; cbn; lia).
  - destruct (deleteIn _ _); exists []; rewrite app_nil_r; repeat split; cbn; lia.
  - eexists [_]. repeat split; cbn; lia.
  - destruct (isPageResponse x && _);
      [destruct (bind _ _)|]; exists []; rewrite app_nil_r; repeat split; cbn; lia.
Qed.

Lemma turns_resume_readBacks (client : JiraClient) (ts : list Task)
  (st : DeployState) :
  exists extra,
    calls (fst (turns (resume client) ts st)) = calls st ++ extra
    /\ forallb isGetSinglePage extra = true
    /\ List.length extra <= awaitPuts ts
    /\ awaitPuts (snd (turns (resume client) ts st)) = 0.
Proof.
  revert st. induction ts as [|t ts IH]; intros st; cbn [turns].
  - exists []. cbn [fst snd]. rewrite app_nil_r. repeat split; cbn; lia.
  - destruct (resume_readBacks client t st) as (x1 & H1 & G1 & L1 & Z1).
    destruct (resume client t st) as [st1 t'].
    destruct (IH st1) as (x2 & H2 & G2 & L2 & Z2).
    destruct (turns (resume client) ts st1) as [st2 ts'].
    cbn [fst snd] in *. exists (x1 ++ x2). rewrite H2, H1, app_assoc.
    split; [reflexivity|]. split; [rewrite forallb_app, G1, G2; reflexivity|].
    change (t :: ts) with ([t] ++ ts). change (t' :: ts') with ([t'] ++ ts').
    rewrite !awaitPuts_app, length_app. lia.
Qed.

Lemma untilRejection_readBacks (client : JiraClient) (ts : list Task)
  (st : DeployState) :
  exists extra,
    calls (untilRejection client ts st) = calls st ++ extra
    /\ forallb isGetSinglePage extra = true
    /\ List.length extra <= awaitPuts ts.
Proof.
  revert st. induction ts as [|t ts IH]; intros st; cbn [untilRejection].
  - exists []. rewrite app_nil_r. repeat split; cbn; lia.
  - destruct (resume_readBacks client t st) as (x1 & H1 & G1 & L1 & _).
    destruct (resume client t st) as [st1 t']. cbn [fst] in H1.
    change (t :: ts) with ([t] ++ ts). rewrite awaitPuts_app.
    assert (Hgo : exists extra,
               calls (untilRejection client ts st1) = calls st ++ extra
               /\ forallb isGetSinglePage extra = true
               /\ List.length extra <= awaitPuts [t] + awaitPuts ts).
    { destruct (IH st1) as (x2 & H2 & G2 & L2). exists (x1 ++ x2).
      rewrite H2, H1, app_assoc. split; [reflexivity|].
      split; [rewrite forallb_app, G1, G2; reflexivity|].
      rewrite length_app. lia. }
    destruct t' as [[e|u]| | |]; try exact Hgo.
    exists x1. repeat split; [exact H1 | exact G1 | lia].
Qed.

Lemma awaitCallbacks_readBacks (client : JiraClient)
  (cs : list (Change InstanceElement)) (st : DeployState) :
  exists extra,
    calls (fst (awaitCallbacks client cs st))
    = calls (fst (turns (start client) cs st)) ++ extra
    /\ forallb isGetSinglePage extra = true
    /\ List.length extra <= awaitPuts (snd (turns (start client) cs st)).
Proof.
  unfold awaitCallbacks. destruct (turns (start client) cs st) as [st0 round0].
  destruct (turns_resume_readBacks client round0 st0) as (x1 & H1 & G1 & L1 & Z1).
  destruct (untilRejection_readBacks client round0 st0) as (y1 & K1 & M1 & N1).
  destruct (turns (resume client) round0 st0) as [st1 round1].
  destruct (untilRejection_readBacks client round1 st1) as (y2 & K2 & M2 & N2).
  destruct (turns (resume client) round1 st1) as [st2 round2].
  cbn [fst snd] in *. destruct (firstRejection round0).
  - exists []. rewrite app_nil_r. repeat split; cbn; lia.
  - destruct (firstRejection round1).
    + exists y1. auto.
    + exists (x1 ++ y2). rewrite K2, H1, app_assoc. split; [reflexivity|].
      split; [rewrite forallb_app, G1, M2; reflexivity|].
      rewrite length_app. lia.
Qed.

(** X11: when the identifier map of the instance is not [null] or
    absent, the calls [deployEvents] has issued when it settles are, in
    this order: one delete call per removed entry, addressed with the
    identifier the map filed under the entry's name; one create call
    per added entry whose body could be built; and then read-back
    queries only, no more of them than there were create calls. *)
Theorem deployEvents_calls (client : JiraClient) (change : Change InstanceElement)
  (innerType : TypeElement) (toRemove toAdd : list InstanceElement) :
  getEventChanges change innerType = ok (map Removal toRemove ++ map Addition toAdd) ->
  isNullish (get (VObj (value (getChangeData change))) "notificationIds") = false ->
  exists readBacks,
    calls (fst (deployEvents client change innerType))
    = deleteCalls (get (VObj (value (getChangeData change))) "notificationIds") toRemove
      ++ createCalls toAdd ++ readBacks
    /\ forallb isGetSinglePage readBacks = true
    /\ List.length readBacks <= List.length (createCalls toAdd).
Proof.
  intros Hdiff Hids. unfold deployEvents. rewrite Hdiff. unfold ok.
  set (st := mkState (value (getChangeData change)) []).
  destruct (awaitCallbacks_readBacks client
              (map Removal toRemove ++ map Addition toAdd) st) as (x & Hx & Gx & Lx).
  rewrite turns_app in Hx, Lx. cbn [fst snd] in Hx, Lx.
  destruct (turns_start_removals client toRemove st Hids) as [Hr1 Hr2].
  pose proof (turns_start_additions client toAdd
                (fst (turns (start client) (map Removal toRemove) st))) as Ha1.
  pose proof (turns_start_additions_awaitPuts client toAdd
                (fst (turns (start client) (map Removal toRemove) st))) as Ha2.
  rewrite awaitPuts_app, Ha2, Hr2 in Lx.
  assert (Hz : forall os, awaitPuts (map (fun o => AwaitDelete (fst o) (snd o)) os) = 0)
    by (induction os as [|o os IHos]; [reflexivity | exact IHos]).
  rewrite Hz in Lx.
  exists x. rewrite Hx, Ha1, Hr1. cbn [calls app]. rewrite <- !app_assoc.
  split; [reflexivity|]. split; [exact Gx | lia].
Qed.

(* ------------------------------------------------------------------ *)
(** ** Removals *)

Lemma turns_resume_deletes (client : JiraClient)
  (outcomes : list (InstanceElement * Result Value))
  (w : Fields) (h : list Request) (m : Fields) :
  lookup "notificationIds" w = Some (VObj m) ->
  turns (resume client) (map (fun o => AwaitDelete (fst o) (snd o)) outcomes)
    (mkState w h)
  = (mkState (assign "notificationIds" (VObj (afterDeletes m outcomes)) w) h,
     map settledDelete outcomes).
Proof.
  revert w m. induction outcomes as [|[e [err|x]] outcomes IH]; intros w m Hw;
    cbn [turns map resume fst snd].
  - unfold afterDeletes. cbn [fold_left]. rewrite (assign_present _ _ _ Hw).
    reflexivity.
  - rewrite (IH w m Hw). reflexivity.
  - unfold notificationIdsOf, get. cbn [instanceValue]. rewrite Hw.
    cbn [deleteIn ok]. unfold setNotificationIds. cbn [instanceValue calls].
    rewrite (IH _ (remove (entryName e) m)) by apply lookup_assign_same.
    rewrite assign_assign_same. reflexivity.
Qed.

Lemma turns_resume_settled (client : JiraClient)
  (outcomes : list (InstanceElement * Result Value)) (st : DeployState) :
  turns (resume client) (map settledDelete outcomes) st
  = (st, map settledDelete outcomes).
Proof.
  induction outcomes as [|o outcomes IH]; cbn [turns map]; [reflexivity|].
  unfold settledDelete at 1. cbn [resume]. rewrite IH. reflexivity.
Qed.

Lemma untilRejection_resolved (client : JiraClient) (ts : list Task)
  (st : DeployState) :
  firstRejection (snd (turns (resume client) ts st)) = None ->
  untilRejection client ts st = fst (turns (resume client) ts st).
Proof.
  revert st. induction ts as [|t ts IH]; intros st; cbn [turns untilRejection];
    [reflexivity|].
  destruct (resume client t st) as [st1 t']. specialize (IH st1).
  destruct (turns (resume client) ts st1) as [st2 ts']. cbn [fst snd] in *.
  destruct t' as [[e|u]| | |]; cbn [firstRejection]; try exact IH. discriminate.
Qed.

Lemma untilRejection_deletes (client : JiraClient)
  (outcomes : list (InstanceElement * Result Value))
  (w : Fields) (h : list Request) (m : Fields) :
  lookup "notificationIds" w = Some (VObj m) ->
  untilRejection client (map (fun o => AwaitDelete (fst o) (snd o)) outcomes)
    (mkState w h)
  = mkState (assign "notificationIds" (VObj (afterDeletes m (beforeFailure outcomes))) w)
      h.
Proof.
  revert w m. induction outcomes as [|[e [err|x]] outcomes IH]; intros w m Hw;
    cbn [untilRejection map resume fst snd beforeFailure succeeded].
  - unfold afterDeletes. cbn [fold_left]. rewrite (assign_present _ _ _ Hw).
    reflexivity.
  - unfold afterDeletes. cbn [fold_left]. rewrite (assign_present _ _ _ Hw).
    reflexivity.
  - unfold notificationIdsOf, get. cbn [instanceValue]. rewrite Hw.
    cbn [deleteIn ok]. unfold setNotificationIds. cbn [instanceValue calls].
    rewrite (IH _ (remove (entryName e) m)) by apply lookup_assign_same.
    rewrite assign_assign_same. reflexivity.
Qed.

Lemma firstRejection_settled (outcomes : list (InstanceElement * Result Value)) :
  match firstRejection (map settledDelete outcomes) with
  | Some e => firstFailure outcomes = throw e
  | None => firstFailure outcomes = ok tt /\ beforeFailure outcomes = outcomes
  end.
Proof.
  induction outcomes as [|[e [err|x]] os IH]; [split; reflexivity | reflexivity |].
  cbn [map]. unfold settledDelete at 1. unfold ok at 1.
  cbn [snd firstRejection firstFailure beforeFailure succeeded].
  destruct (firstRejection (map settledDelete os)); [exact IH|].
  destruct IH as [H1 H2]. rewrite H2. auto.
Qed.

Lemma firstRejection_awaitDeletes (outcomes : list (InstanceElement * Result Value)) :
  firstRejection (map (fun o => AwaitDelete (fst o) (snd o)) outcomes) = None.
Proof. induction outcomes as [|o os IH]; [reflexivity | exact IH]. Qed.

Lemma get_afterDeletes (outcomes : list (InstanceElement * Result Value))
  (fs : Fields) (k : string) :
  get (VObj (afterDeletes fs outcomes)) k
  = if existsb (fun o => succeeded o && String.eqb (entryName (fst o)) k) outcomes
    then VUndef else get (VObj fs) k.
Proof.
  revert fs. unfold afterDeletes.
  induction outcomes as [|o outcomes IH]; intros fs; cbn [fold_left existsb];
    [reflexivity|].
  rewrite IH. destruct (existsb _ outcomes); [rewrite orb_true_r; reflexivity|].
  rewrite orb_false_r. destruct (succeeded o); cbn [andb]; [|reflexivity].
  destruct (String.eqb (entryName (fst o)) k) eqn:E.
  - apply String.eqb_eq in E. subst k. cbn [get]. rewrite lookup_remove_same.
    reflexivity.
  - apply String.eqb_neq in E. apply get_remove_ne. congruence.
Qed.

(** X12: when the diff holds removals only and the instance carries
    an identifier map, [deployEvents] issues exactly the delete calls
    of the removed entries and rejects with the error of the first
    failed call, or resolves when there is none.  The map it leaves
    when it settles is the old one with the names struck off of the
    entries whose delete call succeeded before the first failure: the
    loop does not wait for the calls after it.  Their callbacks go on
    all the same: once all have run, the names of all entries whose
    delete call succeeded are struck off, and a name whose delete call
    failed keeps its identifier. *)
Theorem removals_bookkeeping (client : JiraClient) (change : Change InstanceElement)
  (innerType : TypeElement) (toRemove : list InstanceElement) (fs : Fields) :
  getEventChanges change innerType = ok (map Removal toRemove) ->
  lookup "notificationIds" (value (getChangeData change)) = Some (VObj fs) ->
  let outcomes := deleteOutcomes client (VObj fs) [] toRemove in
  deployEvents client change innerType
  = (mkState (assign "notificationIds"
                (VObj (afterDeletes fs (beforeFailure outcomes)))
                (value (getChangeData change)))
       (deleteCalls (VObj fs) toRemove),
     firstFailure outcomes)
  /\ afterCallbacks client change innerType
     = mkState (assign "notificationIds" (VObj (afterDeletes fs outcomes))
                  (value (getChangeData change)))
         (deleteCalls (VObj fs) toRemove)
  /\ forall struck k,
      get (VObj (afterDeletes fs struck)) k
      = if existsb (fun o => succeeded o && String.eqb (entryName (fst o)) k) struck
        then VUndef else get (VObj fs) k.
Proof.
  intros Hdiff Hids. cbv zeta.
  split; [|split; [|intros struck k; apply get_afterDeletes]].
  - unfold deployEvents, awaitCallbacks. rewrite Hdiff. unfold ok.
    set (st := mkState (value (getChangeData change)) []).
    assert (Hn : notificationIdsOf st = VObj fs)
      by (unfold st, notificationIdsOf, get; cbn [instanceValue]; rewrite Hids;
          reflexivity).
    destruct (turns_start_removals client toRemove st) as [H1 H2];
      [rewrite Hn; reflexivity|].
    destruct (turns (start client) (map Removal toRemove) st) as [st0 round0].
    cbn [fst snd] in H1, H2. subst st0 round0. rewrite Hn.
    cbn [instanceValue calls app].
    rewrite (turns_resume_deletes client _ _ _ fs Hids).
    rewrite turns_resume_settled, firstRejection_awaitDeletes.
    rewrite (untilRejection_deletes client _ _ _ fs Hids).
    cbn [Promise_all]. rewrite firstRejection_awaitDeletes.
    pose proof (firstRejection_settled
                  (deleteOutcomes client (VObj fs) [] toRemove)) as Hf.
    destruct (firstRejection (map settledDelete _)) as [err|] eqn:Er.
    + rewrite Hf. reflexivity.
    + destruct Hf as [Hf Hb]. rewrite Hf, Hb.
      rewrite untilRejection_resolved
        by (rewrite turns_resume_settled; exact Er).
      rewrite turns_resume_settled. reflexivity.
  - unfold afterCallbacks. rewrite Hdiff. unfold ok.
    set (st := mkState (value (getChangeData change)) []).
    assert (Hn : notificationIdsOf st = VObj fs)
      by (unfold st, notificationIdsOf, get; cbn [instanceValue]; rewrite Hids;
          reflexivity).
    destruct (turns_start_removals client toRemove st) as [H1 H2];
      [rewrite Hn; reflexivity|].
    destruct (turns (start client) (map Removal toRemove) st) as [st0 round0].
    cbn [fst snd] in H1, H2. subst st0 round0. rewrite Hn.
    cbn [instanceValue calls app].
    rewrite (turns_resume_deletes client _ _ _ fs Hids).
    rewrite turns_resume_settled. reflexivity.
Qed.

(* ------------------------------------------------------------------ *)
(** ** Additions *)

Lemma initIds_twice (v : Fields) : initIds (initIds v) = initIds v.
Proof.
  unfold initIds. destruct (isUndefined (get (VObj v) "notificationIds")) eqn:E.
  - rewrite get_assign_same. reflexivity.
  - rewrite E. reflexivity.
Qed.

Lemma start_initIds (st : DeployState) :
  (if isUndefined (notificationIdsOf st) then setNotificationIds (VObj []) st else st)
  = mkState (initIds (instanceValue st)) (calls st).
Proof.
  unfold initIds, notificationIdsOf, setNotificationIds.
  destruct (isUndefined _); [reflexivity|]. destruct st; reflexivity.
Qed.

Section Additions.
Variable client : JiraClient.
Variable data : Value.
Variable idOf : InstanceElement -> Value.
Hypothesis puts_succeed :
  forall issued url d, exists r, respond client issued (Put url d) = inr r.
Hypothesis readBack_answers :
  forall issued url q, respond client issued (GetSinglePage url q) = inr data.
Hypothesis page_valid :
  isPageResponse data && isNotificationScheme (firstOf (get data "values")) = true.

Lemma turns_start_additions_ok (toAdd : list InstanceElement) (st : DeployState) :
  (forall e, In e toAdd -> exists d, putData e = ok d) ->
  exists ts,
    turns (start client) (map Addition toAdd) st
    = (mkState (match toAdd with
                | [] => instanceValue st
                | _ => initIds (instanceValue st)
                end)
         (calls st ++ createCalls toAdd), ts)
    /\ Forall2 (fun e t => exists r, t = AwaitPut e (inr r)) toAdd ts.
Proof using puts_succeed.
  revert st. induction toAdd as [|e toAdd IH]; intros st Hput; cbn [turns map].
  - exists []. unfold createCalls. cbn [flat_map]. rewrite app_nil_r.
    destruct st. split; [reflexivity | constructor].
  - unfold start at 1. cbn [getChangeData]. rewrite start_initIds.
    destruct (Hput e (or_introl eq_refl)) as (d & Hd). rewrite Hd. unfold ok at 1.
    unfold issue. cbn [instanceValue calls].
    destruct (puts_succeed (calls st) (putUrl (get (VObj (value e)) "schemeId")) d)
      as (r & Hr).
    rewrite Hr.
    destruct (IH (mkState (initIds (instanceValue st))
                    (calls st ++ [Put (putUrl (get (VObj (value e)) "schemeId")) d])))
      as (ts & Hts & Hall); [intros; apply Hput; simpl; auto|].
    rewrite Hts. eexists. split; [|constructor; [eauto | exact Hall]].
    cbn [instanceValue calls]. f_equal. f_equal.
    + destruct toAdd; [reflexivity | apply initIds_twice].
    + unfold createCalls. cbn [flat_map]. rewrite Hd, <- app_assoc. reflexivity.
Qed.

Lemma turns_resume_puts (toAdd : list InstanceElement) (ts : list Task)
  (st : DeployState) :
  Forall2 (fun e t => exists r, t = AwaitPut e (inr r)) toAdd ts ->
  turns (resume client) ts st
  = (mkState (instanceValue st) (calls st ++ readBackCalls toAdd),
     map (fun e => AwaitGetSinglePage e (inr data)) toAdd).
Proof using readBack_answers.
  intros H. revert st. induction H as [|e t toAdd ts (r & ->) _ IH]; intros st;
    cbn [turns map].
  - unfold readBackCalls. cbn [map]. rewrite app_nil_r. destruct st. reflexivity.
  - cbn [resume]. unfold issue, readBackRequest. rewrite readBack_answers, IH.
    cbn [instanceValue calls]. unfold readBackCalls. cbn [map].
    rewrite <- app_assoc. reflexivity.
Qed.

Lemma turns_resume_readBack (toAdd : list InstanceElement)
  (w : Fields) (h : list Request) (m : Fields) :
  (forall e, In e toAdd -> readBackId e (firstOf (get data "values")) = ok (idOf e)) ->
  lookup "notificationIds" w = Some (VObj m) ->
  turns (resume client) (map (fun e => AwaitGetSinglePage e (inr data)) toAdd)
    (mkState w h)
  = (mkState (assign "notificationIds" (VObj (recordAll idOf toAdd m)) w) h,
     map (fun _ => Settled (ok tt)) toAdd).
Proof using page_valid.
  revert w m. induction toAdd as [|e toAdd IH]; intros w m Hid Hw; cbn [turns map].
  - unfold recordAll. cbn [fold_left]. rewrite (assign_present _ _ _ Hw). reflexivity.
  - cbn [resume]. rewrite page_valid, (Hid e (or_introl eq_refl)).
    cbn [bind ok]. unfold notificationIdsOf, get. cbn [instanceValue]. rewrite Hw.
    cbn [assignIn ok]. unfold setNotificationIds. cbn [instanceValue calls].
    rewrite (IH _ (assign (entryName e) (idOf e) m))
      by (try apply lookup_assign_same; intros; apply Hid; simpl; auto).
    rewrite assign_assign_same. reflexivity.
Qed.
End Additions.

Lemma firstRejection_none {A} (f : A -> Task) (l : list A) :
  (forall a, match f a with Settled (inl _) => False | _ => True end) ->
  firstRejection (map f l) = None.
Proof.
  intros H. induction l as [|a l IH]; [reflexivity|]. cbn [map firstRejection].
  specialize (H a). destruct (f a) as [[e|u]| | |]; try exact IH. destruct H.
Qed.

Lemma firstRejection_awaitPuts (toAdd : list InstanceElement) (ts : list Task) :
  Forall2 (fun e t => exists r, t = AwaitPut e (inr r)) toAdd ts ->
  firstRejection ts = None.
Proof. induction 1 as [|e t l ts (r & ->) _ IH]; [reflexivity | exact IH]. Qed.

Lemma get_recordAll_other (idOf : InstanceElement -> Value)
  (toAdd : list InstanceElement) (m : Fields) (k : string) :
  ~ In k (map entryName toAdd) ->
  get (VObj (recordAll idOf toAdd m)) k = get (VObj m) k.
Proof.
  unfold recordAll. revert m. induction toAdd as [|e toAdd IH]; intros m Hk;
    cbn [fold_left]; [reflexivity|].
  rewrite IH by (intros H; apply Hk; simpl; auto).
  apply get_assign_ne. intros ->. apply Hk. simpl. auto.
Qed.

Lemma get_recordAll (idOf : InstanceElement -> Value)
  (toAdd : list InstanceElement) (m : Fields) (e : InstanceElement) :
  NoDup (map entryName toAdd) -> In e toAdd ->
  get (VObj (recordAll idOf toAdd m)) (entryName e) = idOf e.
Proof.
  revert m. induction toAdd as [|x toAdd IH]; intros m Hnd Hin; [destruct Hin|].
  inversion Hnd as [|? ? Hx Hrest]; subst. destruct Hin as [-> | Hin].
  - change (recordAll idOf (e :: toAdd) m)
      with (recordAll idOf toAdd (assign (entryName e) (idOf e) m)).
    rewrite get_recordAll_other by exact Hx. apply get_assign_same.
  - change (recordAll idOf (x :: toAdd) m)
      with (recordAll idOf toAdd (assign (entryName x) (idOf x) m)).
    apply IH; assumption.
Qed.

(** X13: when the diff holds additions only, every body can be built,
    every create call succeeds, and every read-back answers one valid
    page in which each added entry has a match, [deployEvents]
    resolves; it has issued one create call per entry and then one
    read-back per entry, in entry order; and the identifier map it
    leaves is the old one (an empty one if there was none) with, for
    each entry in turn, the id of the entry's first match filed under
    the entry's name, so that with pairwise distinct names every added
    entry finds its identifier. *)
Theorem additions_bookkeeping (client : JiraClient) (change : Change InstanceElement)
  (innerType : TypeElement) (toAdd : list InstanceElement) (data : Value)
  (idOf : InstanceElement -> Value) :
  getEventChanges change innerType = ok (map Addition toAdd) ->
  (forall e, In e toAdd -> exists d, putData e = ok d) ->
  (forall issued url d, exists r, respond client issued (Put url d) = inr r) ->
  (forall issued url q, respond client issued (GetSinglePage url q) = inr data) ->
  isPageResponse data && isNotificationScheme (firstOf (get data "values")) = true ->
  (forall e, In e toAdd -> readBackId e (firstOf (get data "values")) = ok (idOf e)) ->
  let ids0 := get (VObj (value (getChangeData change))) "notificationIds" in
  ids0 = VUndef \/ (exists fs, ids0 = VObj fs) ->
  let st := fst (deployEvents client change innerType) in
  snd (deployEvents client change innerType) = ok tt
  /\ calls st = createCalls toAdd ++ readBackCalls toAdd
  /\ mapOf (notificationIdsOf st) = recordAll idOf toAdd (mapOf ids0)
  /\ (NoDup (map entryName toAdd) ->
      forall e, In e toAdd -> get (notificationIdsOf st) (entryName e) = idOf e).
Proof.
  intros Hdiff Hput Hputs Hget Hpage Hid. cbv zeta. intros Hids.
  set (v0 := value (getChangeData change)) in *.
  assert (Hrun : exists w,
    deployEvents client change innerType
    = (mkState w (createCalls toAdd ++ readBackCalls toAdd), ok tt)
    /\ mapOf (get (VObj w) "notificationIds")
       = recordAll idOf toAdd (mapOf (get (VObj v0) "notificationIds"))
    /\ (get (VObj w) "notificationIds" = VUndef
        \/ exists m, get (VObj w) "notificationIds" = VObj m)).
  { unfold deployEvents, awaitCallbacks. fold v0. rewrite Hdiff. unfold ok at 1.
    destruct (turns_start_additions_ok client Hputs toAdd (mkState v0 []) Hput)
      as (round0 & H0 & Hall).
    rewrite H0.
    rewrite (turns_resume_puts client data Hget toAdd round0 _ Hall).
    cbn [instanceValue calls app Promise_all].
    rewrite (firstRejection_awaitPuts _ _ Hall).
    rewrite (firstRejection_none (fun x => AwaitGetSinglePage x (inr data)))
      by (intros; exact I).
    destruct toAdd as [|e toAdd].
    - inversion Hall; subst. cbn [turns map untilRejection firstRejection].
      exists v0. split; [reflexivity|]. split; [reflexivity|].
      destruct Hids as [-> | (fs & ->)]; eauto.
    - assert (Hw : lookup "notificationIds" (initIds v0)
                   = Some (VObj (mapOf (get (VObj v0) "notificationIds")))).
      { unfold initIds. destruct Hids as [H | (fs & H)]; rewrite H; cbn [isUndefined mapOf].
        - apply lookup_assign_same.
        - unfold get in H. destruct (lookup "notificationIds" v0) as [x|];
            [congruence | discriminate]. }
      pose proof (turns_resume_readBack client data idOf Hpage (e :: toAdd)
                    _ (createCalls (e :: toAdd) ++ readBackCalls (e :: toAdd))
                    _ Hid Hw) as Hr2.
      assert (Hnone : firstRejection
                        (map (fun _ : InstanceElement => Settled (ok tt)) (e :: toAdd))
                      = None).
      { unfold ok. apply (firstRejection_none (fun _ => Settled (inr tt))).
        intros; exact I. }
      rewrite untilRejection_resolved by (rewrite Hr2; exact Hnone).
      rewrite Hr2, Hnone. cbn [fst].
      eexists. split; [reflexivity|].
      rewrite get_assign_same. cbn [mapOf]. split; [reflexivity | eauto]. }
  destruct Hrun as (w & Hrun & Hmap & Hshape). rewrite Hrun.
  cbn [fst snd calls]. unfold notificationIdsOf. cbn [instanceValue].
  split; [reflexivity|]. split; [reflexivity|]. split; [exact Hmap|].
  intros Hnd e He.
  assert (Hg : forall k, get (get (VObj w) "notificationIds") k
                         = get (VObj (mapOf (get (VObj w) "notificationIds"))) k)
    by (intros k; destruct Hshape as [-> | (m & ->)]; reflexivity).
  rewrite Hg, Hmap. apply get_recordAll; assumption.
Qed.

(* ------------------------------------------------------------------ *)
(** ** Partial failure *)

Lemma notificationIdsOf_set (ids : Value) (st : DeployState) :
  notificationIdsOf (setNotificationIds ids st) = ids.
Proof. unfold notificationIdsOf, setNotificationIds. apply get_assign_same. Qed.








Section Creates.
Variable client : JiraClient.
Variable data : Value.
Variable idOf : InstanceElement -> Value.
Hypothesis readBack_answers :
  forall issued url q, respond client issued (GetSinglePage url q) = inr data.
Hypothesis page_valid :
  isPageResponse data && isNotificationScheme (firstOf (get data "values")) = true.





End Creates.


(* ------------------------------------------------------------------ *)
(** ** The loop and its callbacks *)

Lemma turns_after_untilRejection (client : JiraClient) (ts : list Task)
  (st : DeployState) :
  exists later,
    calls (fst (turns (resume client) ts st))
    = calls (untilRejection client ts st) ++ later.
Proof.
  revert st. induction ts as [|t ts IH]; intros st; cbn [turns untilRejection].
  - exists []. rewrite app_nil_r. reflexivity.
  - destruct (resume client t st) as [st1 t'].
    destruct (turns_resume_calls client ts st1) as (x & Hx & _).
    specialize (IH st1).
    destruct (turns (resume client) ts st1) as [st2 ts']. cbn [fst] in *.
    destruct t' as [[e|u]| | |]; try exact IH. exists x. exact Hx.
Qed.

Lemma Promise_all_resolved (round0 round1 round2 : list Task) :
  Promise_all [round0; round1; round2] = ok tt ->
  firstRejection round0 = None /\ firstRejection round1 = None
  /\ firstRejection round2 = None.
Proof.
  cbn [Promise_all].
  destruct (firstRejection round0); [discriminate|].
  destruct (firstRejection round1); [discriminate|].
  destruct (firstRejection round2); [discriminate|]. auto.
Qed.

(** X19: a loop that resolves has waited for every callback: the state
    it returns is the one the callbacks leave.  A loop that rejects has
    not: what it returns is an earlier state of the same run, the calls
    issued by then being the first of the calls the callbacks issue in
    all. *)
Theorem deployEvents_and_its_callbacks (client : JiraClient)
  (change : Change InstanceElement) (innerType : TypeElement) :
  (snd (deployEvents client change innerType) = ok tt ->
   fst (deployEvents client change innerType) = afterCallbacks client change innerType)
  /\ exists later,
      calls (afterCallbacks client change innerType)
      = calls (fst (deployEvents client change innerType)) ++ later.
Proof.
  unfold deployEvents, afterCallbacks, awaitCallbacks.
  destruct (getEventChanges change innerType) as [e|cs].
  - split; [discriminate|]. exists []. reflexivity.
  - destruct (turns (start client) cs _) as [st0 round0].
    destruct (turns_resume_calls client round0 st0) as (x1 & H1 & _).
    destruct (turns_after_untilRejection client round0 st0) as (y1 & K1).
    destruct (turns (resume client) round0 st0) as [st1 round1] eqn:E1.
    destruct (turns_resume_calls client round1 st1) as (x2 & H2 & _).
    destruct (turns_after_untilRejection client round1 st1) as (y2 & K2).
    pose proof (untilRejection_resolved client round1 st1) as Hall.
    destruct (turns (resume client) round1 st1) as [st2 round2] eqn:E2.
    cbn [fst snd] in *. split.
    + intros Hok. apply Promise_all_resolved in Hok. destruct Hok as (-> & -> & Hr2).
      apply Hall. exact Hr2.
    + destruct (firstRejection round0).
      * exists (x1 ++ x2). rewrite H2, H1, app_assoc. reflexivity.
      * destruct (firstRejection round1).
        -- exists (y1 ++ x2). rewrite H2, K1, app_assoc. reflexivity.
        -- exists y2. exact K2.
Qed.

(* ------------------------------------------------------------------ *)
(** ** The filter on a batch *)






Lemma partition_none {A} (p : A -> bool) (l : list A) :
  (forall a, In a l -> p a = false) -> partition p l = ([], l).
Proof.
  induction l as [|a l IH]; intros H; cbn [partition]; [reflexivity|].
  rewrite IH by (intros; apply H; simpl; auto).
  rewrite (H a (or_introl eq_refl)). reflexivity.
Qed.

(** X15: the changes [deploy] hands back as leftovers are the changes
    of the batch that are not changes of a scheme instance, in their
    order (all of them against a Data Center client); and a batch with
    no scheme change is handed back whole: nothing is applied, no error
    is reported and no call is issued. *)
Theorem deploy_leftovers (client : JiraClient)
  (NOTIFICATION_SCHEME_TYPE_NAME NOTIFICATION_EVENT_TYPE_NAME : string)
  (defaultDeployChange :
     Change InstanceElement -> list string -> Result (Change InstanceElement))
  (eventsInnerType : InstanceElement -> TypeElement)
  (changes : list AnyChange) :
  let result := deploy client NOTIFICATION_SCHEME_TYPE_NAME NOTIFICATION_EVENT_TYPE_NAME
                  defaultDeployChange eventsInnerType changes in
  leftoverChanges (fst result)
  = (if isDataCenter client then changes
     else filter (fun c => negb (isSchemeChange NOTIFICATION_SCHEME_TYPE_NAME c)) changes)
  /\ ((forall c, In c changes -> isSchemeChange NOTIFICATION_SCHEME_TYPE_NAME c = false) ->
      result = (mkFilterResult changes (mkDeployResult [] []), [])).
Proof.
  cbv zeta. unfold deploy. destruct (isDataCenter client); [auto|]. split.
  - rewrite partition_as_filter.
    destruct (deployChanges _ _ _) as [schemes issued0].
    destruct (deployChanges _ _ issued0) as [events issued1]. reflexivity.
  - intros Hnone. rewrite (partition_none _ _ Hnone). reflexivity.
Qed.

Section DeployFacts.
Variable client : JiraClient.
Variable NOTIFICATION_SCHEME_TYPE_NAME NOTIFICATION_EVENT_TYPE_NAME : string.
Variable defaultDeployChange :
  Change InstanceElement -> list string -> Result (Change InstanceElement).
Variable eventsInnerType : InstanceElement -> TypeElement.

Lemma deployChanges_deployScheme (l : list (Change InstanceElement))
  (issued : list Request) :
  snd (deployChanges (deployScheme NOTIFICATION_EVENT_TYPE_NAME defaultDeployChange)
         l issued) = issued
  /\ forall c', In c' (appliedOf (fst (deployChanges
                                        (deployScheme NOTIFICATION_EVENT_TYPE_NAME
                                           defaultDeployChange) l issued))) ->
       exists c ignore, In c l /\ defaultDeployChange c ignore = inr c'.
Proof.
  induction l as [|c l [IH1 IH2]]; cbn [deployChanges].
  - split; [reflexivity | intros c' []].
  - unfold deployScheme at 1 3.
    destruct (defaultDeployChange c _) as [err|c1] eqn:Ec;
      destruct (deployChanges _ l issued) as [rs issued2]; cbn [fst snd] in *.
    + split; [exact IH1|]. unfold appliedOf. cbn [flat_map snd app].
      intros c' Hc'. destruct (IH2 c' Hc') as (c0 & ig & H0 & H1).
      exists c0, ig. simpl. auto.
    + split; [exact IH1|]. unfold appliedOf. cbn [flat_map snd fst app ok].
      intros c' [<- | Hc'].
      * eexists c, _. split; [simpl; auto | exact Ec].
      * destruct (IH2 c' Hc') as (c0 & ig & H0 & H1).
        exists c0, ig. simpl. auto.
Qed.

Lemma withMutations_nil (applied : list (Change InstanceElement)) :
  withMutations applied [] = applied.
Proof.
  induction applied as [|c applied IH]; cbn [withMutations]; [reflexivity|].
  destruct (isModificationChange c); [reflexivity | rewrite IH; reflexivity].
Qed.

Lemma In_instanceChanges (l : list AnyChange) (c : Change InstanceElement) :
  In c (instanceChanges l) <-> In (InstanceChange c) l.
Proof.
  unfold instanceChanges. rewrite in_flat_map. split.
  - intros (x & Hx & Hc). destruct x as [c0|c0]; [|destruct Hc].
    destruct Hc as [<- | []]. exact Hx.
  - intros H. exists (InstanceChange c). simpl. auto.
Qed.

Lemma filter_none {A} (p : A -> bool) (l : list A) :
  (forall a, In a l -> p a = false) -> filter p l = [].
Proof.
  induction l as [|a l IH]; intros H; cbn [filter]; [reflexivity|].
  rewrite (H a (or_introl eq_refl)). apply IH. intros; apply H; simpl; auto.
Qed.

(** X16: when the generic deployment leaves the kind of a change as it
    is and the batch holds no modification of a scheme, [deploy] runs
    no event reconciliation at all: it issues no call of the event
    protocol, and what it reports applied and failed is what the
    generic deployment of the scheme changes applied and failed; so the
    events of a scheme that is added or removed are left to the generic
    deployment. *)
Theorem deploy_events_only_for_modifications (changes : list AnyChange) :
  isDataCenter client = false ->
  (forall c ignore c', defaultDeployChange c ignore = inr c' ->
                       isModificationChange c' = isModificationChange c) ->
  (forall ch, In (InstanceChange ch) changes ->
              isSchemeChange NOTIFICATION_SCHEME_TYPE_NAME (InstanceChange ch) = true ->
              isModificationChange ch = false) ->
  let schemes :=
    fst (deployChanges (deployScheme NOTIFICATION_EVENT_TYPE_NAME defaultDeployChange)
           (instanceChanges (filter (isSchemeChange NOTIFICATION_SCHEME_TYPE_NAME) changes))
           []) in
  deploy client NOTIFICATION_SCHEME_TYPE_NAME NOTIFICATION_EVENT_TYPE_NAME
    defaultDeployChange eventsInnerType changes
  = (mkFilterResult
       (filter (fun c => negb (isSchemeChange NOTIFICATION_SCHEME_TYPE_NAME c)) changes)
       (mkDeployResult (map InstanceChange (appliedOf schemes)) (errorsOf schemes)),
     []).
Proof.
  intros Hdc Hkind Hnomod. cbv zeta. unfold deploy. rewrite Hdc, partition_as_filter.
  destruct (deployChanges_deployScheme
              (instanceChanges (filter (isSchemeChange NOTIFICATION_SCHEME_TYPE_NAME)
                                  changes)) []) as [Hissued Happlied].
  destruct (deployChanges (deployScheme _ _) _ []) as [schemes issued0].
  cbn [fst snd] in *. subst issued0.
  rewrite (filter_none isModificationChange (appliedOf schemes)).
  - cbn [deployChanges]. unfold appliedOf at 3, errorsOf at 2. cbn [flat_map].
    rewrite withMutations_nil, !app_nil_r. reflexivity.
  - intros c' Hc'. destruct (Happlied c' Hc') as (c & ig & Hc & Hd).
    rewrite (Hkind _ _ _ Hd). apply In_instanceChanges, filter_In in Hc.
    destruct Hc as [Hin Hs]. apply Hnomod; assumption.
Qed.

(** X17: a batch of one scheme modification that the generic
    deployment applies: [deploy] then runs [deployEvents] on it, and
    reports the change, as the event loop left its instance, once
    among the applied changes for the scheme itself and, when the
    event loop resolves, a second time for its events; when the event
    loop rejects, the change is still reported applied once, and the
    error is reported beside it. *)
Theorem deploy_modification (b a : InstanceElement) (c' : Change InstanceElement) :
  isDataCenter client = false ->
  typeName (refType a) = NOTIFICATION_SCHEME_TYPE_NAME ->
  defaultDeployChange (Modification b a) [NOTIFICATION_EVENT_TYPE_NAME] = inr c' ->
  isModificationChange c' = true ->
  let run := deployEvents client c' (eventsInnerType (getChangeData c')) in
  let c'' := onChangeData (fun _ => instanceValue (fst run)) c' in
  deploy client NOTIFICATION_SCHEME_TYPE_NAME NOTIFICATION_EVENT_TYPE_NAME
    defaultDeployChange eventsInnerType [InstanceChange (Modification b a)]
  = (mkFilterResult []
       (mkDeployResult
          (InstanceChange c''
             :: match snd run with
                | inr _ => [InstanceChange c'']
                | inl _ => []
                end)
          (match snd run with
           | inr _ => []
           | inl e => [e]
           end)),
     calls (fst run)).
Proof.
  intros Hdc Hty Hd Hmod. cbv zeta. unfold deploy. rewrite Hdc.
  cbn [partition isSchemeChange getChangeData]. rewrite Hty, String.eqb_refl.
  cbn [instanceChanges flat_map app deployChanges].
  unfold deployScheme. cbn [isAdditionOrRemovalChange isAdditionChange
                              isRemovalChange orb]. rewrite Hd.
  unfold appliedOf at 1 2 3, errorsOf at 1. cbn [flat_map snd fst app ok filter].
  rewrite Hmod. cbn [deployChanges]. unfold deploySchemeEvents.
  change (deployEvents
            (mkClient (isDataCenter client)
               (fun history => respond client ([] ++ history)))
            c' (eventsInnerType (getChangeData c')))
    with (deployEvents client c' (eventsInnerType (getChangeData c'))).
  destruct (deployEvents client c' (eventsInnerType (getChangeData c')))
    as [st [e|u]]; cbn [fst snd app withMutations appliedOf errorsOf flat_map map];
    rewrite Hmod; reflexivity.
Qed.
End DeployFacts.

(* ------------------------------------------------------------------ *)
(** ** The removal of version-one workflows *)

(** X18: with the new workflow API not enabled, [onFetch] of the
    workflow removal filter leaves the elements as they are.  With it
    enabled, it takes out the instances whose type is the workflow type
    and nothing else: wherever an element stands in the list, what is
    fetched is what is fetched of the elements before it, then the
    element itself unless it is such an instance, then what is fetched
    of the elements after it.  So every other element, the workflow
    type itself included, stays, as often as it occurred and in the
    same order; no instance of the workflow type is left; and running
    the filter again changes nothing. *)
Theorem workflowV1Removal_onFetch_spec (WORKFLOW_TYPE_NAME : string)
  (enableNewWorkflowAPI : Value) (elements : list Element) :
  let onFetch := workflowV1Removal_onFetch WORKFLOW_TYPE_NAME enableNewWorkflowAPI in
  let kept element :=
    match element with
    | InstanceEl i =>
        if String.eqb (typeName (refType i)) WORKFLOW_TYPE_NAME then [] else [element]
    | TypeEl _ => [element]
    end in
  (truthy enableNewWorkflowAPI = false -> onFetch elements = elements)
  /\ (truthy enableNewWorkflowAPI = true ->
      (elements = [] -> onFetch elements = [])
      /\ (forall before element after,
          elements = before ++ element :: after ->
          onFetch elements = onFetch before ++ kept element ++ onFetch after)
      /\ (forall i, In (InstanceEl i) (onFetch elements) ->
                    typeName (refType i) <> WORKFLOW_TYPE_NAME))
  /\ onFetch (onFetch elements) = onFetch elements.
Proof.
  cbv zeta. unfold workflowV1Removal_onFetch.
  destruct (truthy enableNewWorkflowAPI) eqn:Et.
  - split; [discriminate|]. split.
    + intros _. split; [intros ->; reflexivity|]. split.
      * intros before element after ->. rewrite filter_app. cbn [filter].
        f_equal. destruct element as [i|t]; cbn [isWorkflowInstance negb app];
          [|reflexivity].
        destruct (String.eqb _ _); reflexivity.
      * intros i Hi. apply filter_In in Hi. destruct Hi as [_ Hi].
        apply negb_true_iff in Hi. cbn [isWorkflowInstance] in Hi.
        apply String.eqb_neq. exact Hi.
    + induction elements as [|el elements IH]; [reflexivity|].
      cbn [filter]. destruct (negb (isWorkflowInstance WORKFLOW_TYPE_NAME el)) eqn:E;
        [|exact IH].
      cbn [filter]. rewrite E, IH. reflexivity.
  - split; [reflexivity|]. split; [discriminate | reflexivity].
Qed.

(** The workflow type, an instance of it and an instance of another
    type: the instance of the workflow type goes, the two others stay
    in their order, also when the type is listed a second time. *)
Lemma workflowV1Removal_onFetch_spec_witness :
  let workflow := TypeEl (ObjectType (mkElemID "jira" "Workflow")) in
  let w1 := InstanceEl (mkInstance "w1" (mkElemID "jira" "Workflow") []) in
  workflowV1Removal_onFetch "Workflow" (VBool true)
    [workflow; w1; InstanceEl ex_scheme3; workflow]
  = [workflow; InstanceEl ex_scheme3; workflow].
Proof.
  cbv zeta.
  rewrite (proj1 (proj2 (proj1 (proj2
             (workflowV1Removal_onFetch_spec "Workflow" (VBool true)
                [TypeEl (ObjectType (mkElemID "jira" "Workflow"));
                 InstanceEl (mkInstance "w1" (mkElemID "jira" "Workflow") []);
                 InstanceEl ex_scheme3;
                 TypeEl (ObjectType (mkElemID "jira" "Workflow"))])) eq_refl))
             [TypeEl (ObjectType (mkElemID "jira" "Workflow"))]
             (InstanceEl (mkInstance "w1" (mkElemID "jira" "Workflow") []))
             [InstanceEl ex_scheme3;
              TypeEl (ObjectType (mkElemID "jira" "Workflow"))]
             eq_refl).
  reflexivity.
Defined.

End NumberConversion.

(* ================================================================== *)
(** * The theorems at sample inputs

    With [ex_numericString] for the conversion. *)

(** C3, the part that fails: the events field is optional in the
    schema, so a payload without it is accepted; and the diff never
    consults the validator: it runs on an instance value the validator
    refuses. *)
Lemma isNotificationScheme_accepts_missing_events :
  isNotificationScheme ex_numericString (VObj []) = true
  /\ isNotificationScheme ex_numericString (VObj (value ex_scheme3)) = false
  /\ exists c cs, getEventChanges (Addition ex_scheme3) ex_eventType = ok (c :: cs).
Proof.
  split; [reflexivity|]. split; [reflexivity|].
  vm_compute. eauto.
Qed.

(** A payload that is refused by [transformAllNotificationEvents], an
    event without [event] that is refused, and an event whose id is
    the string of a number, which is accepted. *)
Lemma isNotificationScheme_contract_witness :
  transformAllNotificationEvents ex_numericString
    (VObj [("notificationSchemeEvents", VStr "none")])
  = throw (JsError "Received an invalid notification scheme")
  /\ isNotificationScheme ex_numericString
       (VObj [("notificationSchemeEvents",
                VArr [VObj [("notifications", VArr [])]])]) = false
  /\ isNotificationScheme ex_numericString
       (VObj [("notificationSchemeEvents",
                VArr [VObj [("event", VObj [("id", VStr "10")])]])]) = true.
Proof.
  split; [|split].
  - apply (proj1 (proj2 (proj2 (proj2 (proj2
             (isNotificationScheme_contract ex_numericString
                (VObj [("notificationSchemeEvents", VStr "none")]))))))).
    reflexivity.
  - apply (proj1 (proj2 (proj2
             (isNotificationScheme_contract ex_numericString
                (VObj [("notificationSchemeEvents",
                         VArr [VObj [("notifications", VArr [])]])]))))
             [VObj [("notifications", VArr [])]]
             (VObj [("notifications", VArr [])])).
    + reflexivity.
    + simpl. auto.
    + intros (fs & H & _). discriminate H.
  - apply (proj1 (isNotificationScheme_contract ex_numericString
                    (VObj [("notificationSchemeEvents",
                             VArr [VObj [("event", VObj [("id", VStr "10")])]])]))).
    split; [eexists; reflexivity|]. right. eexists. split; [reflexivity|].
    constructor; [|constructor].
    split; [eexists; reflexivity|]. split; [|left; reflexivity].
    eexists. split; [reflexivity|]. right. exists "10". split; reflexivity.
Defined.

(** Two addresses bound to one event: the entry of the second address
    is given the id the service assigned to the first. *)
Lemma readBack_records_first_match_witness :
  let second := mkInstance "1-EmailAddress-b@x.io"
                  (mkElemID "jira" "NotificationSchemeEvent")
                  [("schemeId", VNum 7); ("name", VStr "1-EmailAddress-b@x.io");
                   ("eventTypeIds", VNum 1); ("type", VStr "EmailAddress");
                   ("EmailAddress", VStr "b@x.io")] in
  fst (resume ex_numericString (ex_client ex_remoteTwoAddresses)
         (AwaitGetSinglePage second (inr ex_remoteTwoAddresses))
         (mkState [("notificationIds", VObj [])] []))
  = mkState [("notificationIds", VObj [("1-EmailAddress-b@x.io", VNum 101)])] [].
Proof.
  cbv zeta.
  rewrite (proj1 (readBack_records_first_match ex_numericString
                    (ex_client ex_remoteTwoAddresses)
             (mkInstance "1-EmailAddress-b@x.io"
                (mkElemID "jira" "NotificationSchemeEvent")
                [("schemeId", VNum 7); ("name", VStr "1-EmailAddress-b@x.io");
                 ("eventTypeIds", VNum 1); ("type", VStr "EmailAddress");
                 ("EmailAddress", VStr "b@x.io")])
             ex_remoteTwoAddresses
             (mkState [("notificationIds", VObj [])] [])
             []
             (VObj [("id", VNum 101); ("notificationType", VStr "EmailAddress");
                    ("parameter", VStr "a@x.io")])
             [VObj [("id", VNum 102); ("notificationType", VStr "EmailAddress");
                    ("parameter", VStr "b@x.io")]]
             eq_refl eq_refl eq_refl eq_refl)).
  reflexivity.
Defined.

(** The same through the whole loop: both keys end up with id 101. *)
Example deployEvents_two_addresses :
  notificationIdsOf
    (fst (deployEvents ex_numericString (ex_client ex_remoteTwoAddresses)
            (Addition ex_schemeTwoAddresses) ex_eventType))
  = VObj [("1-EmailAddress-a@x.io", VNum 101);
          ("1-EmailAddress-b@x.io", VNum 101)].
Proof. vm_compute. reflexivity. Qed.



Lemma preDeploy_onDeploy_roundtrip_witness :
  exists wire,
    preDeploy ex_numericString (ex_client VNull) "NotificationScheme"
      [InstanceChange (Modification ex_declared ex_declared)] = ok wire
    /\ onDeploy ex_numericString (ex_client VNull) "NotificationScheme" ex_Number wire
       = ok (map (withNumericId "NotificationScheme" ex_Number)
               [InstanceChange (Modification ex_declared ex_declared)]).
Proof.
  exact (preDeploy_onDeploy_roundtrip ex_numericString
           (ex_client VNull) "NotificationScheme" ex_Number
           [InstanceChange (Modification ex_declared ex_declared)]
           eq_refl eq_refl).
Defined.

(** What the batch of the witness looks like in between. *)
Example preDeploy_adds_wire_fields :
  preDeploy ex_numericString (ex_client VNull) "NotificationScheme"
    [InstanceChange (Addition ex_declared)]
  = ok [InstanceChange (Addition
          (mkInstance "scheme" ex_schemeType
             [("id", VStr "7"); ("name", VStr "Default");
              ("notificationSchemeEvents",
                VArr [VObj [("eventType", VNum 1);
                            ("notifications",
                              VArr [VObj [("type", VStr "User");
                                          ("parameter", VStr "a");
                                          ("notificationType", VStr "User")]]);
                            ("event", VNum 1)]])]))].
Proof. reflexivity. Qed.

(** C2, the part that fails: three entries over two event types are
    all added and none removed, and every call succeeds; the loop
    issues three create calls, not two, and no delete call. *)
Lemma deployEvents_three_creates :
  let st := fst (deployEvents ex_numericString
                   (ex_client VNull) (Addition ex_scheme3) ex_eventType) in
  map elemName (ex_entries ex_scheme3)
  = ["1-User-a"; "1-Group-undefined"; "2-User-b"]
  /\ getEventChanges (Addition ex_scheme3) ex_eventType
     = ok (map Addition (ex_entries ex_scheme3))
  /\ List.length (filter isPut (calls st)) = 3
  /\ List.length (filter isPut (calls st)) <> 2
  /\ List.length (filter isDelete (calls st)) = 0.
Proof. vm_compute. repeat split; discriminate. Qed.

Lemma addition_issues_one_create_per_entry_witness :
  filter isPut
    (calls (fst (deployEvents ex_numericString
                   (ex_client VNull) (Addition ex_scheme3) ex_eventType)))
  = createCalls (ex_entries ex_scheme3)
  /\ List.length (createCalls (ex_entries ex_scheme3)) = 3.
Proof.
  assert (Hnd : NoDup (map elemName (ex_entries ex_scheme3))).
  { vm_compute. repeat constructor; simpl; intuition discriminate. }
  assert (Hput : forall e, In e (ex_entries ex_scheme3) ->
                           exists data, putData e = ok data).
  { intros e He. vm_compute in He.
    destruct He as [<-|[<-|[<-|[]]]]; vm_compute; eauto. }
  destruct (addition_issues_one_create_per_entry ex_numericString (ex_client VNull) ex_scheme3
              (mkElemID "jira" "NotificationSchemeEvent") (ex_entries ex_scheme3)
              eq_refl Hnd Hput) as (_ & Hp & _).
  split; [exact Hp | reflexivity].
Defined.

Lemma isNotificationScheme_unknown_fields_witness :
  isNotificationScheme ex_numericString
    (VObj (assign "self" (VStr "https://x.io/rest/api/3/notificationscheme/7")
             [("id", VNum 7); ("notificationSchemeEvents", VArr [])]))
  = isNotificationScheme ex_numericString
      (VObj [("id", VNum 7); ("notificationSchemeEvents", VArr [])]).
Proof.
  apply (proj2 (isNotificationScheme_unknown_fields ex_numericString
                  [("id", VNum 7); ("notificationSchemeEvents", VArr [])] []
                  "self" (VStr "https://x.io/rest/api/3/notificationscheme/7"))).
  discriminate.
Defined.

Lemma transform_then_project_witness :
  exists fs,
    transformAllNotificationEvents ex_numericString
      (firstOf (get ex_remoteTwoAddresses "values"))
    = ok (VObj fs)
    /\ getEventsValues fs
       = ok [mkEvent (VNum 1) (VStr "EmailAddress") (VStr "a@x.io") (VNum 101);
             mkEvent (VNum 1) (VStr "EmailAddress") (VStr "b@x.io") (VNum 102)].
Proof.
  exact (transform_then_project ex_numericString
           (firstOf (get ex_remoteTwoAddresses "values")) eq_refl).
Defined.

Lemma same_keys_no_op_witness :
  deployEvents ex_numericString
    (ex_client VNull) (Modification ex_scheme3 ex_scheme3) ex_eventType
  = (mkState (value ex_scheme3) [], ok tt).
Proof.
  apply (proj2 (same_keys_no_op ex_numericString (ex_client VNull)
                  (Modification ex_scheme3 ex_scheme3)
                  (mkElemID "jira" "NotificationSchemeEvent") ex_scheme3
                  (ex_entries ex_scheme3) (ex_entries ex_scheme3)
                  eq_refl eq_refl eq_refl (fun k => iff_refl _))).
Defined.

Lemma deployEvents_touches_only_identifier_map_witness :
  lookup "notificationSchemeEvents"
    (instanceValue
       (fst (deployEvents ex_numericString (ex_client ex_remoteTwoAddresses)
               (Addition ex_schemeTwoAddresses) ex_eventType)))
  = lookup "notificationSchemeEvents" (value ex_schemeTwoAddresses).
Proof.
  apply (proj2 (deployEvents_touches_only_identifier_map ex_numericString
                  (ex_client ex_remoteTwoAddresses)
                  (Addition ex_schemeTwoAddresses) ex_eventType)).
  discriminate.
Defined.

Lemma deployEvents_calls_witness :
  exists readBacks,
    calls (fst (deployEvents ex_numericString (ex_client VNull)
                  (Modification
                     (mkInstance "scheme" ex_schemeType
                        (value ex_scheme3 ++ [("notificationIds", VObj [])]))
                     (mkInstance "scheme" ex_schemeType
                        (value ex_schemeAfter
                           ++ [("notificationIds",
                                 VObj [("1-Group-undefined", VNum 31)])])))
                  ex_eventType))
    = [Delete "/rest/api/3/notificationscheme/7/notification/31"]
      ++ createCalls [nth 2 (ex_entries ex_schemeAfter) ex_scheme3] ++ readBacks
    /\ forallb isGetSinglePage readBacks = true
    /\ List.length readBacks
       <= List.length (createCalls [nth 2 (ex_entries ex_schemeAfter) ex_scheme3]).
Proof.
  exact (deployEvents_calls ex_numericString (ex_client VNull)
           (Modification
              (mkInstance "scheme" ex_schemeType
                 (value ex_scheme3 ++ [("notificationIds", VObj [])]))
              (mkInstance "scheme" ex_schemeType
                 (value ex_schemeAfter
                    ++ [("notificationIds", VObj [("1-Group-undefined", VNum 31)])])))
           ex_eventType
           [nth 1 (ex_entries ex_scheme3) ex_scheme3]
           [nth 2 (ex_entries ex_schemeAfter) ex_scheme3]
           eq_refl eq_refl).
Defined.

(** Three bindings removed, the second delete call refused: when the
    loop rejects, the first name is struck off and the third is not
    yet; once every callback has run, the third is struck off as well
    and the second still holds its identifier. *)
Lemma removals_bookkeeping_witness :
  let ids := [("1-User-a", VNum 30); ("1-Group-undefined", VNum 31);
              ("2-User-b", VNum 32)] in
  let before := mkInstance "scheme" ex_schemeType (value ex_scheme3) in
  let after := mkInstance "scheme" ex_schemeType
                 [("id", VNum 7); ("notificationIds", VObj ids)] in
  let change := Modification before after in
  deployEvents ex_numericString ex_clientSecondDeleteFails change ex_eventType
  = (mkState [("id", VNum 7);
              ("notificationIds",
                VObj [("1-Group-undefined", VNum 31); ("2-User-b", VNum 32)])]
       [Delete "/rest/api/3/notificationscheme/7/notification/30";
        Delete "/rest/api/3/notificationscheme/7/notification/31";
        Delete "/rest/api/3/notificationscheme/7/notification/32"],
     throw (ClientError "Request failed with status code 404"))
  /\ notificationIdsOf (afterCallbacks ex_numericString
                          ex_clientSecondDeleteFails change ex_eventType)
     = VObj [("1-Group-undefined", VNum 31)].
Proof.
  cbv zeta.
  destruct (removals_bookkeeping ex_numericString ex_clientSecondDeleteFails
              (Modification
                 (mkInstance "scheme" ex_schemeType (value ex_scheme3))
                 (mkInstance "scheme" ex_schemeType
                    [("id", VNum 7);
                     ("notificationIds",
                       VObj [("1-User-a", VNum 30); ("1-Group-undefined", VNum 31);
                             ("2-User-b", VNum 32)])]))
              ex_eventType
              (ex_entries ex_scheme3)
              [("1-User-a", VNum 30); ("1-Group-undefined", VNum 31);
               ("2-User-b", VNum 32)]
              eq_refl eq_refl) as (Hawait & Hlater & _).
  split.
  - rewrite Hawait. reflexivity.
  - rewrite Hlater. reflexivity.
Defined.

Lemma additions_bookkeeping_witness :
  let change :=
    Modification
      (mkInstance "scheme" ex_schemeType
         [("id", VNum 7);
          ("notificationSchemeEvents",
            VArr [ex_event (VNum 2) [ex_notification "User" (VStr "b")]])])
      ex_schemeTwo in
  let st := fst (deployEvents ex_numericString
                   (ex_client ex_remoteFirst) change ex_eventType) in
  snd (deployEvents ex_numericString (ex_client ex_remoteFirst) change ex_eventType) = ok tt
  /\ calls st = createCalls [ex_first] ++ readBackCalls [ex_first]
  /\ mapOf (notificationIdsOf st) = [("1-User-a", VNum 555)].
Proof.
  cbv zeta.
  destruct (additions_bookkeeping ex_numericString (ex_client ex_remoteFirst)
              (Modification
                 (mkInstance "scheme" ex_schemeType
                    [("id", VNum 7);
                     ("notificationSchemeEvents",
                       VArr [ex_event (VNum 2) [ex_notification "User" (VStr "b")]])])
                 ex_schemeTwo)
              ex_eventType [ex_first] ex_remoteFirst (fun _ => VNum 555) eq_refl)
    as (H1 & H2 & H3 & _).
  - intros e [<-|[]]. vm_compute. eauto.
  - intros issued url d. cbn. eauto.
  - reflexivity.
  - reflexivity.
  - intros e [<-|[]]. reflexivity.
  - left. reflexivity.
  - split; [exact H1|]. split; [exact H2 | exact H3].
Defined.



Lemma deploy_leftovers_witness :
  deploy ex_numericString (ex_client VNull) "NotificationScheme" "NotificationSchemeEvent"
    (fun c _ => ok c) (fun _ => ex_eventType)
    [OtherChange (Addition ex_eventType);
     InstanceChange (Addition (mkInstance "Bug" (mkElemID "jira" "IssueType") []))]
  = (mkFilterResult
       [OtherChange (Addition ex_eventType);
        InstanceChange (Addition (mkInstance "Bug" (mkElemID "jira" "IssueType") []))]
       (mkDeployResult [] []), []).
Proof.
  apply (proj2 (deploy_leftovers ex_numericString (ex_client VNull) "NotificationScheme"
                  "NotificationSchemeEvent" (fun c _ => ok c) (fun _ => ex_eventType)
                  [OtherChange (Addition ex_eventType);
                   InstanceChange
                     (Addition (mkInstance "Bug" (mkElemID "jira" "IssueType") []))])).
  intros c [<-|[<-|[]]]; reflexivity.
Defined.

Lemma deploy_events_only_for_modifications_witness :
  deploy ex_numericString (ex_client VNull) "NotificationScheme" "NotificationSchemeEvent"
    (fun c _ => ok c) (fun _ => ex_eventType)
    [InstanceChange (Addition ex_scheme3); OtherChange (Addition ex_eventType)]
  = (mkFilterResult [OtherChange (Addition ex_eventType)]
       (mkDeployResult [InstanceChange (Addition ex_scheme3)] []),
     []).
Proof.
  apply (deploy_events_only_for_modifications ex_numericString
           (ex_client VNull) "NotificationScheme"
           "NotificationSchemeEvent" (fun c _ => ok c) (fun _ => ex_eventType)
           [InstanceChange (Addition ex_scheme3); OtherChange (Addition ex_eventType)]
           eq_refl).
  - intros c ignore c' H. injection H as <-. reflexivity.
  - intros ch [H|[H|[]]] _; [injection H as <-; reflexivity | discriminate H].
Defined.

Lemma deploy_modification_witness :
  deploy ex_numericString (ex_client VNull) "NotificationScheme" "NotificationSchemeEvent"
    (fun c _ => ok c) (fun _ => ex_eventType)
    [InstanceChange (Modification ex_scheme3 ex_scheme3)]
  = (mkFilterResult []
       (mkDeployResult
          [InstanceChange (Modification ex_scheme3 ex_scheme3);
           InstanceChange (Modification ex_scheme3 ex_scheme3)] []),
     []).
Proof.
  exact (deploy_modification ex_numericString (ex_client VNull) "NotificationScheme"
           "NotificationSchemeEvent" (fun c _ => ok c) (fun _ => ex_eventType)
           ex_scheme3 ex_scheme3 (Modification ex_scheme3 ex_scheme3)
           eq_refl eq_refl eq_refl eq_refl).
Defined.


(** The loop on the two addresses resolves, and returns what its
    callbacks leave. *)
Lemma deployEvents_and_its_callbacks_witness :
  fst (deployEvents ex_numericString (ex_client ex_remoteTwoAddresses)
         (Addition ex_schemeTwoAddresses) ex_eventType)
  = afterCallbacks ex_numericString (ex_client ex_remoteTwoAddresses)
      (Addition ex_schemeTwoAddresses) ex_eventType.
Proof.
  apply (proj1 (deployEvents_and_its_callbacks ex_numericString
                  (ex_client ex_remoteTwoAddresses) (Addition ex_schemeTwoAddresses)
                  ex_eventType)).
  vm_compute. reflexivity.
Defined.
